(** * Coin flip physics simulator: integrator, classification and run loop

    A shallow embedding of [script.js].  JavaScript Numbers are IEEE 754
    binary64 values, so positions, velocities, angles and time steps are
    primitive [float]s: addition, multiplication, division, square root,
    absolute value and the comparisons are the kernel's binary64 operations
    and evaluate on concrete inputs exactly as the script's do.  The integer
    counters of the statistics panel (only ever incremented by one, far below
    2^53) and the colour index are kept as [Z].
    Drawing is embedded as the list of calls made on the canvas context.

    The file has two parts: the embedding of the script together with the
    predicates and test data the statements use, then the theorems. *)

From Stdlib Require Import ZArith List Bool Floats Lia.
From Stdlib Require String.
Import ListNotations.
Import String.StringSyntax.

Set Warnings "-inexact-float".

Open Scope float_scope.
Open Scope string_scope.

(** ** ECMAScript Number operations that are not kernel primitives *)

Module JS.

(** [Math.PI], the binary64 value nearest to pi. *)
Definition Math_PI : float := 3.141592653589793.

(** [Math.min(a, b)]: NaN if either argument is NaN, and -0 is smaller
    than +0. *)
Definition Math_min (a b : float) : float :=
  if is_nan a || is_nan b then nan
  else if a <? b then a
  else if b <? a then b
  else if get_sign a then a else b.

(** [Math.max(a, b)]: NaN if either argument is NaN, and +0 is larger
    than -0. *)
Definition Math_max (a b : float) : float :=
  if is_nan a || is_nan b then nan
  else if a <? b then b
  else if b <? a then a
  else if get_sign a then b else a.

(** The [%] operator on Numbers (ECMAScript Number::remainder): the
    result has the sign of the dividend, is NaN for an infinite dividend
    or a zero divisor, is the dividend itself for an infinite divisor,
    and otherwise is the exact value [x - trunc(x/y) * y], which is always
    representable. *)
Definition rem (x y : float) : float :=
  match Prim2SF x, Prim2SF y with
  | S754_nan, _ | _, S754_nan => nan
  | S754_infinity _, _ => nan
  | _, S754_zero _ => nan
  | S754_zero _, _ => x
  | S754_finite _ _ _, S754_infinity _ => x
  | S754_finite sx mx ex, S754_finite _ my ey =>
      let e := Z.min ex ey in
      let X := (Zpos mx * 2 ^ (ex - e))%Z in
      let Y := (Zpos my * 2 ^ (ey - e))%Z in
      SF2Prim (binary_normalize prec emax (cond_Zopp sx (X mod Y)) e sx)
  end.

End JS.

Infix "%%" := JS.rem (at level 40, left associativity) : float_scope.

(** ** Physics constants *)

Definition GRAVITY : float := 9.81.
Definition SCALE : float := 100.

(** ** Data model *)

(** The [params] object read by the constructor. *)
Module Params.
Record t : Type := mk {
  height : float;
  velocity : float;
  spin : float;
  angle : float;
  wind : float;
  restitution : float;
  drag : float
}.

(** [{...params, velocity: v}] *)
Definition with_velocity (p : t) (v : float) : t :=
  mk (height p) v (spin p) (angle p) (wind p) (restitution p) (drag p).
End Params.

(** The initial value of the global [params]. *)
Definition default_params : Params.t :=
  Params.mk 1.5 5 20 75 0 0.6 0.005.

(** [result] is [null], ['heads'] or ['tails']. *)
Inductive Outcome : Type := Heads | Tails.

(** An instance of [class Coin]. *)
Record Coin : Type := mkCoin {
  x : float;
  y : float;
  vx : float;
  vy : float;
  angle : float;
  angularVelocity : float;
  radius : float;
  mass : float;
  restitution : float;
  drag : float;
  wind : float;
  isSettled : bool;
  settleTimer : float;
  trajectory : list (float * float);
  colorIndex : Z;
  result : option Outcome
}.

(** Field assignments [this.f = v]. *)
Definition set_x (v : float) (c : Coin) : Coin :=
  mkCoin v (y c) (vx c) (vy c) (angle c) (angularVelocity c) (radius c)
    (mass c) (restitution c) (drag c) (wind c) (isSettled c) (settleTimer c)
    (trajectory c) (colorIndex c) (result c).
Definition set_y (v : float) (c : Coin) : Coin :=
  mkCoin (x c) v (vx c) (vy c) (angle c) (angularVelocity c) (radius c)
    (mass c) (restitution c) (drag c) (wind c) (isSettled c) (settleTimer c)
    (trajectory c) (colorIndex c) (result c).
Definition set_vx (v : float) (c : Coin) : Coin :=
  mkCoin (x c) (y c) v (vy c) (angle c) (angularVelocity c) (radius c)
    (mass c) (restitution c) (drag c) (wind c) (isSettled c) (settleTimer c)
    (trajectory c) (colorIndex c) (result c).
Definition set_vy (v : float) (c : Coin) : Coin :=
  mkCoin (x c) (y c) (vx c) v (angle c) (angularVelocity c) (radius c)
    (mass c) (restitution c) (drag c) (wind c) (isSettled c) (settleTimer c)
    (trajectory c) (colorIndex c) (result c).
Definition set_angle (v : float) (c : Coin) : Coin :=
  mkCoin (x c) (y c) (vx c) (vy c) v (angularVelocity c) (radius c)
    (mass c) (restitution c) (drag c) (wind c) (isSettled c) (settleTimer c)
    (trajectory c) (colorIndex c) (result c).
Definition set_angularVelocity (v : float) (c : Coin) : Coin :=
  mkCoin (x c) (y c) (vx c) (vy c) (angle c) v (radius c)
    (mass c) (restitution c) (drag c) (wind c) (isSettled c) (settleTimer c)
    (trajectory c) (colorIndex c) (result c).
Definition set_isSettled (v : bool) (c : Coin) : Coin :=
  mkCoin (x c) (y c) (vx c) (vy c) (angle c) (angularVelocity c) (radius c)
    (mass c) (restitution c) (drag c) (wind c) v (settleTimer c)
    (trajectory c) (colorIndex c) (result c).
Definition set_settleTimer (v : float) (c : Coin) : Coin :=
  mkCoin (x c) (y c) (vx c) (vy c) (angle c) (angularVelocity c) (radius c)
    (mass c) (restitution c) (drag c) (wind c) (isSettled c) v
    (trajectory c) (colorIndex c) (result c).
Definition set_trajectory (v : list (float * float)) (c : Coin) : Coin :=
  mkCoin (x c) (y c) (vx c) (vy c) (angle c) (angularVelocity c) (radius c)
    (mass c) (restitution c) (drag c) (wind c) (isSettled c) (settleTimer c)
    v (colorIndex c) (result c).
Definition set_colorIndex (v : Z) (c : Coin) : Coin :=
  mkCoin (x c) (y c) (vx c) (vy c) (angle c) (angularVelocity c) (radius c)
    (mass c) (restitution c) (drag c) (wind c) (isSettled c) (settleTimer c)
    (trajectory c) v (result c).
Definition set_result (v : option Outcome) (c : Coin) : Coin :=
  mkCoin (x c) (y c) (vx c) (vy c) (angle c) (angularVelocity c) (radius c)
    (mass c) (restitution c) (drag c) (wind c) (isSettled c) (settleTimer c)
    (trajectory c) (colorIndex c) v.

(** The globals [canvasWidth] and [canvasHeight] read by [update]. *)
Record World : Type := mkWorld {
  canvasWidth : float;
  canvasHeight : float
}.

(** ** [Coin.determineResult] *)

Definition normalizedAngle (a : float) : float :=
  ((a %% (2 * JS.Math_PI)) + 2 * JS.Math_PI) %% (2 * JS.Math_PI).

Definition quarterTurn : float := JS.Math_PI / 2.

Definition classify (a : float) : Outcome :=
  if (normalizedAngle a <? quarterTurn)
     || (3 * quarterTurn <? normalizedAngle a)
  then Heads else Tails.

Definition determineResult (c : Coin) : Coin :=
  set_result (Some (classify (angle c))) c.

(** ** [Coin.update] *)

Definition groundY (w : World) : float := canvasHeight w / SCALE - 0.05.

(** Lines 61-86: gravity, air resistance, wind, position, rotation and the
    trajectory sample. *)
Definition integrate (c : Coin) (dt : float) : Coin :=
  let c := set_vy (vy c + GRAVITY * dt) c in
  let speed := sqrt (vx c * vx c + vy c * vy c) in
  let dragForce := 0.5 * drag c * speed * speed in
  let dragX := (- dragForce) * (vx c / speed) in
  let dragY := (- dragForce) * (vy c / speed) in
  let c := set_vx (vx c + dragX * dt) c in
  let c := set_vy (vy c + dragY * dt) c in
  let c := set_vx (vx c + wind c * dt * 0.5) c in
  let c := set_x (x c + vx c * dt) c in
  let c := set_y (y c + vy c * dt) c in
  let c := set_angle (angle c + angularVelocity c * dt) c in
  if (length (trajectory c) <? 1000)%nat
  then set_trajectory (trajectory c ++ [(x c, y c)]) c
  else c.

(** Lines 98-110: the settle check made on ground contact. *)
Definition settleCheck (c : Coin) (dt : float) : Coin :=
  if (abs (vy c) <? 0.1) && (abs (vx c) <? 0.1) then
    let c := set_settleTimer (settleTimer c + dt) c in
    if 0.5 <? settleTimer c then
      let c := set_isSettled true c in
      let c := set_vx 0 c in
      let c := set_vy 0 c in
      let c := set_angularVelocity 0 c in
      determineResult c
    else c
  else set_settleTimer 0 c.

(** Lines 88-111: ground collision. *)
Definition groundCollision (w : World) (c : Coin) (dt : float) : Coin :=
  if groundY w <? y c + radius c then
    let c := set_y (groundY w - radius c) c in
    let c := set_vy ((- vy c) * restitution c) c in
    let c := set_vx (vx c * 0.95) c in
    let c := set_angularVelocity (angularVelocity c * 0.9) c in
    settleCheck c dt
  else c.

(** Lines 114-117 and 118-121: the two wall tests, made in this order. *)
Definition leftWall (c : Coin) : Coin :=
  if x c - radius c <? 0 then
    let c := set_x (radius c) c in
    set_vx ((- vx c) * 0.8) c
  else c.

Definition rightWall (w : World) (c : Coin) : Coin :=
  if canvasWidth w / SCALE <? x c + radius c then
    let c := set_x (canvasWidth w / SCALE - radius c) c in
    set_vx ((- vx c) * 0.8) c
  else c.

Definition wallCollisions (w : World) (c : Coin) : Coin :=
  rightWall w (leftWall c).

Definition update (w : World) (c : Coin) (dt : float) : Coin :=
  if isSettled c then c
  else wallCollisions w (groundCollision w (integrate c dt) dt).

(** Repeated calls of [update], one per frame. *)
Definition updates (w : World) (c : Coin) (dts : list float) : Coin :=
  fold_left (update w) dts c.

(** ** The constructor

    [Math.cos] and [Math.sin] are host functions whose results ECMAScript
    leaves implementation-approximated; the embedding takes them from a
    [Host]. *)

Record Host : Type := mkHost {
  Math_cos : float -> float;
  Math_sin : float -> float
}.

(** [new Coin(x, y, params, colorIndex)] *)
Definition newCoin (host : Host) (x0 y0 : float) (params : Params.t)
    (colorIndex0 : Z) : Coin :=
  {| x := x0;
     y := y0;
     vx := Math_cos host (Params.angle params * JS.Math_PI / 180)
           * Params.velocity params;
     vy := (- Math_sin host (Params.angle params * JS.Math_PI / 180))
           * Params.velocity params;
     angle := 0;
     angularVelocity := Params.spin params;
     radius := 0.12;
     mass := 0.01;
     restitution := Params.restitution params;
     drag := Params.drag params;
     wind := Params.wind params;
     isSettled := false;
     settleTimer := 0;
     trajectory := [];
     colorIndex := colorIndex0;
     result := None |}.

(** ** Run state: the script's globals *)

Record Stats : Type := mkStats {
  total : Z;
  heads : Z;
  tails : Z
}.

(** [coin] holds a reference to an element of [chaosCoins] (the script only
    ever stores the object it also puts at index 0), so it is kept as an
    index: the object itself lives in [chaosCoins], where [animate] mutates
    it. *)
Record Sim : Type := mkSim {
  world : World;
  coin : option nat;
  isSimulating : bool;
  chaosCoins : list Coin;
  stats : Stats;
  params : Params.t;
  lastTime : float
}.

Definition set_world (v : World) (s : Sim) : Sim :=
  mkSim v (coin s) (isSimulating s) (chaosCoins s) (stats s) (params s)
    (lastTime s).
Definition set_coin (v : option nat) (s : Sim) : Sim :=
  mkSim (world s) v (isSimulating s) (chaosCoins s) (stats s) (params s)
    (lastTime s).
Definition set_isSimulating (v : bool) (s : Sim) : Sim :=
  mkSim (world s) (coin s) v (chaosCoins s) (stats s) (params s) (lastTime s).
Definition set_chaosCoins (v : list Coin) (s : Sim) : Sim :=
  mkSim (world s) (coin s) (isSimulating s) v (stats s) (params s)
    (lastTime s).
Definition set_stats (v : Stats) (s : Sim) : Sim :=
  mkSim (world s) (coin s) (isSimulating s) (chaosCoins s) v (params s)
    (lastTime s).
Definition set_params (v : Params.t) (s : Sim) : Sim :=
  mkSim (world s) (coin s) (isSimulating s) (chaosCoins s) (stats s) v
    (lastTime s).
Definition set_lastTime (v : float) (s : Sim) : Sim :=
  mkSim (world s) (coin s) (isSimulating s) (chaosCoins s) (stats s)
    (params s) v.

(** The object [coin] refers to, if any. *)
Definition coinObject (s : Sim) : option Coin :=
  match coin s with
  | Some k => nth_error (chaosCoins s) k
  | None => None
  end.

(** The canvas [resizeCanvas()] makes, given the width of the container's
    bounding rectangle. *)
Definition canvasOf (rectWidth : float) : World :=
  mkWorld (JS.Math_max 600 (rectWidth - 40)) 500.

Definition resizeCanvas (rectWidth : float) (s : Sim) : Sim :=
  set_world (canvasOf rectWidth) s.

(** The steps of one coin over a run: each frame comes with the width the
    container had at the last resize and with its time step. *)
Definition stepsIn (c : Coin) (steps : list (float * float)) : Coin :=
  fold_left (fun c st => update (canvasOf (fst st)) c (snd st)) steps c.

(** The state once [init] has run: the initial values of the globals, the
    canvas sized, [lastTime] the load time. *)
Definition initial (rectWidth now : float) : Sim :=
  resizeCanvas rectWidth
    (mkSim (mkWorld nan nan) None false [] (mkStats 0 0 0) default_params now).

Definition reset (s : Sim) : Sim :=
  let s := set_coin None s in
  let s := set_chaosCoins [] s in
  set_isSimulating false s.

Definition startX (s : Sim) : float := canvasWidth (world s) / (2 * SCALE).
Definition startY (s : Sim) : float :=
  canvasHeight (world s) / SCALE - Params.height (params s).

(** The body shared by [flipOnce] and the executor of [runSingleFlip]:
    reset, construct one coin, start simulating. *)
Definition launchSingle (host : Host) (s : Sim) : Sim :=
  let s := reset s in
  let c := newCoin host (startX s) (startY s) (params s) 0 in
  let s := set_chaosCoins [c] s in
  let s := set_coin (Some 0%nat) s in
  set_isSimulating true s.

Definition flipOnce (host : Host) (s : Sim) : Sim :=
  if isSimulating s then s else launchSingle host s.

(** The synchronous part of [runSingleFlip]; the promise it returns
    resolves once the polled [coin.isSettled] is true. *)
Definition runSingleFlip (host : Host) (s : Sim) : Sim := launchSingle host s.

(** The loop counter [i] of [runChaosDemo] as a Number. *)
Definition num_of_Z (i : Z) : float :=
  SF2Prim (binary_normalize prec emax i 0 false).

Definition variation (i : Z) : float := 1 + (num_of_Z i - 3.5) * 0.002.

Definition modifiedParams (p : Params.t) (i : Z) : Params.t :=
  Params.with_velocity p (Params.velocity p * variation i).

(** [for (let i = 0; i < 8; i++)] *)
Definition chaosIndices : list Z := [0; 1; 2; 3; 4; 5; 6; 7]%Z.

Definition runChaosDemo (host : Host) (s : Sim) : Sim :=
  if isSimulating s then s
  else
    let s := reset s in
    let coins :=
      map (fun i =>
             newCoin host (startX s) (startY s) (modifiedParams (params s) i) i)
          chaosIndices in
    let s := set_chaosCoins coins s in
    set_isSimulating true s.

Definition clearStats (s : Sim) : Sim :=
  set_stats (mkStats 0 0 0) s.

Definition updateStats (r : Outcome) (st : Stats) : Stats :=
  let st := mkStats (total st + 1) (heads st) (tails st) in
  match r with
  | Heads => mkStats (total st) (heads st + 1) (tails st)
  | Tails => mkStats (total st) (heads st) (tails st + 1)
  end.

(** [showResult(result)]: apart from the display, it updates the
    statistics. *)
Definition showResult (r : Outcome) (s : Sim) : Sim :=
  set_stats (updateStats r (stats s)) s.

(** The time step of a frame (line 478). *)
Definition frame_dt (currentTime lastTime0 : float) : float :=
  JS.Math_min ((currentTime - lastTime0) / 1000) 0.02.

(** [animate()], with [Date.now()] as an argument.  [init] starts the loop
    only after it found the canvas and its context, so the test
    [ctx && canvas] holds in every frame; drawing is left out. *)
Definition animate (currentTime : float) (s : Sim) : Sim :=
  let dt := frame_dt currentTime (lastTime s) in
  let s := set_lastTime currentTime s in
  if isSimulating s && (0 <? length (chaosCoins s))%nat then
    let s :=
      set_chaosCoins (map (fun c => update (world s) c dt) (chaosCoins s)) s in
    let allSettled := forallb isSettled (chaosCoins s) in
    if allSettled then
      let s := set_isSimulating false s in
      match chaosCoins s with
      | [c] =>
          match result c with
          | Some r => showResult r s
          | None => s
          end
      | _ => s
      end
    else s
  else s.

(** A sequence of frames, given the successive values of [Date.now()]. *)
Definition frames (times : list float) (s : Sim) : Sim :=
  fold_left (fun s t => animate t s) times s.

(** One flip of [run100Times]: [runSingleFlip], then the frames rendered
    until its promise resolves. *)
Definition singleRun (host : Host) (s : Sim) (times : list float) : Sim :=
  frames times (runSingleFlip host s).

(** The coin polled by [runSingleFlip] is settled. *)
Definition coinSettled (s : Sim) : bool :=
  match coinObject s with
  | Some c => isSettled c
  | None => false
  end.

(** Flips in sequence, each with the frames rendered while it ran. *)
Definition batch (host : Host) (s : Sim) (runs : list (list float)) : Sim :=
  fold_left (singleRun host) runs s.

(** [run100Times()]: nothing if a simulation is running, else 100 flips one
    after the other; [framesOf i] are the frames rendered while flip [i]
    runs, until its promise resolves. *)
Definition run100Times (host : Host) (framesOf : nat -> list float)
    (s : Sim) : Sim :=
  if isSimulating s then s
  else batch host s (map framesOf (seq 0 100)).

(** ** Drawing: [Coin.draw] and the coins of a frame *)

(** The options the two checkboxes set (lines 33-35). *)
Record Options : Type := mkOptions {
  showTrajectory : bool;
  showGrid : bool
}.

(** The calls made on the 2D context and the assignments to its
    properties, in the order the script makes them.  A fill style is the
    value assigned, [None] being [undefined]; [font px] is the template
    literal [`${px}px Arial`]. *)
Inductive Cmd : Type :=
| save
| restore
| translate (tx ty : float)
| rotate (a : float)
| beginPath
| ellipse (ex ey radiusX radiusY rotation startAngle endAngle : float)
| fillStyle (v : option String.string)
| strokeStyle (v : String.string)
| lineWidth (v : float)
| fill
| stroke
| font (px : float)
| textAlign (v : String.string)
| textBaseline (v : String.string)
| fillText (text : String.string) (tx ty : float)
| moveTo (px py : float)
| lineTo (px py : float)
| fillRect (rx ry rw rh : float).

(** The palette of the divergence run (lines 143-146). *)
Definition colors : list String.string :=
  ["#3b82f6"; "#8b5cf6"; "#ec4899"; "#f59e0b";
   "#10b981"; "#06b6d4"; "#f97316"; "#84cc16"].

(** [colors[colorIndex % colors.length]] for an integer colour index: [%]
    truncates towards zero, and an index below zero finds no element. *)
Definition colorAt (colorIndex0 : Z) : option String.string :=
  let k := Z.rem colorIndex0 (Z.of_nat (length colors)) in
  if (k <? 0)%Z then None else nth_error colors (Z.to_nat k).

(** Lines 149-150. *)
Definition currentAngle (c : Coin) : float :=
  ((angle c %% (2 * JS.Math_PI)) + 2 * JS.Math_PI) %% (2 * JS.Math_PI).

Definition isHeadsUp (c : Coin) : bool :=
  (currentAngle c <? JS.Math_PI / 2)
  || (3 * JS.Math_PI / 2 <? currentAngle c).

(** Line 153. *)
Definition scaleY (host : Host) (c : Coin) : float :=
  abs (Math_cos host (angle c)) * 0.3 + 0.7.

(** Lines 183-192: the polyline through the trajectory samples, drawn for
    a trajectory that has a first sample. *)
Definition trajectoryPath (nCoins : nat) (c : Coin) : list Cmd :=
  match trajectory c with
  | [] => []
  | p0 :: rest =>
      [strokeStyle
         (if (1 <? nCoins)%nat
          then match colorAt (colorIndex c) with
               | Some s => String.append s "80"
               | None => "undefined80"
               end
          else "#3b82f680");
       lineWidth 2;
       beginPath;
       moveTo (fst p0 * SCALE) (snd p0 * SCALE)]
      ++ map (fun p => lineTo (fst p * SCALE) (snd p * SCALE)) rest
      ++ [stroke]
  end.

(** [coin.draw(ctx)], with [nCoins] the value of [chaosCoins.length]. *)
Definition draw (host : Host) (opts : Options) (nCoins : nat) (c : Coin)
    : list Cmd :=
  [save;
   translate (x c * SCALE) (y c * SCALE);
   rotate (angle c);
   beginPath;
   ellipse 0 0 (radius c * SCALE) (radius c * SCALE * scaleY host c)
     0 0 (2 * JS.Math_PI);
   fillStyle
     (if (1 <? nCoins)%nat then colorAt (colorIndex c)
      else Some (if isHeadsUp c then "#3b82f6" else "#ec4899"));
   fill;
   strokeStyle "#1e293b";
   lineWidth 2;
   stroke;
   fillStyle (Some "#1e293b");
   font (radius c * SCALE * 0.8);
   textAlign "center";
   textBaseline "middle"]
  ++ (if 0.5 <? scaleY host c
      then [fillText (if isHeadsUp c then "H" else "T") 0 0]
      else [])
  ++ [restore]
  ++ (if showTrajectory opts && (1 <? length (trajectory c))%nat
      then trajectoryPath nCoins c
      else []).

(** The calls [animate] makes for the coins of a frame (lines 494-504):
    each coin is stepped, then drawn. *)
Definition drawCoins (host : Host) (opts : Options) (currentTime : float)
    (s : Sim) : list Cmd :=
  let dt := frame_dt currentTime (lastTime s) in
  if isSimulating s && (0 <? length (chaosCoins s))%nat then
    concat
      (map (fun c =>
              draw host opts (length (chaosCoins s)) (update (world s) c dt))
           (chaosCoins s))
  else [].

(** [drawGround()]: a band five pixels high along the bottom of the canvas,
    and a line along its top. *)
Definition groundLine (w : World) : float := canvasHeight w - 5.

Definition drawGround (w : World) : list Cmd :=
  [fillStyle (Some "#334155");
   fillRect 0 (groundLine w) (canvasWidth w) 5;
   strokeStyle "#475569";
   lineWidth 2;
   beginPath;
   moveTo 0 (groundLine w);
   lineTo (canvasWidth w) (groundLine w);
   stroke].

(** [for (let v = v0; v <= limit; v += SCALE)]: the values of [v] for
    which the body runs, or [None] if the loop has not ended after [fuel]
    tests. *)
Fixpoint gridSteps (fuel : nat) (v limit : float) : option (list float) :=
  match fuel with
  | O => None
  | S fuel' =>
      if v <=? limit then
        match gridSteps fuel' (v + SCALE) limit with
        | Some vs => Some (v :: vs)
        | None => None
        end
      else Some []
  end.

Definition verticalLine (w : World) (gx : float) : list Cmd :=
  [beginPath; moveTo gx 0; lineTo gx (canvasHeight w); stroke].

Definition horizontalLine (w : World) (gy : float) : list Cmd :=
  [beginPath; moveTo 0 gy; lineTo (canvasWidth w) gy; stroke].

(** [drawGrid()], each of its loops given [fuel] tests. *)
Definition drawGrid (fuel : nat) (w : World) : option (list Cmd) :=
  match gridSteps fuel 0 (canvasWidth w) with
  | None => None
  | Some xs =>
      match gridSteps fuel 0 (canvasHeight w) with
      | None => None
      | Some ys =>
          Some ([strokeStyle "#1e293b"; lineWidth 1]
                ++ concat (map (verticalLine w) xs)
                ++ concat (map (horizontalLine w) ys))
      end
  end.

(** The first [n] values a grid loop can reach from [v]. *)
Fixpoint marks (n : nat) (v : float) : list float :=
  match n with
  | O => []
  | S n' => v :: marks n' (v + SCALE)
  end.

(** [k] metres in pixels. *)
Definition mark (k : nat) : float := num_of_Z (100 * Z.of_nat k).

(** ** Predicates and relations used by the statements *)

(** The coins a run can hold: constructed, then stepped any number of
    times, in whatever world each frame finds. *)
Inductive reachable (host : Host) : Coin -> Prop :=
| reach_new (x0 y0 : float) (p : Params.t) (i : Z) :
    reachable host (newCoin host x0 y0 p i)
| reach_update (w : World) (c : Coin) (dt : float) :
    reachable host c -> reachable host (update w c dt).

(** A settled flag and an outcome are always set together. *)
Definition consistent (c : Coin) : Prop :=
  (isSettled c = false /\ result c = None) \/
  (isSettled c = true /\ exists r, result c = Some r).

(** Once settled, the outcome is the classification of the final angle. *)
Definition classified (c : Coin) : Prop :=
  isSettled c = true -> result c = Some (classify (angle c)).

(** What the page can do to the run state. *)
Inductive Op : Type :=
| OpFlipOnce
| OpRunSingleFlip
| OpRunChaosDemo
| OpReset
| OpClearStats
| OpAnimate (currentTime : float)
| OpResizeCanvas (rectWidth : float)
| OpSetParams (p : Params.t).

Definition apply_op (host : Host) (o : Op) (s : Sim) : Sim :=
  match o with
  | OpFlipOnce => flipOnce host s
  | OpRunSingleFlip => runSingleFlip host s
  | OpRunChaosDemo => runChaosDemo host s
  | OpReset => reset s
  | OpClearStats => clearStats s
  | OpAnimate t => animate t s
  | OpResizeCanvas rw => resizeCanvas rw s
  | OpSetParams p => set_params p s
  end.

Definition run_ops (host : Host) (ops : list Op) (s : Sim) : Sim :=
  fold_left (fun s o => apply_op host o s) ops s.

Definition stats_ok (st : Stats) : Prop :=
  (heads st + tails st = total st)%Z.

(** Every flip of a batch has settled its coin by the time the next one
    starts, as [run100Times] waits for. *)
Fixpoint allSettle (host : Host) (s : Sim) (runs : list (list float)) : bool :=
  match runs with
  | [] => true
  | times :: runs' =>
      let s' := singleRun host s times in
      coinSettled s' && allSettle host s' runs'
  end.

(** The state of a single flip while its frames are rendered: one coin,
    either still running with the statistics untouched, or settled with
    exactly one classification counted. *)
Definition flipState (st0 : Stats) (s : Sim) : Prop :=
  coin s = Some 0%nat /\
  exists c, chaosCoins s = [c] /\ consistent c /\
    ((isSimulating s = true /\ isSettled c = false /\ stats s = st0) \/
     (isSimulating s = false /\ isSettled c = true /\
      exists r, stats s = updateStats r st0)).

(** A decoded binary64 value that is plus infinity or a normal positive
    number of exponent at least [k], that is, not below [2 ^ (k + 52)]. *)
Definition at_least (k : Z) (v : spec_float) : Prop :=
  v = S754_infinity false \/
  exists m e, v = S754_finite false m e /\
              (2 ^ 52 <= Zpos m < 2 ^ 53)%Z /\ (k <= e)%Z.

(** A remainder modulo [2 * Math.PI]: a zero, or a finite number smaller in
    magnitude than [2 * Math.PI]. *)
Definition below_twoPi (z : spec_float) : Prop :=
  (exists s, z = S754_zero s) \/
  (exists s m f, z = S754_finite s m f /\ (emin <= f <= -50)%Z /\
                 (Zpos m < 7074237752028440 * 2 ^ (-50 - f))%Z).

(** A zero of either sign. *)
Definition signedZero (v : float) : Prop :=
  exists s, Prim2SF v = S754_zero s.

(** The value of a finite number in units of [2 ^ -1074], the spacing of
    the smallest binary64 numbers: every finite number is a whole number
    of them.  Zero for a number that is not finite. *)
Definition SFunits (v : spec_float) : Z :=
  match v with
  | S754_finite s m e => cond_Zopp s (Zpos m * 2 ^ (e + 1074))
  | _ => 0%Z
  end.

Definition units (v : float) : Z := SFunits (Prim2SF v).

(** The coin list of a state the page can be in: no coin, the one coin of
    a single flip, which [coin] refers to, or the eight of a divergence
    run; each coin constructed and stepped, with its position in the list
    as colour index. *)
Definition wellFormed (host : Host) (s : Sim) : Prop :=
  (length (chaosCoins s) = 0%nat \/ length (chaosCoins s) = 1%nat \/
   length (chaosCoins s) = 8%nat) /\
  (coin s = None \/ (coin s = Some 0%nat /\ length (chaosCoins s) = 1%nat)) /\
  (forall k c, nth_error (chaosCoins s) k = Some c ->
               reachable host c /\ colorIndex c = Z.of_nat k).

(** A coin whose vertical position is NaN and that has not settled. *)
Definition lost (c : Coin) : bool := is_nan (y c) && negb (isSettled c).

(** The flag [isSimulating] says that some coin has not settled. *)
Definition flagged (s : Sim) : Prop :=
  isSimulating s = negb (forallb isSettled (chaosCoins s)).

(** ** Test data: hosts, coins and frame times used to exercise the
    theorems *)

(** A host whose cosine and sine return the values at the default launch
    angle of 75 degrees. *)
Definition testHost : Host :=
  mkHost (fun _ => 0.25881904510252074) (fun _ => 0.9659258262890683).

(** The canvas of an 840 pixel wide container. *)
Definition world800 : World := canvasOf 840.

(** A coin at rest on the ground. *)
Definition restingCoin : Coin :=
  {| x := 5; y := 4.83; vx := 0; vy := 0; angle := 55.8;
     angularVelocity := 0; radius := 0.12; mass := 0.01;
     restitution := 0.6; drag := 0.005; wind := 0; isSettled := true;
     settleTimer := 0.51; trajectory := []; colorIndex := 0;
     result := Some Heads |}.

(** A coin lying on the ground, slow, that has not settled yet. *)
Definition slowCoin (timer : float) : Coin :=
  {| x := 5; y := 4.83; vx := 0.01; vy := -0.07; angle := 55.8;
     angularVelocity := 0.2; radius := 0.12; mass := 0.01;
     restitution := 0.6; drag := 0.005; wind := 0; isSettled := false;
     settleTimer := timer; trajectory := []; colorIndex := 0;
     result := None |}.

(** A coin at the top of a vertical flight: after gravity has acted for
    0.02 s its velocity is exactly zero. *)
Definition apexCoin : Coin :=
  {| x := 4; y := 2; vx := 0; vy := - (GRAVITY * 0.02); angle := 12;
     angularVelocity := 20; radius := 0.12; mass := 0.01;
     restitution := 0.6; drag := 0.005; wind := 0; isSettled := false;
     settleTimer := 0; trajectory := []; colorIndex := 0;
     result := None |}.

(** [n] frames 20 ms apart, after time [t]. *)
Fixpoint frameTimes (n : nat) (t : float) : list float :=
  match n with
  | O => []
  | S n' => (t + 20) :: frameTimes n' (t + 20)
  end.

(** The frames of flip [i] of a batch: 5 s of frames, starting 5 s after
    those of the flip before. *)
Definition testFrames (i : nat) : list float :=
  frameTimes 250 (5000 * num_of_Z (Z.of_nat i)).

(** The parameters with which the default coin is launched at rest. *)
Definition stillParams : Params.t :=
  Params.with_velocity default_params 0.

(** The default parameters with no spin. *)
Definition spinlessParams : Params.t :=
  Params.mk 1.5 5 0 75 0 0.6 0.005.

(** A launch from 2 m whose coin comes to rest just short of a quarter
    turn. *)
Definition edgeParams : Params.t :=
  Params.mk 2 5 0.6061284633825895 75 0 0.5 0.005.

(** The coin at the top of its flight, one frame later: its position and
    its velocity are NaN. *)
Definition lostCoin : Coin := update world800 apexCoin 0.02.

(** A flip launched at 1e200 m/s, after its first frame. *)
Definition hugeSim : Sim :=
  animate 20
    (flipOnce testHost
       (set_params (Params.with_velocity default_params 1e200)
          (initial 840 0))).

(** The options as the page loads them. *)
Definition defaultOptions : Options := mkOptions true false.

(** ** Tactics *)

(** The step is evaluated on a coin given by its fields, one stage at a
    time, deciding the tests of a stage before the next stage reads its
    result. *)
Ltac case_if :=
  match goal with
  | |- context [if ?b then _ else _] => destruct b eqn:?
  end.

Ltac stage_integrate :=
  cbv [update integrate
       set_x set_y set_vx set_vy set_angle set_angularVelocity set_isSettled
       set_settleTimer set_trajectory set_colorIndex set_result
       x y vx vy angle angularVelocity radius mass restitution drag wind
       isSettled settleTimer trajectory colorIndex result].

Ltac stage_ground :=
  cbv [groundCollision settleCheck determineResult
       set_x set_y set_vx set_vy set_angle set_angularVelocity set_isSettled
       set_settleTimer set_trajectory set_colorIndex set_result
       x y vx vy angle angularVelocity radius mass restitution drag wind
       isSettled settleTimer trajectory colorIndex result].

Ltac stage_left :=
  cbv [wallCollisions leftWall
       set_x set_y set_vx set_vy set_angle set_angularVelocity set_isSettled
       set_settleTimer set_trajectory set_colorIndex set_result
       x y vx vy angle angularVelocity radius mass restitution drag wind
       isSettled settleTimer trajectory colorIndex result].

Ltac stage_right :=
  cbv [rightWall
       set_x set_y set_vx set_vy set_angle set_angularVelocity set_isSettled
       set_settleTimer set_trajectory set_colorIndex set_result
       x y vx vy angle angularVelocity radius mass restitution drag wind
       isSettled settleTimer trajectory colorIndex result].

(** Close the cases: impossible tests contradict themselves, the others
    hold by evaluation. *)
Ltac finish_cases :=
  repeat match goal with
         | |- _ /\ _ => split
         | |- _ -> _ => let H := fresh in intro H; try discriminate H
         | |- _ = _ => reflexivity
         end.

Ltac step_cases :=
  stage_integrate; repeat case_if;
  stage_ground; repeat case_if;
  stage_left; repeat case_if;
  stage_right; repeat case_if.

(** Evaluate the run loop on a state given by its fields. *)
Ltac sim_eval :=
  cbv [animate showResult
       set_world set_coin set_isSimulating set_chaosCoins set_stats
       set_params set_lastTime
       world coin isSimulating chaosCoins stats params lastTime
       andb Nat.ltb Nat.leb length map forallb].

(** * Properties *)

(** ** Binary64 arithmetic

    The kernel's float operations are specified by functions on the decoded
    form of the numbers ([Prim2SF], [SFcompare], [SFsub], [SFmul], [SFdiv]).
    This module derives from that specification the facts about order,
    sign and magnitude that the run loop, the walls and the divergence run
    rely on. *)

Module Binary64.

(** NaN is the one value that decodes to [S754_nan]. *)
Lemma is_nan_spec (a : float) :
  is_nan a = true <-> Prim2SF a = S754_nan.
Proof.
  unfold is_nan. rewrite eqb_spec. unfold SFeqb.
  destruct (Prim2SF a) as [s| s| |s m e]; simpl.
  - split; discriminate.
  - destruct s; simpl; split; discriminate.
  - split; reflexivity.
  - destruct s; rewrite Z.compare_refl, Pos.compare_cont_refl;
      simpl; split; discriminate.
Qed.

(** Below implies at most. *)
Lemma ltb_leb (a b : float) : (a <? b)%float = true -> (a <=? b)%float = true.
Proof.
  rewrite ltb_spec, leb_spec. unfold SFltb, SFleb.
  destruct (SFcompare (Prim2SF a) (Prim2SF b)) as [[ | | ]|];
    intros H; try discriminate; reflexivity.
Qed.

(** A number that compares at most another is not NaN. *)
Lemma leb_not_nan (a b : float) : (a <=? b) = true -> is_nan a = false.
Proof.
  rewrite leb_spec. intros H.
  destruct (is_nan a) eqn:E; [|reflexivity].
  apply is_nan_spec in E. rewrite E in H. discriminate H.
Qed.

(** Two numbers that are not NaN compare one way or the other. *)
Lemma not_lt_not_gt_leb (a b : float) :
  is_nan a = false -> is_nan b = false ->
  (a <? b) = false -> (b <? a) = false -> (a <=? b) = true.
Proof.
  intros Ha Hb. rewrite !ltb_spec, leb_spec. unfold SFltb, SFleb.
  assert (Na : Prim2SF a <> S754_nan)
    by (intros E; apply is_nan_spec in E; congruence).
  assert (Nb : Prim2SF b <> S754_nan)
    by (intros E; apply is_nan_spec in E; congruence).
  destruct (Prim2SF a) as [sa| sa| |sa ma ea];
    destruct (Prim2SF b) as [sb| sb| |sb mb eb];
    try congruence; simpl;
    try (destruct sa); try (destruct sb); simpl; try discriminate;
    try reflexivity;
    rewrite !Pos.compare_cont_spec; simpl;
    destruct (Z.compare_spec ea eb); destruct (Z.compare_spec eb ea);
    try lia; simpl; try discriminate; try reflexivity;
    destruct (Pos.compare_spec ma mb); destruct (Pos.compare_spec mb ma);
    try lia; simpl; try discriminate; reflexivity.
Qed.

(** A number that is at most zero is below any positive finite one. *)
Lemma nonpos_ltb_pos (a c : float) :
  (a <=? 0) = true ->
  (exists m e, Prim2SF c = S754_finite false m e) ->
  (a <? c) = true.
Proof.
  intros H [m [e Hc]]. revert H.
  rewrite leb_spec, ltb_spec, Hc. unfold SFleb, SFltb.
  replace (Prim2SF 0) with (S754_zero false) by reflexivity.
  destruct (Prim2SF a) as [sa| sa| |sa ma ea]; simpl;
    try (destruct sa); simpl; intros H; try discriminate; reflexivity.
Qed.

Local Open Scope Z_scope.

(** A mantissa of [d] binary digits lies in [[2^(d-1), 2^d)]. *)
Lemma digits2_pos_bounds (p : positive) :
  2 ^ (Zpos (digits2_pos p) - 1) <= Zpos p < 2 ^ Zpos (digits2_pos p).
Proof.
  induction p as [p IH|p IH|]; simpl digits2_pos.
  - rewrite Pos2Z.inj_succ.
    replace (Z.succ (Zpos (digits2_pos p)) - 1)
      with (Z.succ (Zpos (digits2_pos p) - 1)) by lia.
    rewrite !Z.pow_succ_r by lia. lia.
  - rewrite Pos2Z.inj_succ.
    replace (Z.succ (Zpos (digits2_pos p)) - 1)
      with (Z.succ (Zpos (digits2_pos p) - 1)) by lia.
    rewrite !Z.pow_succ_r by lia. lia.
  - simpl. lia.
Qed.

(** Appending [d] zero bits multiplies by [2 ^ d]. *)
Lemma iter_xO_value (d m : positive) :
  Zpos (Pos.iter xO m d) = Zpos m * 2 ^ Zpos d.
Proof.
  induction d as [|d IH] using Pos.peano_ind.
  - simpl. lia.
  - rewrite Pos.iter_succ, Pos2Z.inj_succ, Z.pow_succ_r by lia.
    rewrite Pos2Z.inj_xO, IH. lia.
Qed.

(** Aligning a mantissa to a lower exponent keeps the value. *)
Lemma shl_align_value (m : positive) (e e' : Z) :
  e' <= e ->
  Zpos (fst (shl_align m e e')) = Zpos m * 2 ^ (e - e') /\
  snd (shl_align m e e') = e'.
Proof.
  intros H. unfold shl_align.
  destruct (e' - e) as [|d|d] eqn:E; cbn [fst snd].
  - replace (e - e') with 0 by lia. rewrite Z.pow_0_r. lia.
  - lia.
  - rewrite iter_xO_value. replace (e - e') with (Zpos d) by lia.
    split; reflexivity.
Qed.

(** One right shift halves the mantissa. *)
Lemma shr_1_m (mrs : shr_record) :
  0 <= shr_m mrs -> shr_m (shr_1 mrs) = shr_m mrs / 2.
Proof.
  destruct mrs as [m r s]. cbn [shr_m shr_1]. intros H.
  destruct m as [|[p|p|]|p]; cbn [shr_m]; try lia.
  - reflexivity.
  - apply Z.div_unique with (r := 1); lia.
  - apply Z.div_unique with (r := 0); lia.
  - reflexivity.
Qed.

(** [p] right shifts divide the mantissa by [2 ^ p]. *)
Lemma shr_iter_m (p : positive) (mrs : shr_record) :
  0 <= shr_m mrs ->
  shr_m (iter_pos shr_1 p mrs) = shr_m mrs / 2 ^ Zpos p.
Proof.
  revert mrs. induction p as [p IH|p IH|]; intros mrs H; simpl iter_pos.
  - assert (H1 : 0 <= shr_m (shr_1 mrs)).
    { rewrite shr_1_m by exact H. apply Z.div_pos; lia. }
    assert (H2 : 0 <= shr_m (iter_pos shr_1 p (shr_1 mrs))).
    { rewrite IH by exact H1. apply Z.div_pos; lia. }
    rewrite IH by exact H2. rewrite IH by exact H1. rewrite shr_1_m by exact H.
    rewrite !Z.div_div by lia. f_equal.
    replace (Zpos p~1) with (1 + Zpos p + Zpos p) by lia.
    rewrite !Z.pow_add_r by lia. change (2 ^ 1) with 2. ring.
  - assert (H2 : 0 <= shr_m (iter_pos shr_1 p mrs)).
    { rewrite IH by exact H. apply Z.div_pos; lia. }
    rewrite IH by exact H2. rewrite IH by exact H.
    rewrite !Z.div_div by lia. f_equal.
    replace (Zpos p~0) with (Zpos p + Zpos p) by lia.
    rewrite !Z.pow_add_r by lia. ring.
  - rewrite shr_1_m by exact H. reflexivity.
Qed.

(** The exponent of the smallest subnormal numbers. *)
Lemma emin_value : emin = -1074.
Proof. reflexivity. Qed.

(** What validity says of a finite number: its exponent is in range, its
    mantissa has at most [prec] digits, and exactly [prec] above [emin]. *)
Lemma valid_finite_bounds (s : bool) (m : positive) (e : Z) :
  valid_binary (S754_finite s m e) = true ->
  emin <= e <= emax - prec /\ Zpos (digits2_pos m) <= prec /\
  (emin < e -> Zpos (digits2_pos m) = prec).
Proof.
  unfold SpecFloat.valid_binary, bounded, canonical_mantissa, SpecFloat.fexp.
  rewrite emin_value. unfold prec, emax.
  intros H. apply andb_true_iff in H as [H1 H2].
  apply Z.eqb_eq in H1. apply Z.leb_le in H2. lia.
Qed.

(** The mantissa of a fresh shift record. *)
Lemma shr_record_of_loc_m (m : Z) (l : location) :
  shr_m (shr_record_of_loc m l) = m.
Proof. destruct l as [|[ | | ]]; reflexivity. Qed.

(** Shifting to the format's exponent never loses a positive mantissa whose
    exponent is not below [emin]. *)
Lemma shr_fexp_pos (m : positive) (e : Z) (l : location) :
  emin <= e ->
  0 < shr_m (fst (shr_fexp prec emax (Zpos m) e l)) /\
  emin <= snd (shr_fexp prec emax (Zpos m) e l).
Proof.
  intros He. unfold shr_fexp, shr, SpecFloat.fexp. cbn [Zdigits2].
  rewrite emin_value in *. unfold prec.
  pose proof (digits2_pos_bounds m) as [Hlo Hhi].
  destruct (Z.max (Zpos (digits2_pos m) + e - 53) (-1074) - e) as [|n|n] eqn:E;
    cbn [fst snd]; rewrite ?shr_record_of_loc_m; try lia.
  rewrite shr_iter_m by (rewrite shr_record_of_loc_m; lia).
  rewrite shr_record_of_loc_m.
  split; [|lia].
  assert (Hn : Zpos n <= Zpos (digits2_pos m) - 1) by lia.
  apply Z.div_str_pos. split; [apply Z.pow_pos_nonneg; lia|].
  apply Z.le_trans with (2 ^ (Zpos (digits2_pos m) - 1)); [|exact Hlo].
  apply Z.pow_le_mono_r; lia.
Qed.

(** Rounding a positive mantissa leaves it positive. *)
Lemma round_nearest_even_pos (m : Z) (l : location) :
  0 < m -> 0 < round_nearest_even m l.
Proof.
  intros H. destruct l as [|[ | | ]]; simpl; try lia.
  destruct (Z.even m); lia.
Qed.

(** Rounding a positive mantissa gives a number of the requested sign that
    is finite and not zero, or infinite. *)
Lemma binary_round_aux_sign (s : bool) (m : positive) (e : Z) :
  emin <= e ->
  (exists m' e', binary_round_aux prec emax s (Zpos m) e loc_Exact
                 = S754_finite s m' e') \/
  binary_round_aux prec emax s (Zpos m) e loc_Exact = S754_infinity s.
Proof.
  intros He. unfold binary_round_aux.
  pose proof (shr_fexp_pos m e loc_Exact He) as [H1 H1e].
  destruct (shr_fexp prec emax (Zpos m) e loc_Exact) as [mrs1 e1].
  cbn [fst snd] in H1, H1e.
  pose proof (round_nearest_even_pos (shr_m mrs1) (loc_of_shr_record mrs1) H1)
    as H2.
  destruct (round_nearest_even (shr_m mrs1) (loc_of_shr_record mrs1))
    as [|m2|m2]; try lia.
  pose proof (shr_fexp_pos m2 e1 loc_Exact H1e) as [H3 _].
  destruct (shr_fexp prec emax (Zpos m2) e1 loc_Exact) as [mrs2 e2].
  cbn [fst] in H3.
  destruct (shr_m mrs2) as [|m3|m3]; try lia.
  destruct (e2 <=? emax - prec); [left; eauto|right; reflexivity].
Qed.

(** The same for [binary_round], which aligns before it rounds. *)
Lemma binary_round_sign (s : bool) (m : positive) (e : Z) :
  emin <= e ->
  (exists m' e', binary_round prec emax s m e = S754_finite s m' e') \/
  binary_round prec emax s m e = S754_infinity s.
Proof.
  intros He. unfold binary_round.
  destruct (shl_align m e (SpecFloat.fexp prec emax (Zpos (digits2_pos m) + e)))
    as [mz ez] eqn:E.
  apply binary_round_aux_sign.
  unfold shl_align in E.
  destruct (SpecFloat.fexp prec emax (Zpos (digits2_pos m) + e) - e) eqn:E';
    inversion E; subst; try exact He.
  unfold SpecFloat.fexp. lia.
Qed.

(** The mantissa of a valid number is below [2 ^ prec]. *)
Lemma finite_mantissa_lt (m : positive) (e : Z) (s : bool) :
  valid_binary (S754_finite s m e) = true -> Zpos m < 2 ^ prec.
Proof.
  intros H. apply valid_finite_bounds in H as (_ & Hd & _).
  pose proof (digits2_pos_bounds m) as [_ Hhi].
  apply Z.lt_le_trans with (1 := Hhi). apply Z.pow_le_mono_r; lia.
Qed.

(** Above [emin] a valid number is normal. *)
Lemma normal_mantissa_ge (m : positive) (e : Z) (s : bool) :
  valid_binary (S754_finite s m e) = true -> emin < e ->
  2 ^ (prec - 1) <= Zpos m.
Proof.
  intros H He. apply valid_finite_bounds in H as (_ & _ & Hd).
  pose proof (digits2_pos_bounds m) as [Hlo _].
  rewrite (Hd He) in Hlo. exact Hlo.
Qed.

(** Aligned mantissas compare like the exponent-mantissa pairs. *)
Lemma aligned_lt (m1 m2 : positive) (e1 e2 : Z) (s1 s2 : bool) :
  valid_binary (S754_finite s1 m1 e1) = true ->
  valid_binary (S754_finite s2 m2 e2) = true ->
  (e1 < e2 \/ (e1 = e2 /\ (m1 < m2)%positive)) ->
  Zpos (fst (shl_align m1 e1 (Z.min e1 e2)))
  < Zpos (fst (shl_align m2 e2 (Z.min e1 e2))).
Proof.
  intros V1 V2 H.
  destruct (shl_align_value m1 e1 (Z.min e1 e2)) as [E1 _]; [lia|].
  destruct (shl_align_value m2 e2 (Z.min e1 e2)) as [E2 _]; [lia|].
  rewrite E1, E2.
  destruct H as [H|[H Hm]].
  - replace (Z.min e1 e2) with e1 by lia.
    replace (e1 - e1) with 0 by lia. rewrite Z.pow_0_r, Z.mul_1_r.
    pose proof (finite_mantissa_lt m1 e1 s1 V1) as B1.
    assert (He2 : emin < e2).
    { apply valid_finite_bounds in V1. lia. }
    pose proof (normal_mantissa_ge m2 e2 s2 V2 He2) as B2.
    assert (P : 2 ^ 1 <= 2 ^ (e2 - e1)) by (apply Z.pow_le_mono_r; lia).
    change (2 ^ 1) with 2 in P. unfold prec in *.
    change (2 ^ (53 - 1)) with 4503599627370496 in B2.
    change (2 ^ 53) with 9007199254740992 in B1.
    nia.
  - subst e2. rewrite Z.min_id.
    replace (e1 - e1) with 0 by lia. rewrite Z.pow_0_r. lia.
Qed.

(** A number of negative sign that is not a zero is below zero. *)
Lemma negative_ltb_zero (r : spec_float) :
  (exists m e, r = S754_finite true m e) \/ r = S754_infinity true ->
  SFltb r (S754_zero false) = true.
Proof. intros [[m [e H]]|H]; subst r; reflexivity. Qed.

(** If [x] is below [y], the computed difference [x - y] is below zero:
    subtraction does not underflow to zero. *)
Lemma SFsub_lt_neg (a b : spec_float) :
  valid_binary a = true -> valid_binary b = true ->
  SFcompare a b = Some Lt ->
  SFltb (SFsub prec emax a b) (S754_zero false) = true.
Proof.
  intros Va Vb H.
  destruct a as [sa|sa| |sa ma ea]; destruct b as [sb|sb| |sb mb eb];
    try discriminate H;
    try (destruct sa; destruct sb; try discriminate H; reflexivity);
    try (destruct sa; try discriminate H; reflexivity);
    try (destruct sb; try discriminate H; reflexivity).
  unfold SFsub. apply negative_ltb_zero.
  pose proof (valid_finite_bounds sa ma ea Va) as (Ba & _).
  pose proof (valid_finite_bounds sb mb eb Vb) as (Bb & _).
  set (za := Zpos (fst (shl_align ma ea (Z.min ea eb)))).
  set (zb := Zpos (fst (shl_align mb eb (Z.min ea eb)))).
  assert (Hd : cond_Zopp sa za - cond_Zopp sb zb < 0).
  { assert (Hza : 0 < za) by (unfold za; lia).
    assert (Hzb : 0 < zb) by (unfold zb; lia).
    simpl in H. rewrite !Pos.compare_cont_spec in H. simpl in H.
    destruct sa, sb; try discriminate H.
    - assert (L : zb < za).
      { unfold za, zb. rewrite (Z.min_comm ea eb).
        apply (aligned_lt mb ma eb ea true true Vb Va).
        destruct (Z.compare_spec ea eb); try discriminate H; try lia.
        right. split; [lia|].
        destruct (Pos.compare_spec ma mb); simpl in H;
          try discriminate H; assumption. }
      clearbody za zb. unfold cond_Zopp. lia.
    - clearbody za zb. unfold cond_Zopp. lia.
    - assert (L : za < zb).
      { apply (aligned_lt ma mb ea eb false false Va Vb).
        destruct (Z.compare_spec ea eb); try discriminate H; try lia.
        right. split; [lia|].
        destruct (Pos.compare_spec ma mb); simpl in H;
          try discriminate H; assumption. }
      clearbody za zb. unfold cond_Zopp. lia. }
  destruct (cond_Zopp sa za - cond_Zopp sb zb) as [|d|d]; try lia.
  unfold binary_normalize.
  apply binary_round_sign. lia.
Qed.

(** The float-level form: if [a < b] then [a - b < 0]. *)
Lemma ltb_sub_neg (a b : float) :
  (a <? b)%float = true -> (a - b <? 0)%float = true.
Proof.
  rewrite !ltb_spec, sub_spec. intros H.
  change (Prim2SF 0) with (S754_zero false).
  apply SFsub_lt_neg; try apply Prim2SF_valid.
  unfold SFltb in H.
  destruct (SFcompare (Prim2SF a) (Prim2SF b)) as [[ | | ]|];
    try discriminate H; reflexivity.
Qed.

(** The number of digits is determined by the binade. *)
Lemma digits2_pos_unique (p : positive) (k : Z) :
  1 <= k -> 2 ^ (k - 1) <= Zpos p < 2 ^ k -> Zpos (digits2_pos p) = k.
Proof.
  intros Hk [Hlo Hhi].
  pose proof (digits2_pos_bounds p) as [Dlo Dhi].
  destruct (Z.lt_trichotomy (Zpos (digits2_pos p)) k) as [L|[E|G]];
    [|exact E|].
  - assert (2 ^ Zpos (digits2_pos p) <= 2 ^ (k - 1))
      by (apply Z.pow_le_mono_r; lia).
    lia.
  - assert (2 ^ k <= 2 ^ (Zpos (digits2_pos p) - 1))
      by (apply Z.pow_le_mono_r; lia).
    lia.
Qed.

(** The first shift of a rounding, for a mantissa of at least [prec] digits
    whose result is in the normal range: it drops [digits - prec] digits. *)
Lemma shr_fexp_normal (p : positive) (E : Z) (l : location) :
  let n := Zpos (digits2_pos p) - prec in
  0 <= n -> emin <= E + n ->
  shr_m (fst (shr_fexp prec emax (Zpos p) E l)) = Zpos p / 2 ^ n /\
  snd (shr_fexp prec emax (Zpos p) E l) = E + n.
Proof.
  cbv zeta. intros Hn He.
  unfold shr_fexp, shr, SpecFloat.fexp. cbn [Zdigits2].
  rewrite emin_value in *. unfold prec in *.
  replace (Z.max (Zpos (digits2_pos p) + E - 53) (-1074) - E)
    with (Zpos (digits2_pos p) - 53) by lia.
  destruct (Zpos (digits2_pos p) - 53) as [|q|q] eqn:En; try lia;
    cbn [fst snd]; rewrite ?shr_record_of_loc_m.
  - rewrite Z.pow_0_r, Z.div_1_r. lia.
  - rewrite shr_iter_m by (rewrite shr_record_of_loc_m; lia).
    rewrite shr_record_of_loc_m. lia.
Qed.

(** Rounding to nearest adds at most one to the mantissa. *)
Lemma round_nearest_even_bounds (m : Z) (l : location) :
  m <= round_nearest_even m l <= m + 1.
Proof.
  destruct l as [|[ | | ]]; simpl; try lia.
  destruct (Z.even m); lia.
Qed.

(** Rounding in the normal range: the result is a normal number within
    [2 ^ n] of the exact mantissa, [n] being the number of digits dropped. *)
Lemma binary_round_aux_normal (s : bool) (p : positive) (E : Z) (l : location) :
  let n := Zpos (digits2_pos p) - prec in
  0 <= n -> emin <= E + n ->
  exists m' e',
    binary_round_aux prec emax s (Zpos p) E l
    = (if e' <=? emax - prec then S754_finite s m' e' else S754_infinity s) /\
    2 ^ (prec - 1) <= Zpos m' < 2 ^ prec /\
    E + n <= e' <= E + n + 1 /\
    Zpos p - 2 ^ n <= Zpos m' * 2 ^ (e' - E) <= Zpos p + 2 ^ n.
Proof.
  cbv zeta. intros Hn He.
  set (n := Zpos (digits2_pos p) - prec) in *.
  pose proof (digits2_pos_bounds p) as [Plo Phi].
  assert (Hpow : 0 < 2 ^ n) by (apply Z.pow_pos_nonneg; lia).
  assert (Hd : Zpos (digits2_pos p) = n + prec) by (unfold n; lia).
  (* the mantissa after the first shift *)
  assert (M1 : 2 ^ (prec - 1) <= Zpos p / 2 ^ n < 2 ^ prec).
  { split.
    - apply Z.div_le_lower_bound; [exact Hpow|].
      rewrite <- Z.pow_add_r by (unfold prec; lia).
      replace (n + (prec - 1)) with (Zpos (digits2_pos p) - 1) by lia.
      exact Plo.
    - apply Z.div_lt_upper_bound; [exact Hpow|].
      rewrite <- Z.pow_add_r by (unfold prec; lia).
      replace (n + prec) with (Zpos (digits2_pos p)) by lia. exact Phi. }
  assert (V1 : Zpos p / 2 ^ n * 2 ^ n <= Zpos p
               < (Zpos p / 2 ^ n + 1) * 2 ^ n).
  { pose proof (Z.div_mod (Zpos p) (2 ^ n)) as Dm.
    pose proof (Z.mod_pos_bound (Zpos p) (2 ^ n) Hpow) as Mb. nia. }
  unfold binary_round_aux.
  destruct (shr_fexp_normal p E l Hn He) as [S1 S1e].
  destruct (shr_fexp prec emax (Zpos p) E l) as [mrs1 e1].
  cbn [fst snd] in S1, S1e.
  pose proof (round_nearest_even_bounds (shr_m mrs1) (loc_of_shr_record mrs1))
    as R.
  fold n in S1, S1e.
  change (2 ^ (prec - 1)) with 4503599627370496 in *.
  change (2 ^ prec) with 9007199254740992 in *.
  destruct (round_nearest_even (shr_m mrs1) (loc_of_shr_record mrs1))
    as [|m2|m2] eqn:Em2; rewrite S1 in R; [lia| |lia].
  destruct (Z.eq_dec (Zpos m2) 9007199254740992) as [Hc|Hc].
  - (* the mantissa carried into one more digit *)
    assert (D2 : Zpos (digits2_pos m2) = 54).
    { apply digits2_pos_unique; [lia|]. rewrite Hc.
      change (2 ^ (54 - 1)) with 9007199254740992.
      change (2 ^ 54) with 18014398509481984. lia. }
    destruct (shr_fexp_normal m2 e1 loc_Exact) as [S2 S2e];
      [unfold prec; lia|rewrite emin_value in *; unfold prec; lia|].
    destruct (shr_fexp prec emax (Zpos m2) e1 loc_Exact) as [mrs2 e2].
    cbn [fst snd] in S2, S2e. rewrite D2 in S2, S2e. unfold prec in S2, S2e.
    rewrite Hc in S2. change (9007199254740992 / 2 ^ (54 - 53))
      with 4503599627370496 in S2.
    rewrite S2.
    eexists. eexists. split; [reflexivity|].
    split; [lia|]. split; [lia|].
    replace (e2 - E) with (1 + n) by lia.
    rewrite Z.pow_add_r by lia. change (2 ^ 1) with 2. nia.
  - assert (D2 : Zpos (digits2_pos m2) = 53).
    { apply digits2_pos_unique; [lia|].
      change (2 ^ (53 - 1)) with 4503599627370496.
      change (2 ^ 53) with 9007199254740992. lia. }
    destruct (shr_fexp_normal m2 e1 loc_Exact) as [S2 S2e];
      [unfold prec; lia|rewrite emin_value in *; unfold prec; lia|].
    destruct (shr_fexp prec emax (Zpos m2) e1 loc_Exact) as [mrs2 e2].
    cbn [fst snd] in S2, S2e. rewrite D2 in S2, S2e. unfold prec in S2, S2e.
    change (2 ^ (53 - 53)) with 1 in S2. rewrite Z.div_1_r in S2.
    rewrite S2.
    eexists. eexists. split; [reflexivity|].
    split; [lia|]. split; [lia|].
    replace (e2 - E) with n by lia. nia.
Qed.

(** Bounds on a mantissa bound its number of digits. *)
Lemma digits2_pos_range (p : positive) (lo hi : Z) :
  0 <= lo -> 2 ^ lo <= Zpos p < 2 ^ hi -> lo < Zpos (digits2_pos p) <= hi.
Proof.
  intros Hlo [L H].
  pose proof (digits2_pos_bounds p) as [Dlo Dhi].
  split.
  - destruct (Z_lt_le_dec lo (Zpos (digits2_pos p))) as [|G]; [assumption|].
    assert (2 ^ Zpos (digits2_pos p) <= 2 ^ lo)
      by (apply Z.pow_le_mono_r; lia).
    lia.
  - destruct (Z_le_gt_dec (Zpos (digits2_pos p)) hi) as [|G]; [assumption|].
    assert (0 <= hi).
    { destruct (Z_le_gt_dec 0 hi); [assumption|].
      rewrite Z.pow_neg_r in H by lia. lia. }
    assert (2 ^ hi <= 2 ^ (Zpos (digits2_pos p) - 1))
      by (apply Z.pow_le_mono_r; lia).
    lia.
Qed.

(** Normal numbers compare by exponent, then by mantissa. *)
Lemma lex_of_value (m1 m2 e1 e2 B : Z) :
  B <= e1 -> B <= e2 ->
  2 ^ 52 <= m1 < 2 ^ 53 -> 2 ^ 52 <= m2 < 2 ^ 53 ->
  m1 * 2 ^ (e1 - B) < m2 * 2 ^ (e2 - B) ->
  e1 < e2 \/ (e1 = e2 /\ m1 < m2).
Proof.
  intros B1 B2 M1 M2 H.
  change (2 ^ 52) with 4503599627370496 in *.
  change (2 ^ 53) with 9007199254740992 in *.
  assert (P2 : 0 < 2 ^ (e2 - B)) by (apply Z.pow_pos_nonneg; lia).
  destruct (Z.lt_trichotomy e1 e2) as [L|[E|G]]; [left; exact L| |].
  - right. split; [exact E|]. subst e2. nia.
  - exfalso.
    replace (e1 - B) with ((e1 - e2) + (e2 - B)) in H by lia.
    rewrite Z.pow_add_r in H by lia.
    assert (X : 2 ^ 1 <= 2 ^ (e1 - e2)) by (apply Z.pow_le_mono_r; lia).
    change (2 ^ 1) with 2 in X.
    assert (A1 : 9007199254740992 <= m1 * 2 ^ (e1 - e2)) by nia.
    assert (A2 : 9007199254740992 * 2 ^ (e2 - B)
                 <= m1 * 2 ^ (e1 - e2) * 2 ^ (e2 - B))
      by (apply Z.mul_le_mono_nonneg_r; lia).
    assert (A3 : m2 * 2 ^ (e2 - B) < 9007199254740992 * 2 ^ (e2 - B))
      by (apply Z.mul_lt_mono_pos_r; lia).
    rewrite Z.mul_assoc in H. lia.
Qed.

(** Multiplying a normal positive number by two normal positive factors
    more than a few units in the last place apart, with no overflow or
    underflow, gives products in the same strict order. *)
Lemma SFmul_lt (mx ma mb : positive) (ex ea eb : Z) :
  2 ^ 52 <= Zpos mx < 2 ^ 53 ->
  2 ^ 52 <= Zpos ma < 2 ^ 53 ->
  2 ^ 52 <= Zpos mb < 2 ^ 53 ->
  emin <= ex + ea + 52 -> ex + ea + 54 <= emax - prec ->
  emin <= ex + eb + 52 -> ex + eb + 54 <= emax - prec ->
  (Zpos ma + 2) * 2 ^ (ea - Z.min ea eb)
    < (Zpos mb - 2) * 2 ^ (eb - Z.min ea eb) ->
  SFltb (SFmul prec emax (S754_finite false mx ex) (S754_finite false ma ea))
        (SFmul prec emax (S754_finite false mx ex) (S754_finite false mb eb))
  = true.
Proof.
  intros Mx Ma Mb La Ha Lb Hb Gap.
  change (2 ^ 52) with 4503599627370496 in *.
  change (2 ^ 53) with 9007199254740992 in *.
  cbn [SFmul xorb].
  (* the two exact products *)
  assert (Pa : 2 ^ 104 <= Zpos (mx * ma) < 2 ^ 106).
  { rewrite Pos2Z.inj_mul.
    change (2 ^ 104) with (4503599627370496 * 4503599627370496).
    change (2 ^ 106) with (9007199254740992 * 9007199254740992). nia. }
  assert (Pb : 2 ^ 104 <= Zpos (mx * mb) < 2 ^ 106).
  { rewrite Pos2Z.inj_mul.
    change (2 ^ 104) with (4503599627370496 * 4503599627370496).
    change (2 ^ 106) with (9007199254740992 * 9007199254740992). nia. }
  pose proof (digits2_pos_range _ 104 106 ltac:(lia) Pa) as Da.
  pose proof (digits2_pos_range _ 104 106 ltac:(lia) Pb) as Db.
  destruct (binary_round_aux_normal false (mx * ma) (ex + ea) loc_Exact)
    as (m1 & e1 & R1 & N1 & E1 & V1);
    try (rewrite emin_value in *; unfold prec, emax in *; lia).
  destruct (binary_round_aux_normal false (mx * mb) (ex + eb) loc_Exact)
    as (m2 & e2 & R2 & N2 & E2 & V2);
    try (rewrite emin_value in *; unfold prec, emax in *; lia).
  rewrite R1, R2. clear R1 R2.
  replace (e1 <=? emax - prec) with true
    by (symmetry; apply Z.leb_le; unfold prec, emax in *; lia).
  replace (e2 <=? emax - prec) with true
    by (symmetry; apply Z.leb_le; unfold prec, emax in *; lia).
  rewrite emin_value in *. unfold prec, emax in *.
  set (na := Zpos (digits2_pos (mx * ma)) - 53) in *.
  set (nb := Zpos (digits2_pos (mx * mb)) - 53) in *.
  change (2 ^ (53 - 1)) with 4503599627370496 in *.
  change (2 ^ 53) with 9007199254740992 in *.
  rewrite Pos2Z.inj_mul in V1, V2.
  set (e0 := Z.min ea eb) in *.
  set (B := ex + e0).
  assert (Hna : 2 ^ na <= 2 * Zpos mx).
  { assert (2 ^ na <= 2 ^ 53) by (apply Z.pow_le_mono_r; lia).
    change (2 ^ 53) with 9007199254740992 in *. lia. }
  assert (Hnb : 2 ^ nb <= 2 * Zpos mx).
  { assert (2 ^ nb <= 2 ^ 53) by (apply Z.pow_le_mono_r; lia).
    change (2 ^ 53) with 9007199254740992 in *. lia. }
  assert (Ua : 0 < 2 ^ (ea - e0)) by (apply Z.pow_pos_nonneg; lia).
  assert (Ub : 0 < 2 ^ (eb - e0)) by (apply Z.pow_pos_nonneg; lia).
  assert (W1 : Zpos m1 * 2 ^ (e1 - B)
               <= Zpos mx * (Zpos ma + 2) * 2 ^ (ea - e0)).
  { replace (e1 - B) with ((e1 - (ex + ea)) + (ea - e0)) by (unfold B; lia).
    rewrite Z.pow_add_r, Z.mul_assoc by lia.
    apply Z.mul_le_mono_nonneg_r; [lia|].
    replace (Zpos mx * (Zpos ma + 2)) with (Zpos mx * Zpos ma + 2 * Zpos mx)
      by ring.
    lia. }
  assert (W2 : Zpos mx * (Zpos mb - 2) * 2 ^ (eb - e0)
               <= Zpos m2 * 2 ^ (e2 - B)).
  { replace (e2 - B) with ((e2 - (ex + eb)) + (eb - e0)) by (unfold B; lia).
    rewrite Z.pow_add_r, Z.mul_assoc by lia.
    apply Z.mul_le_mono_nonneg_r; [lia|].
    replace (Zpos mx * (Zpos mb - 2)) with (Zpos mx * Zpos mb - 2 * Zpos mx)
      by ring.
    lia. }
  assert (W : Zpos m1 * 2 ^ (e1 - B) < Zpos m2 * 2 ^ (e2 - B)).
  { apply Z.le_lt_trans with (1 := W1).
    apply Z.lt_le_trans with (2 := W2).
    rewrite <- !Z.mul_assoc. apply Z.mul_lt_mono_pos_l; [lia|exact Gap]. }
  clear W1 W2 V1 V2 Gap.
  destruct (lex_of_value (Zpos m1) (Zpos m2) e1 e2 B) as [L|[L1 L2]];
    try assumption; try lia.
  - unfold SFltb, SFcompare.
    rewrite (proj2 (Z.compare_lt_iff e1 e2) L). reflexivity.
  - unfold SFltb, SFcompare. subst e2.
    rewrite Z.compare_refl, Pos.compare_cont_spec. simpl.
    rewrite (proj2 (Pos.compare_lt_iff m1 m2)) by lia. reflexivity.
Qed.

(** A mantissa of at least [2 ^ j] has more than [j] digits. *)
Lemma digits2_pos_gt (p : positive) (j : Z) :
  0 <= j -> 2 ^ j <= Zpos p -> j < Zpos (digits2_pos p).
Proof.
  intros Hj L.
  pose proof (digits2_pos_bounds p) as [_ Dhi].
  destruct (Z_lt_le_dec j (Zpos (digits2_pos p))) as [|G]; [assumption|].
  assert (2 ^ Zpos (digits2_pos p) <= 2 ^ j) by (apply Z.pow_le_mono_r; lia).
  lia.
Qed.

(** A rounded normal result is [at_least] its lowest possible exponent. *)
Lemma binary_round_aux_at_least (p : positive) (E k : Z) (l : location) :
  let n := Zpos (digits2_pos p) - prec in
  0 <= n -> emin <= E + n -> k <= E + n ->
  at_least k (binary_round_aux prec emax false (Zpos p) E l).
Proof.
  cbv zeta. intros Hn He Hk.
  destruct (binary_round_aux_normal false p E l Hn He)
    as (m' & e' & R & N & Ee & _).
  rewrite R. destruct (e' <=? emax - prec); [right|left; reflexivity].
  exists m', e'. split; [reflexivity|]. split; [exact N|lia].
Qed.

(** A number not below a normal positive one is [at_least] its exponent. *)
Lemma leb_at_least (c r : float) (mc : positive) (ec : Z) :
  Prim2SF c = S754_finite false mc ec -> emin < ec ->
  (c <=? r)%float = true -> at_least ec (Prim2SF r).
Proof.
  intros Hc Hec. rewrite leb_spec, Hc.
  pose proof (Prim2SF_valid r) as V.
  destruct (Prim2SF r) as [sr|sr| |sr mr er]; unfold SFleb; simpl;
    try discriminate; try (destruct sr; try discriminate).
  - intros _. left. reflexivity.
  - intros H. right. exists mr, er. split; [reflexivity|].
    assert (Her : ec <= er).
    { destruct (Z.compare_spec ec er); try discriminate H; lia. }
    split; [|exact Her].
    pose proof (finite_mantissa_lt mr er false V).
    pose proof (normal_mantissa_ge mr er false V ltac:(lia)).
    unfold prec in *. change (53 - 1) with 52 in *. lia.
Qed.

(** Dividing a number that is [at_least k] by a normal positive one. *)
Lemma SFdiv_at_least (x : spec_float) (md : positive) (ed k : Z) :
  at_least k x -> 2 ^ 52 <= Zpos md < 2 ^ 53 -> emin <= k - ed - 53 ->
  at_least (k - ed - 53) (SFdiv prec emax x (S754_finite false md ed)).
Proof.
  intros [Hx|(mx & ex & Hx & Mx & Kx)] Md Hk; subst x;
    [left; reflexivity|].
  cbn [SFdiv xorb]. unfold SFdiv_core_binary. cbn [Zdigits2].
  rewrite (digits2_pos_unique mx 53) by (change (53 - 1) with 52; lia).
  rewrite (digits2_pos_unique md 53) by (change (53 - 1) with 52; lia).
  unfold SpecFloat.fexp. rewrite emin_value in *. unfold prec.
  replace (Z.min (Z.max (53 + ex - (53 + ed) - 53) (-1074)) (ex - ed))
    with (ex - ed - 53) by lia.
  replace (ex - ed - (ex - ed - 53)) with 53 by lia.
  rewrite Z.shiftl_mul_pow2 by lia.
  change (2 ^ 52) with 4503599627370496 in *.
  change (2 ^ 53) with 9007199254740992 in *.
  pose proof (Z.div_mod (Zpos mx * 9007199254740992) (Zpos md)
                ltac:(lia)) as Dm.
  pose proof (Z.mod_pos_bound (Zpos mx * 9007199254740992) (Zpos md)
                ltac:(lia)) as Mb.
  unfold Z.div, Z.modulo in Dm, Mb.
  destruct (Z.div_eucl (Zpos mx * 9007199254740992) (Zpos md)) as [q r].
  assert (Hq : 4503599627370496 <= q) by nia.
  destruct q as [|q|q]; try lia.
  apply binary_round_aux_at_least.
  - pose proof (digits2_pos_gt q 52 ltac:(lia)
                  ltac:(change (2 ^ 52) with 4503599627370496; lia)).
    unfold prec; lia.
  - pose proof (digits2_pos_gt q 52 ltac:(lia)
                  ltac:(change (2 ^ 52) with 4503599627370496; lia)).
    rewrite emin_value. unfold prec; lia.
  - pose proof (digits2_pos_gt q 52 ltac:(lia)
                  ltac:(change (2 ^ 52) with 4503599627370496; lia)).
    unfold prec; lia.
Qed.

(** Subtracting a smaller positive number, at least two binades below. *)
Lemma SFsub_at_least (x : spec_float) (my : positive) (ey k : Z) :
  at_least k x -> valid_binary (S754_finite false my ey) = true ->
  ey + 2 <= k ->
  at_least (k - 1) (SFsub prec emax x (S754_finite false my ey)).
Proof.
  intros [Hx|(mx & ex & Hx & Mx & Kx)] Vy Hk; subst x;
    [left; reflexivity|].
  pose proof (finite_mantissa_lt my ey false Vy) as My.
  pose proof (valid_finite_bounds false my ey Vy) as (Ey & _).
  rewrite emin_value in *. unfold prec, emax in *.
  change (2 ^ 52) with 4503599627370496 in *.
  change (2 ^ 53) with 9007199254740992 in *.
  cbn [SFsub cond_Zopp].
  replace (Z.min ex ey) with ey by lia.
  destruct (shl_align_value mx ex ey ltac:(lia)) as [Za _].
  destruct (shl_align_value my ey ey ltac:(lia)) as [Zb _].
  rewrite Za, Zb. replace (ey - ey) with 0 by lia.
  rewrite Z.pow_0_r, Z.mul_1_r.
  assert (P : 2 ^ 2 <= 2 ^ (ex - ey)) by (apply Z.pow_le_mono_r; lia).
  change (2 ^ 2) with 4 in P.
  assert (Hhalf : Zpos mx * 2 ^ (ex - ey) - Zpos my
                  >= 2 ^ 51 * 2 ^ (ex - ey)).
  { change (2 ^ 51) with 2251799813685248. nia. }
  rewrite <- Z.pow_add_r in Hhalf by lia.
  destruct (Zpos mx * 2 ^ (ex - ey) - Zpos my) as [|d|d] eqn:Ed;
    [assert (0 < 2 ^ (51 + (ex - ey))) by (apply Z.pow_pos_nonneg; lia); lia
    | |assert (0 < 2 ^ (51 + (ex - ey))) by (apply Z.pow_pos_nonneg; lia); lia].
  pose proof (digits2_pos_gt d (51 + (ex - ey)) ltac:(lia) ltac:(lia)) as Dd.
  unfold binary_normalize, binary_round, shl_align, SpecFloat.fexp.
  change (SpecFloat.emin 53 1024) with (-1074).
  destruct (Z.max (Zpos (digits2_pos d) + ey - 53) (-1074) - ey)
    as [|u|u] eqn:Eu; try lia.
  apply binary_round_aux_at_least; rewrite ?emin_value; unfold prec; lia.
Qed.

(** A number that is [at_least k] is not below one of lower exponent, nor
    below zero. *)
Lemma at_least_not_ltb (x : spec_float) (my : positive) (ey k : Z) :
  at_least k x -> ey < k ->
  SFltb x (S754_finite false my ey) = false.
Proof.
  intros [Hx|(mx & ex & Hx & _ & Kx)] Hk; subst x; [reflexivity|].
  unfold SFltb, SFcompare.
  rewrite (proj2 (Z.compare_gt_iff ex ey)) by lia. reflexivity.
Qed.

Lemma at_least_not_neg (x : spec_float) (k : Z) (s : bool) :
  at_least k x -> SFltb x (S754_zero s) = false.
Proof.
  intros [Hx|(mx & ex & Hx & _)]; subst x; reflexivity.
Qed.

(** A mantissa below [2 ^ k] has at most [k] digits. *)
Lemma digits2_pos_le (p : positive) (k : Z) :
  0 <= k -> Zpos p < 2 ^ k -> Zpos (digits2_pos p) <= k.
Proof.
  intros Hk H.
  apply (digits2_pos_range p 0 k); [lia|]. split; [simpl; lia|exact H].
Qed.

(** Appending zero bits adds as many digits. *)
Lemma digits2_pos_iter_xO (m d : positive) :
  Zpos (digits2_pos (Pos.iter xO m d)) = Zpos (digits2_pos m) + Zpos d.
Proof.
  pose proof (digits2_pos_bounds m) as [Lo Hi].
  apply digits2_pos_unique; [lia|].
  rewrite iter_xO_value.
  replace (Zpos (digits2_pos m) + Zpos d - 1)
    with ((Zpos (digits2_pos m) - 1) + Zpos d) by lia.
  rewrite !Z.pow_add_r by lia.
  assert (0 < 2 ^ Zpos d) by (apply Z.pow_pos_nonneg; lia).
  split; [apply Z.mul_le_mono_nonneg_r; lia|apply Z.mul_lt_mono_pos_r; lia].
Qed.

(** A mantissa of at most [prec] digits with an exponent in range is
    represented exactly: rounding only brings it to canonical form. *)
Lemma binary_round_exact (s : bool) (r : positive) (e : Z) :
  Zpos (digits2_pos r) <= prec -> emin <= e <= emax - prec ->
  exists mz f,
    binary_round prec emax s r e = S754_finite s mz f /\
    valid_binary (S754_finite s mz f) = true /\
    emin <= f <= e /\ Zpos mz = Zpos r * 2 ^ (e - f).
Proof.
  intros Hd He. rewrite emin_value in *. unfold prec, emax in *.
  unfold binary_round.
  remember (SpecFloat.fexp 53 1024 (Zpos (digits2_pos r) + e)) as f eqn:Hf0.
  assert (Hf : f = Z.max (Zpos (digits2_pos r) + e - 53) (-1074))
    by (rewrite Hf0; reflexivity).
  assert (Hfe : -1074 <= f <= e) by lia.
  destruct (shl_align_value r e f ltac:(lia)) as [Hv He'].
  destruct (shl_align r e f) as [mz ez] eqn:Es. cbn [fst snd] in Hv, He'.
  subst ez.
  assert (Hdz : Zpos (digits2_pos mz) = Zpos (digits2_pos r) + (e - f)).
  { unfold shl_align in Es. destruct (f - e) as [|u|u] eqn:Eu.
    - inversion Es; subst. lia.
    - lia.
    - inversion Es; subst. rewrite digits2_pos_iter_xO. lia. }
  assert (Hc : SpecFloat.fexp 53 1024 (Zpos (digits2_pos mz) + f) = f).
  { rewrite Hdz. replace (Zpos (digits2_pos r) + (e - f) + f)
      with (Zpos (digits2_pos r) + e) by lia. symmetry. exact Hf0. }
  exists mz, f.
  split; [|split; [|split; [lia|exact Hv]]].
  - unfold binary_round_aux, shr_fexp. cbn [Zdigits2].
    rewrite Hc, Z.sub_diag. cbn [shr shr_record_of_loc loc_of_shr_record
                                  round_nearest_even shr_m].
    cbn [Zdigits2]. rewrite Hc, Z.sub_diag. cbn [shr shr_record_of_loc shr_m].
    replace (f <=? 1024 - 53) with true by (symmetry; apply Z.leb_le; lia).
    reflexivity.
  - unfold SpecFloat.valid_binary, bounded, canonical_mantissa.
    rewrite Hc, Z.eqb_refl.
    replace (f <=? 1024 - 53) with true by (symmetry; apply Z.leb_le; lia).
    reflexivity.
Qed.

(** Valid positive numbers compare as their values do. *)
Lemma value_lt_compare (m1 m2 : positive) (e1 e2 : Z) :
  valid_binary (S754_finite false m1 e1) = true ->
  valid_binary (S754_finite false m2 e2) = true ->
  Zpos m1 * 2 ^ (e1 - Z.min e1 e2) < Zpos m2 * 2 ^ (e2 - Z.min e1 e2) ->
  SFcompare (S754_finite false m1 e1) (S754_finite false m2 e2) = Some Lt.
Proof.
  intros V1 V2 H. cbn [SFcompare].
  rewrite Pos.compare_cont_spec. cbn [Pos.switch_Eq].
  destruct (shl_align_value m1 e1 (Z.min e1 e2) ltac:(lia)) as [A1 _].
  destruct (shl_align_value m2 e2 (Z.min e1 e2) ltac:(lia)) as [A2 _].
  destruct (Z.compare_spec e1 e2) as [E|L|G].
  - subst e2. rewrite Z.min_id, Z.sub_diag, Z.pow_0_r, !Z.mul_1_r in H.
    rewrite (proj2 (Pos.compare_lt_iff m1 m2)) by lia. reflexivity.
  - reflexivity.
  - exfalso.
    pose proof (aligned_lt m2 m1 e2 e1 false false V2 V1 ltac:(lia)) as L.
    rewrite (Z.min_comm e2 e1) in L. rewrite A1, A2 in L. lia.
Qed.

(** The shift to the format's exponent, with what it does to the exponent
    and to the number of digits. *)
Lemma shr_fexp_bounds (m : positive) (e : Z) (l : location) :
  emin <= e ->
  exists m1,
    shr_m (fst (shr_fexp prec emax (Zpos m) e l)) = Zpos m1 /\
    emin <= snd (shr_fexp prec emax (Zpos m) e l)
         <= Z.max e (Zpos (digits2_pos m) + e - prec) /\
    Zpos (digits2_pos m1) + snd (shr_fexp prec emax (Zpos m) e l)
    <= Zpos (digits2_pos m) + e.
Proof.
  intros He.
  destruct (shr_fexp_pos m e l He) as [Hpos Hmin].
  unfold shr_fexp, shr, SpecFloat.fexp in *. cbn [Zdigits2] in *.
  rewrite emin_value in *. unfold prec in *.
  pose proof (digits2_pos_bounds m) as [Hlo Hhi].
  destruct (Z.max (Zpos (digits2_pos m) + e - 53) (-1074) - e) as [|n|n] eqn:E;
    cbn [fst snd] in *; rewrite ?shr_record_of_loc_m in *.
  - exists m. split; [reflexivity|]. lia.
  - rewrite shr_iter_m in * by (rewrite shr_record_of_loc_m; lia).
    rewrite shr_record_of_loc_m in *.
    destruct (Zpos m / 2 ^ Zpos n) as [|m1|m1] eqn:Em; try lia.
    exists m1. split; [reflexivity|]. split; [lia|].
    assert (Hn : Zpos n = Zpos (digits2_pos m) - 53) by lia.
    assert (Zpos (digits2_pos m1) <= 53); [|lia].
    apply digits2_pos_le; [lia|]. rewrite <- Em.
    apply Z.div_lt_upper_bound; [apply Z.pow_pos_nonneg; lia|].
    rewrite <- Z.pow_add_r by lia.
    replace (Zpos n + 53) with (Zpos (digits2_pos m)) by lia. exact Hhi.
  - exists m. split; [reflexivity|]. lia.
Qed.

(** Rounding a mantissa whose exponent and magnitude are in range gives a
    finite number. *)
Lemma binary_round_aux_finite (s : bool) (m : positive) (e : Z) (l : location) :
  emin <= e <= emax - prec ->
  Zpos (digits2_pos m) + e - 52 <= emax - prec ->
  exists m' e', binary_round_aux prec emax s (Zpos m) e l = S754_finite s m' e'.
Proof.
  intros He Hd. unfold binary_round_aux.
  destruct (shr_fexp_bounds m e l (proj1 He)) as (m1 & S1 & E1 & D1).
  destruct (shr_fexp prec emax (Zpos m) e l) as [mrs1 e1].
  cbn [fst snd] in S1, E1, D1.
  pose proof (round_nearest_even_bounds (shr_m mrs1) (loc_of_shr_record mrs1))
    as R.
  destruct (round_nearest_even (shr_m mrs1) (loc_of_shr_record mrs1))
    as [|m2|m2] eqn:Em2; rewrite S1 in R; try lia.
  assert (D2 : Zpos (digits2_pos m2) <= Zpos (digits2_pos m1) + 1).
  { apply digits2_pos_le; [lia|].
    pose proof (digits2_pos_bounds m1) as [_ Hhi].
    rewrite Z.pow_add_r by lia. change (2 ^ 1) with 2. lia. }
  destruct (shr_fexp_bounds m2 e1 loc_Exact (proj1 E1)) as (m3 & S3 & E3 & _).
  destruct (shr_fexp prec emax (Zpos m2) e1 loc_Exact) as [mrs2 e2].
  cbn [fst snd] in S3, E3. rewrite S3.
  replace (e2 <=? emax - prec) with true; [eauto|].
  symmetry. apply Z.leb_le. unfold prec, emax in *. lia.
Qed.

Lemma binary_round_finite (s : bool) (m : positive) (e : Z) :
  emin <= e <= emax - prec ->
  Zpos (digits2_pos m) + e - 52 <= emax - prec ->
  exists m' e', binary_round prec emax s m e = S754_finite s m' e'.
Proof.
  intros He Hd. unfold binary_round.
  pose proof (digits2_pos_bounds m) as [_ Hhi].
  remember (SpecFloat.fexp prec emax (Zpos (digits2_pos m) + e)) as f eqn:Hf.
  assert (Hf' : f = Z.max (Zpos (digits2_pos m) + e - prec) emin)
    by (rewrite Hf; reflexivity).
  rewrite emin_value in *. unfold prec, emax in *.
  unfold shl_align.
  destruct (f - e) as [|u|u] eqn:Eu.
  - apply binary_round_aux_finite; rewrite ?emin_value; unfold prec, emax; lia.
  - apply binary_round_aux_finite; rewrite ?emin_value; unfold prec, emax; lia.
  - apply binary_round_aux_finite; rewrite ?emin_value; unfold prec, emax;
      rewrite ?digits2_pos_iter_xO; lia.
Qed.

(** The remainder of two finite numbers: a zero of the dividend's sign, or
    a finite number of the dividend's sign, exactly [X mod Y] in units of
    the smaller exponent. *)
Lemma rem_finite_spec (a b : float) (sa sb : bool) (ma mb : positive)
    (ea eb : Z) :
  Prim2SF a = S754_finite sa ma ea ->
  Prim2SF b = S754_finite sb mb eb ->
  let e := Z.min ea eb in
  let R := (Zpos ma * 2 ^ (ea - e)) mod (Zpos mb * 2 ^ (eb - e)) in
  (R = 0 /\ Prim2SF (JS.rem a b) = S754_zero sa) \/
  (exists mz f,
      Prim2SF (JS.rem a b) = S754_finite sa mz f /\
      emin <= f <= e /\ Zpos mz = R * 2 ^ (e - f)).
Proof.
  intros Ha Hb. cbv zeta.
  pose proof (Prim2SF_valid a) as Va. rewrite Ha in Va.
  pose proof (Prim2SF_valid b) as Vb. rewrite Hb in Vb.
  pose proof (valid_finite_bounds sa ma ea Va) as (Ba & _).
  pose proof (valid_finite_bounds sb mb eb Vb) as (Bb & _).
  pose proof (finite_mantissa_lt ma ea sa Va) as Ma.
  pose proof (finite_mantissa_lt mb eb sb Vb) as Mb.
  unfold JS.rem. rewrite Ha, Hb.
  set (e := Z.min ea eb).
  set (X := Zpos ma * 2 ^ (ea - e)).
  set (Y := Zpos mb * 2 ^ (eb - e)).
  assert (HY : 0 < Y).
  { unfold Y. apply Z.mul_pos_pos; [lia|].
    apply Z.pow_pos_nonneg; unfold e; lia. }
  assert (HX : 0 <= X).
  { unfold X. apply Z.mul_nonneg_nonneg; [lia|].
    apply Z.pow_nonneg; lia. }
  pose proof (Z.mod_pos_bound X Y HY) as [R0 RY].
  pose proof (Z.mod_le X Y HX HY) as RX.
  destruct (X mod Y) as [|r|r] eqn:ER; try lia.
  - left. split; [reflexivity|].
    replace (cond_Zopp sa 0) with 0 by (destruct sa; reflexivity).
    cbn [binary_normalize]. apply Prim2SF_SF2Prim. reflexivity.
  - right.
    assert (Hr : Zpos (digits2_pos r) <= prec).
    { apply digits2_pos_le; [unfold prec; lia|].
      destruct (Z.le_ge_cases ea eb) as [L|G].
      - apply Z.le_lt_trans with (2 := Ma).
        apply Z.le_trans with (1 := RX). unfold X, e.
        replace (Z.min ea eb) with ea by lia.
        rewrite Z.sub_diag, Z.pow_0_r. lia.
      - apply Z.lt_trans with (2 := Mb).
        apply Z.lt_le_trans with (1 := RY). unfold Y, e.
        replace (Z.min ea eb) with eb by lia.
        rewrite Z.sub_diag, Z.pow_0_r. lia. }
    destruct (binary_round_exact sa r e Hr) as (mz & f & Hb' & Hv & Hf & Hm);
      [unfold e; lia|].
    exists mz, f.
    replace (binary_normalize prec emax (cond_Zopp sa (Zpos r)) e sa)
      with (binary_round prec emax sa r e) by (destruct sa; reflexivity).
    rewrite Hb'. split; [apply Prim2SF_SF2Prim, Hv|]. split; assumption.
Qed.

(** A finite number decodes to a zero or to a finite value. *)
Lemma is_finite_spec (a : float) :
  is_finite a = true ->
  (exists s, Prim2SF a = S754_zero s) \/
  (exists s m e, Prim2SF a = S754_finite s m e).
Proof.
  unfold is_finite. intros H.
  apply negb_true_iff, orb_false_iff in H as [Hn Hi].
  unfold is_infinity in Hi. rewrite eqb_spec, abs_spec in Hi.
  destruct (Prim2SF a) as [s|s| |s m e] eqn:E; eauto.
  - discriminate Hi.
  - apply is_nan_spec in E. congruence.
Qed.

(** The decoded form of [2 * Math.PI]. *)
Lemma twoPi_spec :
  Prim2SF (2 * JS.Math_PI) = S754_finite false 7074237752028440 (-50).
Proof. reflexivity. Qed.

Lemma rem_twoPi_below (a : float) :
  is_finite a = true ->
  below_twoPi (Prim2SF (JS.rem a (2 * JS.Math_PI))).
Proof.
  intros Hf.
  destruct (is_finite_spec a Hf) as [[s Ha]|(s & m & e & Ha)].
  - assert (E : JS.rem a (2 * JS.Math_PI) = a).
    { unfold JS.rem. rewrite Ha, twoPi_spec. reflexivity. }
    rewrite E, Ha. left. eauto.
  - destruct (rem_finite_spec a (2 * JS.Math_PI) s false m 7074237752028440
                e (-50) Ha twoPi_spec) as [[_ Hz]|(mz & f & Hr & Hfb & Hm)].
    + rewrite Hz. left. eauto.
    + rewrite Hr. right. exists s, mz, f.
      split; [reflexivity|]. split; [lia|].
      rewrite Hm.
      set (e' := Z.min e (-50)) in *.
      assert (HY : 0 < 7074237752028440 * 2 ^ (-50 - e')).
      { apply Z.mul_pos_pos; [lia|apply Z.pow_pos_nonneg; unfold e'; lia]. }
      pose proof (Z.mod_pos_bound (Zpos m * 2 ^ (e - e'))
                    (7074237752028440 * 2 ^ (-50 - e')) HY) as [_ RY].
      replace (-50 - f) with ((-50 - e') + (e' - f)) by lia.
      rewrite Z.pow_add_r, Z.mul_assoc by (unfold e'; lia).
      apply Z.mul_lt_mono_pos_r; [apply Z.pow_pos_nonneg; lia|exact RY].
Qed.

(** Adding [2 * Math.PI] to such a remainder gives a positive finite
    number. *)
Lemma below_twoPi_plus (r : float) :
  below_twoPi (Prim2SF r) ->
  exists m e, Prim2SF (r + 2 * JS.Math_PI) = S754_finite false m e.
Proof.
  intros [[s Hr]|(s & m & f & Hr & Hf & Hm)];
    rewrite add_spec, Hr, twoPi_spec.
  - cbn. eauto.
  - rewrite emin_value in Hf. cbn [SF64add SFadd].
    replace (Z.min f (-50)) with f by lia.
    destruct (shl_align_value m f f ltac:(lia)) as [A1 _].
    destruct (shl_align_value 7074237752028440 (-50) f ltac:(lia)) as [A2 _].
    rewrite A1, A2, Z.sub_diag, Z.pow_0_r, Z.mul_1_r.
    set (AT := 7074237752028440 * 2 ^ (-50 - f)) in *.
    assert (P : 0 < 2 ^ (-50 - f)) by (apply Z.pow_pos_nonneg; lia).
    assert (HAT : AT < 2 ^ (53 + (-50 - f))).
    { unfold AT. rewrite Z.pow_add_r by lia.
      apply Z.mul_lt_mono_pos_r; [exact P|].
      change (2 ^ 53) with 9007199254740992. lia. }
    assert (Hq : 0 < cond_Zopp s (Zpos m) + cond_Zopp false AT
                 < 2 ^ (54 + (-50 - f))).
    { replace (54 + (-50 - f)) with (1 + (53 + (-50 - f))) by lia.
      rewrite Z.pow_add_r by lia. change (2 ^ 1) with 2.
      destruct s; cbn [cond_Zopp]; lia. }
    destruct (cond_Zopp s (Zpos m) + cond_Zopp false AT) as [|q|q]; try lia.
    cbn [binary_normalize].
    apply binary_round_finite.
    + rewrite emin_value. unfold emax, prec. lia.
    + assert (Zpos (digits2_pos q) <= 54 + (-50 - f))
        by (apply digits2_pos_le; lia).
      unfold emax, prec. lia.
Qed.

(** The angle test of [determineResult] is made on a number in
    [[0, 2 * Math.PI)]. *)
Lemma normalizedAngle_range (a : float) :
  is_finite a = true ->
  (0 <=? normalizedAngle a)%float = true /\
  (normalizedAngle a <? 2 * JS.Math_PI)%float = true.
Proof.
  intros Hf. unfold normalizedAngle.
  pose proof (rem_twoPi_below a Hf) as Hb.
  destruct (below_twoPi_plus _ Hb) as (m2 & e2 & H2).
  set (s2 := (JS.rem a (2 * JS.Math_PI) + 2 * JS.Math_PI)%float) in *.
  rewrite leb_spec, ltb_spec, twoPi_spec.
  change (Prim2SF 0) with (S754_zero false).
  destruct (rem_finite_spec s2 (2 * JS.Math_PI) false false m2
              7074237752028440 e2 (-50) H2 twoPi_spec)
    as [[_ Hz]|(mz & f & Hr & Hfb & Hm)].
  - rewrite Hz. split; reflexivity.
  - pose proof (Prim2SF_valid (JS.rem s2 (2 * JS.Math_PI))) as V.
    rewrite Hr in *. split; [reflexivity|].
    unfold SFltb. rewrite value_lt_compare; [reflexivity|exact V|reflexivity|].
    rewrite emin_value in Hfb.
    replace (Z.min f (-50)) with f by lia.
    rewrite Z.sub_diag, Z.pow_0_r, Z.mul_1_r, Hm.
    set (e' := Z.min e2 (-50)) in *.
    assert (HY : 0 < 7074237752028440 * 2 ^ (-50 - e')).
    { apply Z.mul_pos_pos; [lia|apply Z.pow_pos_nonneg; unfold e'; lia]. }
    pose proof (Z.mod_pos_bound (Zpos m2 * 2 ^ (e2 - e'))
                  (7074237752028440 * 2 ^ (-50 - e')) HY) as [_ RY].
    replace (-50 - f) with ((-50 - e') + (e' - f)) by lia.
    rewrite Z.pow_add_r, Z.mul_assoc by (unfold e'; lia).
    apply Z.mul_lt_mono_pos_r; [apply Z.pow_pos_nonneg; lia|exact RY].
Qed.

(** NaN propagates through the arithmetic and fails every comparison. *)
Lemma nan_propagates_div (a b : float) :
  is_nan a = true -> is_nan (a / b)%float = true.
Proof.
  rewrite !is_nan_spec, div_spec. intros H. rewrite H. reflexivity.
Qed.

Lemma nan_propagates_sub (a b : float) :
  is_nan a = true -> is_nan (a - b)%float = true.
Proof.
  rewrite !is_nan_spec, sub_spec. intros H. rewrite H. reflexivity.
Qed.

Lemma nan_not_ltb (a b : float) :
  is_nan a = true -> (a <? b)%float = false.
Proof.
  rewrite is_nan_spec, ltb_spec. intros H. rewrite H. reflexivity.
Qed.

Lemma nan_not_gtb (a b : float) :
  is_nan b = true -> (a <? b)%float = false.
Proof.
  rewrite is_nan_spec, ltb_spec. intros H. rewrite H.
  destruct (Prim2SF a) as [s|s| |s m e]; try destruct s; reflexivity.
Qed.

Lemma nan_propagates_add_l (a b : float) :
  is_nan a = true -> is_nan (a + b)%float = true.
Proof.
  rewrite !is_nan_spec, add_spec. intros H. rewrite H. reflexivity.
Qed.

Lemma nan_propagates_add_r (a b : float) :
  is_nan b = true -> is_nan (a + b)%float = true.
Proof.
  rewrite !is_nan_spec, add_spec. intros H. rewrite H.
  destruct (Prim2SF a) as [s|s| |s m e]; reflexivity.
Qed.

Lemma nan_propagates_mul_l (a b : float) :
  is_nan a = true -> is_nan (a * b)%float = true.
Proof.
  rewrite !is_nan_spec, mul_spec. intros H. rewrite H. reflexivity.
Qed.

(** A zero is [+0] or [-0]. *)
Lemma is_zero_spec (a : float) :
  is_zero a = true -> exists s, Prim2SF a = S754_zero s.
Proof.
  unfold is_zero. rewrite eqb_spec.
  change (Prim2SF zero) with (S754_zero false). unfold SFeqb.
  destruct (Prim2SF a) as [s|s| |s m e]; simpl;
    try (destruct s); try discriminate; eauto.
Qed.

(** Whatever is multiplied by a zero, twice, and negated is a zero or NaN;
    whatever is divided by a zero is infinite or NaN; and the product of the
    two is NaN. *)
Lemma zero_times_quotient_by_zero_is_nan (k v z : float) :
  is_zero z = true -> is_nan ((- (k * z * z)) * (v / z))%float = true.
Proof.
  intros Hz. apply is_zero_spec in Hz as [sz Hz].
  rewrite is_nan_spec, mul_spec, opp_spec, !mul_spec, div_spec, Hz.
  destruct (Prim2SF k) as [sk|sk| |sk mk ek];
    destruct (Prim2SF v) as [sv|sv| |sv mv ev]; reflexivity.
Qed.

(** [Math.max(600, t)] is NaN or at least 600. *)
Lemma Math_max_600 (t : float) :
  is_nan (JS.Math_max 600 t) = true \/ (600 <=? JS.Math_max 600 t)%float = true.
Proof.
  unfold JS.Math_max.
  replace (is_nan 600) with false by reflexivity. rewrite orb_false_l.
  destruct (is_nan t) eqn:Hn; [left; reflexivity|].
  destruct (600 <? t)%float eqn:H1; [right; apply ltb_leb, H1|].
  destruct (t <? 600)%float eqn:H2; [right; reflexivity|].
  replace (get_sign 600) with false by reflexivity. right. reflexivity.
Qed.

(** The products of a base velocity with two factors keep the order of the
    factors. *)
Lemma mul_ltb (v a b : float) (mx ma mb : positive) (ex ea eb : Z) :
  Prim2SF v = S754_finite false mx ex ->
  Prim2SF a = S754_finite false ma ea ->
  Prim2SF b = S754_finite false mb eb ->
  2 ^ 52 <= Zpos mx < 2 ^ 53 ->
  2 ^ 52 <= Zpos ma < 2 ^ 53 ->
  2 ^ 52 <= Zpos mb < 2 ^ 53 ->
  emin <= ex + ea + 52 -> ex + ea + 54 <= emax - prec ->
  emin <= ex + eb + 52 -> ex + eb + 54 <= emax - prec ->
  (Zpos ma + 2) * 2 ^ (ea - Z.min ea eb)
    < (Zpos mb - 2) * 2 ^ (eb - Z.min ea eb) ->
  (v * a <? v * b)%float = true.
Proof.
  intros Hv Ha Hb. intros.
  rewrite ltb_spec, !mul_spec, Hv, Ha, Hb.
  apply SFmul_lt; assumption.
Qed.

(** A number between two normal positive ones is normal and positive, with
    an exponent between theirs. *)
Lemma between_normal (lo hi v : float) (ml mh : positive) (el eh : Z) :
  Prim2SF lo = S754_finite false ml el ->
  Prim2SF hi = S754_finite false mh eh ->
  emin < el ->
  (lo <=? v)%float = true -> (v <=? hi)%float = true ->
  exists mx ex, Prim2SF v = S754_finite false mx ex /\
                2 ^ 52 <= Zpos mx < 2 ^ 53 /\ el <= ex <= eh.
Proof.
  intros Hlo Hhi Hel L H.
  destruct (leb_at_least lo v ml el Hlo Hel L)
    as [Hinf|(mx & ex & Hv & Mx & Ex)].
  - rewrite leb_spec, Hinf, Hhi in H. discriminate H.
  - exists mx, ex. split; [exact Hv|]. split; [exact Mx|].
    split; [exact Ex|].
    rewrite leb_spec, Hv, Hhi in H. unfold SFleb, SFcompare in H.
    destruct (Z.compare_spec ex eh); try discriminate H; lia.
Qed.

(** If [a - b] is not below zero, [a] is not below [b]. *)
Lemma not_sub_neg_not_ltb (a b : float) :
  (a - b <? 0)%float = false -> (a <? b)%float = false.
Proof.
  intros H. destruct (a <? b)%float eqn:E; [|reflexivity].
  apply ltb_sub_neg in E. congruence.
Qed.

(** A number with the sign bit set is below any positive finite one. *)
Lemma get_sign_ltb_pos (a c : float) :
  get_sign a = true ->
  (exists m e, Prim2SF c = S754_finite false m e) ->
  (a <? c)%float = true.
Proof.
  unfold get_sign, is_zero. change zero with 0%float. intros H Hc.
  destruct (a =? 0)%float eqn:Z.
  - destruct Hc as (m & e & Hc). rewrite eqb_spec in Z.
    rewrite ltb_spec, Hc. revert Z.
    replace (Prim2SF 0%float) with (S754_zero false) by reflexivity.
    unfold SFeqb, SFltb.
    destruct (Prim2SF a) as [sa| sa| |sa ma ea]; simpl;
      try (destruct sa); simpl; intros Z; try discriminate; reflexivity.
  - apply nonpos_ltb_pos; [|exact Hc].
    apply ltb_leb, H.
Qed.

End Binary64.

(** ** Binary64 numbers as whole numbers of units

    Order, [%] and the addition of [2 * Math.PI] on the exact values of
    the numbers, and with them the test of [determineResult]. *)

Module Units.
Import Binary64.
Local Open Scope Z_scope.

Lemma pow_units_pos (e : Z) : emin <= e -> 0 < 2 ^ (e + 1074).
Proof. rewrite emin_value. intros H. apply Z.pow_pos_nonneg; lia. Qed.

(** Of two valid numbers the one with the larger exponent is the larger
    in magnitude. *)
Lemma units_exponent_lt (m1 m2 : positive) (e1 e2 : Z) (s1 s2 : bool) :
  valid_binary (S754_finite s1 m1 e1) = true ->
  valid_binary (S754_finite s2 m2 e2) = true ->
  e1 < e2 -> Zpos m1 * 2 ^ (e1 + 1074) < Zpos m2 * 2 ^ (e2 + 1074).
Proof.
  intros V1 V2 L.
  pose proof (finite_mantissa_lt m1 e1 s1 V1) as B1.
  pose proof (valid_finite_bounds s1 m1 e1 V1) as (E1 & _).
  assert (He2 : emin < e2) by lia.
  pose proof (normal_mantissa_ge m2 e2 s2 V2 He2) as B2.
  pose proof (pow_units_pos e1 (proj1 E1)) as P1.
  rewrite emin_value in *. unfold prec in *.
  change (2 ^ (53 - 1)) with 4503599627370496 in B2.
  change (2 ^ 53) with 9007199254740992 in B1.
  replace (e2 + 1074) with ((e2 - e1) + (e1 + 1074)) by lia.
  rewrite (Z.pow_add_r 2 (e2 - e1) (e1 + 1074)) by lia.
  assert (X : 2 ^ 1 <= 2 ^ (e2 - e1)) by (apply Z.pow_le_mono_r; lia).
  change (2 ^ 1) with 2 in X.
  set (u := 2 ^ (e1 + 1074)) in *. set (k := 2 ^ (e2 - e1)) in *.
  assert (A1 : Zpos m1 * u < 9007199254740992 * u)
    by (apply Z.mul_lt_mono_pos_r; lia).
  assert (A2 : 4503599627370496 * (k * u) <= Zpos m2 * (k * u))
    by (apply Z.mul_le_mono_nonneg_r; [apply Z.mul_nonneg_nonneg|]; lia).
  assert (A3 : 2 * u <= k * u) by (apply Z.mul_le_mono_nonneg_r; lia).
  lia.
Qed.

(** Valid finite numbers compare as their values do. *)
Lemma SFcompare_units (x y : spec_float) :
  valid_binary x = true -> valid_binary y = true ->
  (exists s, x = S754_zero s) \/ (exists s m e, x = S754_finite s m e) ->
  (exists s, y = S754_zero s) \/ (exists s m e, y = S754_finite s m e) ->
  SFcompare x y = Some (SFunits x ?= SFunits y).
Proof.
  intros Vx Vy [[sx ->]|(sx & mx & ex & ->)] [[sy ->]|(sy & my & ey & ->)].
  - reflexivity.
  - pose proof (valid_finite_bounds sy my ey Vy) as (E & _).
    pose proof (pow_units_pos ey (proj1 E)) as P.
    assert (0 < Zpos my * 2 ^ (ey + 1074)) by (apply Z.mul_pos_pos; lia).
    cbn [SFcompare SFunits]. f_equal. symmetry.
    destruct sy; cbn [cond_Zopp];
      [apply Z.compare_gt_iff|apply Z.compare_lt_iff]; lia.
  - pose proof (valid_finite_bounds sx mx ex Vx) as (E & _).
    pose proof (pow_units_pos ex (proj1 E)) as P.
    assert (0 < Zpos mx * 2 ^ (ex + 1074)) by (apply Z.mul_pos_pos; lia).
    cbn [SFcompare SFunits]. f_equal. symmetry.
    destruct sx; cbn [cond_Zopp];
      [apply Z.compare_lt_iff|apply Z.compare_gt_iff]; lia.
  - pose proof (valid_finite_bounds sx mx ex Vx) as (Ex & _).
    pose proof (valid_finite_bounds sy my ey Vy) as (Ey & _).
    pose proof (pow_units_pos ex (proj1 Ex)) as Px.
    pose proof (pow_units_pos ey (proj1 Ey)) as Py.
    assert (Hx : 0 < Zpos mx * 2 ^ (ex + 1074)) by (apply Z.mul_pos_pos; lia).
    assert (Hy : 0 < Zpos my * 2 ^ (ey + 1074)) by (apply Z.mul_pos_pos; lia).
    assert (M : (ex ?= ey) = Lt ->
                Zpos mx * 2 ^ (ex + 1074) < Zpos my * 2 ^ (ey + 1074)).
    { intros L. apply (units_exponent_lt mx my ex ey sx sy Vx Vy).
      apply Z.compare_lt_iff, L. }
    assert (M' : (ex ?= ey) = Gt ->
                 Zpos my * 2 ^ (ey + 1074) < Zpos mx * 2 ^ (ex + 1074)).
    { intros L. apply (units_exponent_lt my mx ey ex sy sx Vy Vx).
      apply Z.compare_gt_iff in L. lia. }
    assert (Q : (ex ?= ey) = Eq ->
                (Zpos mx * 2 ^ (ex + 1074) ?= Zpos my * 2 ^ (ey + 1074))
                = (mx ?= my)%positive).
    { intros L. apply Z.compare_eq in L. subst ey.
      destruct (Pos.compare_spec mx my) as [E|E|E].
      - subst. apply Z.compare_refl.
      - apply Z.compare_lt_iff, Z.mul_lt_mono_pos_r; lia.
      - apply Z.compare_gt_iff, Z.mul_lt_mono_pos_r; lia. }
    cbn [SFcompare SFunits]. rewrite !Pos.compare_cont_spec.
    cbn [Pos.switch_Eq]. f_equal. symmetry.
    destruct sx, sy; cbn [cond_Zopp].
    + rewrite Z.compare_opp.
      destruct (ex ?= ey) eqn:C.
      * rewrite Z.compare_antisym, (Q eq_refl). 
        destruct (mx ?= my)%positive; reflexivity.
      * apply Z.compare_gt_iff. specialize (M eq_refl). lia.
      * apply Z.compare_lt_iff. specialize (M' eq_refl). lia.
    + apply Z.compare_lt_iff. lia.
    + apply Z.compare_gt_iff. lia.
    + destruct (ex ?= ey) eqn:C.
      * rewrite (Q eq_refl). destruct (mx ?= my)%positive; reflexivity.
      * apply Z.compare_lt_iff. exact (M eq_refl).
      * apply Z.compare_gt_iff. exact (M' eq_refl).
Qed.

Lemma compare_units (a b : float) :
  is_finite a = true -> is_finite b = true ->
  SFcompare (Prim2SF a) (Prim2SF b) = Some (units a ?= units b).
Proof.
  intros Ha Hb. apply SFcompare_units;
    auto using Prim2SF_valid, is_finite_spec.
Qed.

(** Finite numbers are ordered as their values are. *)
Lemma ltb_units (a b : float) :
  is_finite a = true -> is_finite b = true ->
  (a <? b)%float = (units a <? units b).
Proof.
  intros Ha Hb. rewrite ltb_spec. unfold SFltb.
  rewrite (compare_units a b Ha Hb). unfold Z.ltb.
  destruct (units a ?= units b); reflexivity.
Qed.

Lemma leb_units (a b : float) :
  is_finite a = true -> is_finite b = true ->
  (a <=? b)%float = (units a <=? units b).
Proof.
  intros Ha Hb. rewrite leb_spec. unfold SFleb.
  rewrite (compare_units a b Ha Hb). unfold Z.leb.
  destruct (units a ?= units b); reflexivity.
Qed.


Lemma form_is_finite (a : float) :
  (exists s, Prim2SF a = S754_zero s) \/
  (exists s m e, Prim2SF a = S754_finite s m e) ->
  is_finite a = true.
Proof.
  intros H. unfold is_finite, is_nan, is_infinity.
  rewrite !eqb_spec, abs_spec.
  destruct H as [[s ->]|(s & m & e & ->)]; cbn.
  - reflexivity.
  - rewrite Z.compare_refl, Pos.compare_cont_refl.
    destruct s; reflexivity.
Qed.

(** [%] is exact: the remainder of a finite number by a positive finite
    one is finite, and its value is the truncating remainder of the
    values. *)
Lemma rem_units (a b : float) (mb : positive) (eb : Z) :
  is_finite a = true ->
  Prim2SF b = S754_finite false mb eb ->
  is_finite (JS.rem a b) = true /\
  units (JS.rem a b) = Z.rem (units a) (units b).
Proof.
  intros Ha Hb.
  destruct (is_finite_spec a Ha) as [[s E]|(s & m & e & E)].
  - assert (R : JS.rem a b = a) by (unfold JS.rem; rewrite E, Hb; reflexivity).
    rewrite R. split; [exact Ha|].
    unfold units. rewrite E. cbn [SFunits]. symmetry. apply Z.rem_0_l.
    rewrite Hb. cbn [SFunits cond_Zopp].
    pose proof (Prim2SF_valid b) as Vb. rewrite Hb in Vb.
    pose proof (valid_finite_bounds _ _ _ Vb) as (Eb & _).
    pose proof (pow_units_pos eb (proj1 Eb)). 
    assert (0 < Zpos mb * 2 ^ (eb + 1074)) by (apply Z.mul_pos_pos; lia).
    lia.
  - pose proof (Prim2SF_valid a) as Va. rewrite E in Va.
    pose proof (Prim2SF_valid b) as Vb. rewrite Hb in Vb.
    pose proof (valid_finite_bounds _ _ _ Va) as (Ea & _).
    pose proof (valid_finite_bounds _ _ _ Vb) as (Eb & _).
    pose proof (rem_finite_spec a b s false m mb e eb E Hb) as H.
    cbv zeta in H.
    set (f := Z.min e eb) in *.
    set (X := Zpos m * 2 ^ (e - f)) in *.
    set (Y := Zpos mb * 2 ^ (eb - f)) in *.
    assert (Hf : emin <= f) by (unfold f; lia).
    pose proof (pow_units_pos f Hf) as Pu.
    rewrite emin_value in *.
    set (u := 2 ^ (f + 1074)) in *.
    assert (HX : Zpos m * 2 ^ (e + 1074) = X * u).
    { unfold X, u. rewrite <- Z.mul_assoc, <- Z.pow_add_r by (unfold f; lia).
      do 2 f_equal. lia. }
    assert (HY : Zpos mb * 2 ^ (eb + 1074) = Y * u).
    { unfold Y, u. rewrite <- Z.mul_assoc, <- Z.pow_add_r by (unfold f; lia).
      do 2 f_equal. lia. }
    assert (Y0 : 0 < Y).
    { unfold Y. apply Z.mul_pos_pos; [lia|].
      apply Z.pow_pos_nonneg; unfold f; lia. }
    assert (X0 : 0 <= X).
    { unfold X. apply Z.mul_nonneg_nonneg; [lia|].
      apply Z.pow_nonneg; lia. }
    assert (Rm : Z.rem (units a) (units b) = cond_Zopp s ((X mod Y) * u)).
    { unfold units. rewrite E, Hb. cbn [SFunits]. rewrite HX, HY.
      cbn [cond_Zopp].
      assert (N : Z.rem (X * u) (Y * u) = (X mod Y) * u).
      { rewrite Z.rem_mod_nonneg by (try apply Z.mul_pos_pos;
                                     try apply Z.mul_nonneg_nonneg; lia).
        apply Z.mul_mod_distr_r; lia. }
      destruct s; cbn [cond_Zopp].
      - rewrite Z.rem_opp_l by lia. rewrite N. reflexivity.
      - exact N. }
    rewrite Rm.
    destruct H as [[R0 Hz]|(mz & g & Hr & Hg & Hm)].
    + split; [apply form_is_finite; left; eauto|].
      unfold units. rewrite Hz, R0. cbn [SFunits].
      destruct s; reflexivity.
    + split; [apply form_is_finite; right; eauto|].
      unfold units. rewrite Hr. cbn [SFunits]. f_equal.
      rewrite Hm. unfold u. rewrite <- Z.mul_assoc, <- Z.pow_add_r by lia.
      do 2 f_equal. lia.
Qed.


(** Rounding a positive mantissa whose value is below [2 ^ k]: the result
    is finite and at most one unit in the last place of that range, that
    is [2 ^ (k - 53)], away from the exact value. *)
Lemma binary_round_near (q : positive) (E k : Z) :
  emin <= E <= emax - prec -> E <= k -> k < emax -> emin + prec <= k ->
  Zpos q < 2 ^ (k - E) ->
  exists m' e',
    binary_round prec emax false q E = S754_finite false m' e' /\
    Z.abs (Zpos m' * 2 ^ (e' + 1074) - Zpos q * 2 ^ (E + 1074))
    <= 2 ^ (k - 53 + 1074).
Proof.
  intros HE Ek Hk Hk' Hq.
  pose proof (pow_units_pos E (proj1 HE)) as Pu.
  assert (Dq : Zpos (digits2_pos q) <= k - E)
    by (apply digits2_pos_le; lia).
  destruct (Z_le_gt_dec (Zpos (digits2_pos q)) prec) as [Hd|Hd].
  - destruct (binary_round_exact false q E Hd HE) as (mz & g & R & _ & G & M).
    exists mz, g. split; [exact R|].
    rewrite M, <- Z.mul_assoc, <- Z.pow_add_r by (rewrite emin_value in *; lia).
    replace (E - g + (g + 1074)) with (E + 1074) by lia.
    rewrite Z.sub_diag. cbn [Z.abs]. apply Z.pow_nonneg. lia.
  - set (n := Zpos (digits2_pos q) - prec) in *.
    assert (Hn : 0 <= n) by (unfold n; lia).
    assert (R0 : binary_round prec emax false q E
                 = binary_round_aux prec emax false (Zpos q) E loc_Exact).
    { unfold binary_round.
      assert (F : SpecFloat.fexp prec emax (Zpos (digits2_pos q) + E)
                  = E + n).
      { unfold SpecFloat.fexp. fold emin. unfold n. lia. }
      rewrite F. unfold shl_align.
      destruct (E + n - E) as [|p|p] eqn:Ep; try reflexivity. lia. }
    destruct (binary_round_aux_normal false q E loc_Exact Hn ltac:(lia))
      as (m' & e' & R & N & Ee & B).
    fold n in Ee, B.
    assert (Fin : (e' <=? emax - prec) = true).
    { apply Z.leb_le. unfold n, prec in *. lia. }
    rewrite Fin in R. exists m', e'. split; [rewrite R0; exact R|].
    rewrite emin_value in *. unfold prec in *.
    replace (e' + 1074) with ((e' - E) + (E + 1074)) by lia.
    rewrite (Z.pow_add_r 2 (e' - E) (E + 1074)), Z.mul_assoc by lia.
    rewrite <- Z.mul_sub_distr_r.
    set (u := 2 ^ (E + 1074)) in *.
    assert (Hpn : 0 < 2 ^ n) by (apply Z.pow_pos_nonneg; lia).
    assert (Le : 2 ^ n * u <= 2 ^ (k - 53 + 1074)).
    { unfold u. rewrite <- Z.pow_add_r by lia.
      apply Z.pow_le_mono_r; unfold n; lia. }
    assert (A : Z.abs (Zpos m' * 2 ^ (e' - E) - Zpos q) <= 2 ^ n) by lia.
    rewrite Z.abs_mul, (Z.abs_eq u) by lia.
    apply Z.le_trans with (2 := Le).
    apply Z.mul_le_mono_nonneg_r; lia.
Qed.


Lemma twoPi_units : units (2 * JS.Math_PI) = 7074237752028440 * 2 ^ 1024.
Proof. reflexivity. Qed.

(** Adding [2 * Math.PI] to a finite number smaller in magnitude: the sum
    is finite, positive, and within [2 ^ -49] of the exact sum. *)
Lemma add_twoPi_units (r : float) :
  is_finite r = true ->
  Z.abs (units r) < units (2 * JS.Math_PI) ->
  is_finite (r + 2 * JS.Math_PI) = true /\
  0 < units (r + 2 * JS.Math_PI) /\
  Z.abs (units (r + 2 * JS.Math_PI) - (units r + units (2 * JS.Math_PI)))
  <= 2 ^ 1025.
Proof.
  intros Hf Hlt. rewrite twoPi_units in *.
  destruct (is_finite_spec r Hf) as [[s E]|(s & m & f & E)].
  - assert (R : Prim2SF (r + 2 * JS.Math_PI) = Prim2SF (2 * JS.Math_PI)).
    { rewrite add_spec, E, twoPi_spec. reflexivity. }
    split; [apply form_is_finite; right; rewrite R, twoPi_spec; eauto|].
    unfold units at 1 2 3. rewrite R, E, twoPi_spec. cbn [SFunits cond_Zopp].
    change (-50 + 1074) with 1024. split; [reflexivity|].
    replace (7074237752028440 * 2 ^ 1024 - (0 + 7074237752028440 * 2 ^ 1024))
      with 0 by lia.
    cbn [Z.abs]. apply Z.pow_nonneg. lia.
  - pose proof (Prim2SF_valid r) as V. rewrite E in V.
    pose proof (valid_finite_bounds _ _ _ V) as (Ef & _).
    pose proof (pow_units_pos f (proj1 Ef)) as Pu.
    unfold units in Hlt |- *. rewrite E in Hlt |- *. cbn [SFunits] in Hlt |- *.
    assert (Hm : Zpos m * 2 ^ (f + 1074) < 7074237752028440 * 2 ^ 1024).
    { destruct s; cbn [cond_Zopp] in Hlt; lia. }
    clear Hlt.
    assert (Hf50 : f <= -50).
    { destruct (Z_le_gt_dec f (-50)) as [L|G]; [exact L|exfalso].
      pose proof (normal_mantissa_ge m f s V) as B.
      rewrite emin_value in *. specialize (B ltac:(lia)).
      unfold prec in B. change (2 ^ (53 - 1)) with (2 ^ 52) in B.
      assert (X : 2 ^ 1025 <= 2 ^ (f + 1074))
        by (apply Z.pow_le_mono_r; lia).
      assert (A1 : 2 ^ 52 * 2 ^ (f + 1074) <= Zpos m * 2 ^ (f + 1074))
        by (apply Z.mul_le_mono_nonneg_r; lia).
      assert (A2 : 2 ^ 52 * 2 ^ 1025 <= 2 ^ 52 * 2 ^ (f + 1074))
        by (apply Z.mul_le_mono_nonneg_l; lia).
      assert (A3 : 7074237752028440 * 2 ^ 1024 < 2 ^ 52 * 2 ^ 1025)
        by reflexivity.
      lia. }
    rewrite emin_value in *.
    set (u := 2 ^ (f + 1074)) in *.
    assert (S : exists m' e',
               Prim2SF (r + 2 * JS.Math_PI) = S754_finite false m' e' /\
               Z.abs (Zpos m' * 2 ^ (e' + 1074)
                      - (cond_Zopp s (Zpos m * u)
                         + 7074237752028440 * 2 ^ 1024)) <= 2 ^ 1025).
    { rewrite add_spec, E, twoPi_spec. cbn [SF64add SFadd].
      replace (Z.min f (-50)) with f by lia.
      destruct (shl_align_value m f f ltac:(lia)) as [A1 _].
      destruct (shl_align_value 7074237752028440 (-50) f ltac:(lia))
        as [A2 _].
      rewrite A1, A2, Z.sub_diag, Z.pow_0_r, Z.mul_1_r.
      set (AT := 7074237752028440 * 2 ^ (-50 - f)) in *.
      assert (P : 0 < 2 ^ (-50 - f)) by (apply Z.pow_pos_nonneg; lia).
      assert (HP : AT * u = 7074237752028440 * 2 ^ 1024).
      { unfold AT, u. rewrite <- Z.mul_assoc, <- Z.pow_add_r by lia.
        do 2 f_equal. lia. }
      assert (Hm' : Zpos m < AT).
      { apply Z.mul_lt_mono_pos_r with (p := u); [exact Pu|]. lia. }
      assert (HAT : AT < 2 ^ (53 + (-50 - f))).
      { unfold AT. rewrite Z.pow_add_r by lia.
        apply Z.mul_lt_mono_pos_r; [exact P|].
        change (2 ^ 53) with 9007199254740992. lia. }
      assert (Hq : 0 < cond_Zopp s (Zpos m) + cond_Zopp false AT
                   < 2 ^ (4 - f)).
      { replace (4 - f) with (1 + (53 + (-50 - f))) by lia.
        rewrite Z.pow_add_r by lia. change (2 ^ 1) with 2.
        destruct s; cbn [cond_Zopp]; lia. }
      assert (Hu : cond_Zopp s (Zpos m * u) + 7074237752028440 * 2 ^ 1024
                   = (cond_Zopp s (Zpos m) + cond_Zopp false AT) * u).
      { rewrite <- HP. destruct s; cbn [cond_Zopp]; lia. }
      rewrite Hu.
      destruct (cond_Zopp s (Zpos m) + cond_Zopp false AT) as [|q|q];
        try lia.
      cbn [binary_normalize].
      destruct (binary_round_near q f 4) as (m' & e' & R & B);
        try (rewrite ?emin_value; unfold emax, prec; lia).
      rewrite R. exists m', e'. split; [reflexivity|exact B]. }
    destruct S as (m' & e' & R & B).
    split; [apply form_is_finite; right; eauto|].
    rewrite R. cbn [SFunits cond_Zopp]. split; [|exact B].
    pose proof (Prim2SF_valid (r + 2 * JS.Math_PI)) as V'. rewrite R in V'.
    pose proof (valid_finite_bounds _ _ _ V') as (Ee & _).
    rewrite emin_value in Ee.
    apply Z.mul_pos_pos; [lia|apply Z.pow_pos_nonneg; lia].
Qed.


(** The remainder of a number between two multiples of the divisor. *)
Lemma rem_shift (S P k : Z) :
  0 < P -> 0 <= k -> k * P <= S < (k + 1) * P -> Z.rem S P = S - k * P.
Proof.
  intros HP Hk HS.
  assert (0 <= k * P) by (apply Z.mul_nonneg_nonneg; lia).
  rewrite Z.rem_mod_nonneg by lia.
  symmetry. apply Z.mod_unique with (q := k); lia.
Qed.

(** A sum that is within [e] of a value less than a quarter turn away
    from a multiple of four quarter turns is, reduced, in the first or in
    the last quarter. *)
Lemma window_heads (Q e N S k : Z) :
  0 < Q -> 0 <= k -> Z.abs (S - N) <= e -> 0 < S ->
  k * (4 * Q) - Q + e < N -> N + e < k * (4 * Q) + Q ->
  (Z.rem S (4 * Q) <? Q) || (3 * Q <? Z.rem S (4 * Q)) = true.
Proof.
  intros HQ Hk HS S0 Lo Hi.
  destruct (Z_lt_le_dec S (k * (4 * Q))) as [L|G].
  - assert (K : 1 <= k).
    { destruct (Z_le_gt_dec 1 k) as [|G]; [assumption|].
      assert (k = 0) by lia. subst k. lia. }
    rewrite (rem_shift S (4 * Q) (k - 1)) by lia.
    apply orb_true_iff. right. apply Z.ltb_lt. lia.
  - rewrite (rem_shift S (4 * Q) k) by lia.
    apply orb_true_iff. left. apply Z.ltb_lt. lia.
Qed.

(** One that is within [e] of a value in the two middle quarters is,
    reduced, in the two middle quarters. *)
Lemma window_tails (Q e N S k : Z) :
  0 < Q -> 0 <= k -> Z.abs (S - N) <= e ->
  k * (4 * Q) + Q + e <= N -> N + e <= k * (4 * Q) + 3 * Q ->
  (Z.rem S (4 * Q) <? Q) || (3 * Q <? Z.rem S (4 * Q)) = false.
Proof.
  intros HQ Hk HS Lo Hi.
  rewrite (rem_shift S (4 * Q) k) by lia.
  apply orb_false_iff. split; apply Z.ltb_ge; lia.
Qed.

(** The test of [determineResult] in units: the sum [(a % 2pi) + 2pi] is
    off its exact value by at most [2 ^ -49]. *)
Lemma classify_units (a : float) :
  is_finite a = true ->
  let Q := units quarterTurn in
  let r := JS.rem a (2 * JS.Math_PI) in
  is_finite r = true /\
  units r = Z.rem (units a) (4 * Q) /\
  exists S,
    0 < S /\ Z.abs (S - (units r + 4 * Q)) <= 2 ^ 1025 /\
    classify a
    = if (Z.rem S (4 * Q) <? Q) || (3 * Q <? Z.rem S (4 * Q))
      then Heads else Tails.
Proof.
  intros Hf. cbv zeta.
  assert (P4 : units (2 * JS.Math_PI) = 4 * units quarterTurn)
    by (vm_compute; reflexivity).
  assert (Q3 : units (3 * quarterTurn) = 3 * units quarterTurn)
    by (vm_compute; reflexivity).
  assert (Q0 : 0 < units quarterTurn) by (vm_compute; reflexivity).
  destruct (rem_units a (2 * JS.Math_PI) _ _ Hf twoPi_spec) as [Fr Ur].
  set (r := JS.rem a (2 * JS.Math_PI)) in *.
  assert (Br : Z.abs (units r) < units (2 * JS.Math_PI)).
  { rewrite Ur. rewrite P4.
    pose proof (Z.rem_bound_abs (units a) (4 * units quarterTurn)
                  ltac:(lia)). lia. }
  destruct (add_twoPi_units r Fr Br) as (Fs & S0 & Bs).
  destruct (rem_units (r + 2 * JS.Math_PI) (2 * JS.Math_PI) _ _ Fs twoPi_spec)
    as [Fv Uv].
  rewrite P4 in *.
  split; [exact Fr|]. split; [exact Ur|].
  exists (units (r + 2 * JS.Math_PI)).
  split; [exact S0|]. split; [exact Bs|].
  unfold classify, normalizedAngle. fold r.
  assert (Fq : is_finite quarterTurn = true) by reflexivity.
  assert (Fq3 : is_finite (3 * quarterTurn) = true) by reflexivity.
  rewrite (ltb_units _ _ Fv Fq), (ltb_units _ _ Fq3 Fv), Uv, Q3.
  reflexivity.
Qed.


Lemma leb_units_le (a b : float) :
  is_finite a = true -> is_finite b = true ->
  (a <=? b)%float = true -> units a <= units b.
Proof.
  intros Ha Hb H. rewrite (leb_units a b Ha Hb) in H.
  apply Z.leb_le, H.
Qed.

(** Away from the two boundaries the test of [determineResult] decides as
    the exact rule does on the exact remainder [r] of the angle: heads for
    [r] in the first or the last quarter of a turn, tails in the two
    middle quarters.  A negative angle has a negative remainder. *)
Lemma classify_away_from_boundary (a : float) :
  is_finite a = true ->
  let r := JS.rem a (2 * JS.Math_PI) in
  let q := (JS.Math_PI / 2)%float in
  let tol := 1e-14%float in
  (((0 <=? r) = true -> (r <=? q - tol) = true -> classify a = Heads) /\
   ((q + tol <=? r) = true -> (r <=? 3 * q - tol) = true ->
    classify a = Tails) /\
   ((3 * q + tol <=? r) = true -> classify a = Heads) /\
   ((r <=? - (3 * q + tol)) = true -> classify a = Heads) /\
   ((- (3 * q - tol) <=? r) = true -> (r <=? - (q + tol)) = true ->
    classify a = Tails) /\
   ((- (q - tol) <=? r) = true -> (r <=? 0) = true -> classify a = Heads))%float.
Proof.
  intros Hf. cbv zeta.
  destruct (classify_units a Hf) as (Fr & Ur & S & S0 & Bs & C).
  cbv zeta in *.
  set (r := JS.rem a (2 * JS.Math_PI)) in *.
  assert (Q0 : 0 < units quarterTurn) by (vm_compute; reflexivity).
  assert (Br : Z.abs (units r) < 4 * units quarterTurn).
  { rewrite Ur.
    pose proof (Z.rem_bound_abs (units a) (4 * units quarterTurn)
                  ltac:(lia)). lia. }
  assert (E0 : 2 ^ 1025 < units quarterTurn) by (vm_compute; reflexivity).
  assert (C1 : units (JS.Math_PI / 2 - 1e-14) + 2 ^ 1025 < units quarterTurn)
    by (vm_compute; reflexivity).
  assert (C2 : units quarterTurn + 2 ^ 1025 <= units (JS.Math_PI / 2 + 1e-14))
    by (vm_compute; intros X; discriminate X).
  assert (C3 : units (3 * (JS.Math_PI / 2) - 1e-14) + 2 ^ 1025
               <= 3 * units quarterTurn)
    by (vm_compute; intros X; discriminate X).
  assert (C4 : 3 * units quarterTurn + 2 ^ 1025
               < units (3 * (JS.Math_PI / 2) + 1e-14))
    by (vm_compute; reflexivity).
  assert (N4 : units (- (3 * (JS.Math_PI / 2) + 1e-14))
               = - units (3 * (JS.Math_PI / 2) + 1e-14))
    by (vm_compute; reflexivity).
  assert (N3 : units (- (3 * (JS.Math_PI / 2) - 1e-14))
               = - units (3 * (JS.Math_PI / 2) - 1e-14))
    by (vm_compute; reflexivity).
  assert (N2 : units (- (JS.Math_PI / 2 + 1e-14))
               = - units (JS.Math_PI / 2 + 1e-14))
    by (vm_compute; reflexivity).
  assert (N1 : units (- (JS.Math_PI / 2 - 1e-14))
               = - units (JS.Math_PI / 2 - 1e-14))
    by (vm_compute; reflexivity).
  assert (Z0 : units 0 = 0) by reflexivity.
  rewrite C. clear C.
  set (Q := units quarterTurn) in *.
  set (e := 2 ^ 1025) in *.
  set (c1 := units (JS.Math_PI / 2 - 1e-14)) in *.
  set (c2 := units (JS.Math_PI / 2 + 1e-14)) in *.
  set (c3 := units (3 * (JS.Math_PI / 2) - 1e-14)) in *.
  set (c4 := units (3 * (JS.Math_PI / 2) + 1e-14)) in *.
  repeat split.
  - intros H1 H2.
    apply leb_units_le in H1; [|reflexivity|exact Fr].
    apply leb_units_le in H2; [|exact Fr|reflexivity].
    fold c1 in H2. rewrite Z0 in H1.
    rewrite (window_heads Q e (units r + 4 * Q) S 1); try lia. reflexivity.
  - intros H1 H2.
    apply leb_units_le in H1; [|reflexivity|exact Fr].
    apply leb_units_le in H2; [|exact Fr|reflexivity].
    fold c2 in H1. fold c3 in H2.
    rewrite (window_tails Q e (units r + 4 * Q) S 1); try lia. reflexivity.
  - intros H1.
    apply leb_units_le in H1; [|reflexivity|exact Fr].
    fold c4 in H1.
    rewrite (window_heads Q e (units r + 4 * Q) S 2); try lia. reflexivity.
  - intros H1.
    apply leb_units_le in H1; [|exact Fr|reflexivity].
    rewrite N4 in H1. fold c4 in H1.
    rewrite (window_heads Q e (units r + 4 * Q) S 0); try lia. reflexivity.
  - intros H1 H2.
    apply leb_units_le in H1; [|reflexivity|exact Fr].
    apply leb_units_le in H2; [|exact Fr|reflexivity].
    rewrite N3 in H1. rewrite N2 in H2. fold c3 in H1. fold c2 in H2.
    rewrite (window_tails Q e (units r + 4 * Q) S 0); try lia. reflexivity.
  - intros H1 H2.
    apply leb_units_le in H1; [|reflexivity|exact Fr].
    apply leb_units_le in H2; [|exact Fr|reflexivity].
    rewrite N1 in H1. rewrite Z0 in H2. fold c1 in H1.
    rewrite (window_heads Q e (units r + 4 * Q) S 1); try lia. reflexivity.
Qed.


(** Two finite numbers that are not zero and have the same value are the
    same number. *)
Lemma units_inj (a b : float) :
  is_finite a = true -> is_finite b = true ->
  units a <> 0 -> units a = units b -> a = b.
Proof.
  intros Ha Hb N E. apply Prim2SF_inj.
  pose proof (Prim2SF_valid a) as Va. pose proof (Prim2SF_valid b) as Vb.
  unfold units in *.
  destruct (is_finite_spec a Ha) as [[sa Ea]|(sa & ma & ea & Ea)];
    rewrite Ea in *; cbn [SFunits] in *; [congruence|].
  pose proof (valid_finite_bounds _ _ _ Va) as (Ba & _).
  pose proof (pow_units_pos ea (proj1 Ba)) as Pa.
  assert (Xa : 0 < Zpos ma * 2 ^ (ea + 1074)) by (apply Z.mul_pos_pos; lia).
  destruct (is_finite_spec b Hb) as [[sb Eb]|(sb & mb & eb & Eb)];
    rewrite Eb in *; cbn [SFunits] in *.
  - destruct sa; cbn [cond_Zopp] in E; lia.
  - pose proof (valid_finite_bounds _ _ _ Vb) as (Bb & _).
    pose proof (pow_units_pos eb (proj1 Bb)) as Pb.
    assert (Xb : 0 < Zpos mb * 2 ^ (eb + 1074)) by (apply Z.mul_pos_pos; lia).
    assert (Es : sa = sb).
    { destruct sa, sb; cbn [cond_Zopp] in E; try reflexivity; lia. }
    subst sb.
    assert (Em : Zpos ma * 2 ^ (ea + 1074) = Zpos mb * 2 ^ (eb + 1074)).
    { destruct sa; cbn [cond_Zopp] in E; lia. }
    assert (Ee : ea = eb).
    { destruct (Z.lt_trichotomy ea eb) as [L|[L|L]]; [|exact L|].
      - pose proof (units_exponent_lt ma mb ea eb sa sa Va Vb L). lia.
      - pose proof (units_exponent_lt mb ma eb ea sa sa Vb Va L). lia. }
    subst eb. apply Z.mul_cancel_r in Em; [|lia].
    congruence.
Qed.

(** [%] leaves a number smaller in magnitude than the divisor as it is. *)
Lemma rem_small (a : float) :
  (- (2 * JS.Math_PI) <? a)%float = true ->
  (a <? 2 * JS.Math_PI)%float = true ->
  JS.rem a (2 * JS.Math_PI) = a.
Proof.
  intros H1 H2.
  assert (Hf : is_finite a = true).
  { apply form_is_finite. revert H1 H2.
    rewrite !ltb_spec, opp_spec, twoPi_spec. cbn [SFopp negb].
    destruct (Prim2SF a) as [s|s| |s m e];
      [eauto|destruct s; cbn; intros; congruence|cbn; intros; congruence
      |eauto]. }
  assert (F2 : is_finite (2 * JS.Math_PI) = true) by reflexivity.
  assert (F3 : is_finite (- (2 * JS.Math_PI)) = true) by reflexivity.
  rewrite (ltb_units _ _ F3 Hf) in H1. rewrite (ltb_units _ _ Hf F2) in H2.
  apply Z.ltb_lt in H1, H2.
  assert (N : units (- (2 * JS.Math_PI)) = - units (2 * JS.Math_PI))
    by (vm_compute; reflexivity).
  rewrite N in H1.
  assert (P0 : 0 < units (2 * JS.Math_PI)) by (vm_compute; reflexivity).
  destruct (rem_units a (2 * JS.Math_PI) _ _ Hf twoPi_spec) as [Fr Ur].
  set (P := units (2 * JS.Math_PI)) in *.
  assert (Ur' : units (JS.rem a (2 * JS.Math_PI)) = units a).
  { rewrite Ur. destruct (Z_le_gt_dec 0 (units a)) as [L|G].
    - apply Z.rem_small. lia.
    - replace (units a) with (- - units a) at 1 by lia.
      rewrite Z.rem_opp_l by lia.
      rewrite Z.rem_small by lia. lia. }
  destruct (Z.eq_dec (units a) 0) as [Z0|NZ].
  - unfold units in Z0.
    destruct (is_finite_spec a Hf) as [[sa Ea]|(sa & ma & ea & Ea)].
    + unfold JS.rem. rewrite Ea, twoPi_spec. reflexivity.
    + exfalso. rewrite Ea in Z0. cbn [SFunits] in Z0.
      pose proof (Prim2SF_valid a) as Va. rewrite Ea in Va.
      pose proof (valid_finite_bounds _ _ _ Va) as (Ba & _).
      pose proof (pow_units_pos ea (proj1 Ba)) as Pa.
      assert (0 < Zpos ma * 2 ^ (ea + 1074)) by (apply Z.mul_pos_pos; lia).
      destruct sa; cbn [cond_Zopp] in Z0; lia.
  - apply units_inj; auto. congruence.
Qed.

End Units.

(** ** The script's constants *)

(** Every canvas [resizeCanvas] makes is, in metres, wide enough that a
    coin held against one wall is clear of the other: none of the wall
    tests holds for it.  (A canvas whose width is NaN has no walls at
    all.) *)
Lemma canvas_wide (rectWidth : float) :
  let W := canvasWidth (canvasOf rectWidth) / SCALE in
  (W <? 0.12 + 0.12) = false /\
  (W - 0.12 <? 0.12) = false /\
  (W - 0.12 - 0.12 <? 0) = false.
Proof.
  cbv zeta. unfold canvasOf, SCALE. cbn [canvasWidth].
  set (cw := JS.Math_max 600 (rectWidth - 40)).
  destruct (Binary64.Math_max_600 (rectWidth - 40)) as [Hn|H6];
    fold cw in Hn || fold cw in H6.
  - pose proof (Binary64.nan_propagates_div cw 100 Hn) as H1.
    pose proof (Binary64.nan_propagates_sub _ 0.12 H1) as H2.
    pose proof (Binary64.nan_propagates_sub _ 0.12 H2) as H3.
    repeat split; apply Binary64.nan_not_ltb; assumption.
  - assert (A0 : at_least (-43) (Prim2SF cw)).
    { apply (Binary64.leb_at_least 600 cw 5277655813324800 (-43));
        [reflexivity|reflexivity|exact H6]. }
    assert (A1 : at_least (-50) (Prim2SF (cw / 100))).
    { rewrite div_spec.
      replace (Prim2SF 100) with (S754_finite false 7036874417766400 (-46))
        by reflexivity.
      apply (Binary64.SFdiv_at_least _ _ (-46) (-43) A0);
        [vm_compute; split; [discriminate|reflexivity]
        |vm_compute; discriminate]. }
    assert (V12 : valid_binary (Prim2SF 0.12) = true) by apply Prim2SF_valid.
    assert (E12 : Prim2SF 0.12 = S754_finite false 8646911284551352 (-56))
      by reflexivity.
    rewrite E12 in V12.
    assert (A2 : at_least (-51) (Prim2SF (cw / 100 - 0.12))).
    { rewrite sub_spec, E12.
      apply (Binary64.SFsub_at_least _ _ (-56) (-50) A1 V12). lia. }
    assert (A3 : at_least (-52) (Prim2SF (cw / 100 - 0.12 - 0.12))).
    { rewrite sub_spec, E12.
      apply (Binary64.SFsub_at_least _ _ (-56) (-51) A2 V12). lia. }
    split; [|split]; rewrite ltb_spec.
    + replace (Prim2SF (0.12 + 0.12))
        with (S754_finite false 8646911284551352 (-55)) by reflexivity.
      apply (Binary64.at_least_not_ltb _ _ _ _ A1). lia.
    + rewrite E12. apply (Binary64.at_least_not_ltb _ _ _ _ A2). lia.
    + apply (Binary64.at_least_not_neg _ _ _ A3).
Qed.

(** The eight factors of the divergence run, applied to a base velocity in
    the normal positive range, give strictly increasing velocities. *)
Lemma variation_increases (v : float) (i : Z) :
  (1e-300 <=? v) = true -> (v <=? 1e300) = true ->
  (0 <= i < 7)%Z ->
  (v * variation i <? v * variation (i + 1)) = true.
Proof.
  intros Hlo Hhi Hi.
  destruct (Binary64.between_normal 1e-300 1e300 v
              6032057205060441 6724873095247260 (-1049) 944)
    as (mx & ex & Hv & Mx & Ex); try reflexivity; try assumption.
  assert (Hc : (i = 0 \/ i = 1 \/ i = 2 \/ i = 3 \/ i = 4 \/ i = 5 \/ i = 6)%Z)
    by lia.
  destruct Hc as [E|[E|[E|[E|[E|[E|E]]]]]]; subst i;
    (eapply (Binary64.mul_ltb v _ _ mx _ _ ex);
     [exact Hv
     |vm_compute; reflexivity
     |vm_compute; reflexivity
     |exact Mx
     |vm_compute; split; [discriminate|reflexivity]
     |vm_compute; split; [discriminate|reflexivity]
     |rewrite Binary64.emin_value; lia
     |unfold emax, prec; lia
     |rewrite Binary64.emin_value; lia
     |unfold emax, prec; lia
     |vm_compute; reflexivity]).
Qed.

(** ** The integrator step, field by field *)

(** What [integrate] leaves alone, and what it makes of the angle. *)
Lemma integrate_frame (c : Coin) (dt : float) :
  let c1 := integrate c dt in
  isSettled c1 = isSettled c /\ settleTimer c1 = settleTimer c /\
  result c1 = result c /\ radius c1 = radius c /\
  restitution c1 = restitution c /\ drag c1 = drag c /\ wind c1 = wind c /\
  mass c1 = mass c /\ colorIndex c1 = colorIndex c /\
  angularVelocity c1 = angularVelocity c /\
  angle c1 = angle c + angularVelocity c * dt.
Proof.
  destruct c; stage_integrate.
  case_if; repeat split; reflexivity.
Qed.

Lemma update_settled (w : World) (c : Coin) (dt : float) :
  isSettled c = true -> update w c dt = c.
Proof. intros H. unfold update. rewrite H. reflexivity. Qed.

Lemma updates_settled (w : World) (c : Coin) (dts : list float) :
  isSettled c = true -> updates w c dts = c.
Proof.
  intros H. unfold updates. induction dts as [|dt dts IH]; simpl.
  - reflexivity.
  - rewrite update_settled by exact H. exact IH.
Qed.

Lemma updates_app (w : World) (c : Coin) (dts1 dts2 : list float) :
  updates w c (dts1 ++ dts2) = updates w (updates w c dts1) dts2.
Proof. unfold updates. apply fold_left_app. Qed.

Lemma update_consistent (w : World) (c : Coin) (dt : float) :
  consistent c -> consistent (update w c dt).
Proof.
  unfold consistent. destruct c; cbv [isSettled result]. intros H.
  destruct isSettled0; [exact H|].
  destruct H as [[_ Hr]|[Hs' _]]; [|discriminate]. subst.
  step_cases; eauto.
Qed.

(** The step in which a coin settles classifies the angle it has then. *)
Lemma update_settles (w : World) (c : Coin) (dt : float) :
  isSettled c = false -> isSettled (update w c dt) = true ->
  result (update w c dt) = Some (classify (angle (update w c dt))) /\
  angle (update w c dt) = angle c + angularVelocity c * dt.
Proof.
  destruct c; cbv [isSettled angle angularVelocity]. intros Hs; subst.
  step_cases; intros H; try discriminate; split; reflexivity.
Qed.

(** The colour index takes no part in the step. *)
Lemma update_set_colorIndex (w : World) (c : Coin) (dt : float) (j : Z) :
  update w (set_colorIndex j c) dt = set_colorIndex j (update w c dt).
Proof.
  destruct c.
  step_cases; reflexivity.
Qed.

Lemma updates_set_colorIndex (w : World) (dts : list float) (c : Coin) (j : Z) :
  updates w (set_colorIndex j c) dts = set_colorIndex j (updates w c dts).
Proof.
  unfold updates. revert c.
  induction dts as [|dt dts IH]; intros c; simpl.
  - reflexivity.
  - rewrite update_set_colorIndex. apply IH.
Qed.

Lemma update_classified (w : World) (c : Coin) (dt : float) :
  classified c -> classified (update w c dt).
Proof.
  unfold classified. intros H H'.
  destruct (isSettled c) eqn:Hs.
  - rewrite update_settled in * by exact Hs. auto.
  - apply (update_settles w c dt Hs H').
Qed.

(** Settled is monotonic along any run, settled at the start or not. *)
Lemma settled_monotonic (w : World) (c : Coin) (dts1 dts2 : list float) :
  isSettled (updates w c dts1) = true ->
  isSettled (updates w c (dts1 ++ dts2)) = true.
Proof.
  intros H. rewrite updates_app, updates_settled by exact H. exact H.
Qed.

(** Without ground contact the step leaves [settleTimer] as it is. *)
Lemma airborne_keeps_settleTimer (w : World) (c : Coin) (dt : float) :
  let c1 := integrate c dt in
  isSettled c = false ->
  (groundY w <? y c1 + radius c1) = false ->
  settleTimer (update w c dt) = settleTimer c.
Proof.
  destruct c as [x0 y0 vx0 vy0 a0 av0 r0 m0 re0 d0 wi0 s0 st0 tr0 ci0 res0].
  cbv zeta. cbv [isSettled]. intros Hs; subst s0.
  step_cases; finish_cases.
Qed.

(** The step never changes the radius. *)
Lemma update_radius (w : World) (c : Coin) (dt : float) :
  radius (update w c dt) = radius c.
Proof.
  destruct c. step_cases; reflexivity.
Qed.

(** A coin whose position is NaN meets neither the ground nor a wall. *)
Lemma nan_position_no_collision (w : World) (c : Coin) (dt : float) :
  is_nan (x c) = true -> is_nan (y c) = true ->
  wallCollisions w (groundCollision w c dt) = c.
Proof.
  intros Hx Hy.
  unfold groundCollision.
  rewrite (Binary64.nan_not_gtb (groundY w) (y c + radius c))
    by (apply Binary64.nan_propagates_add_l, Hy).
  unfold wallCollisions, leftWall.
  rewrite (Binary64.nan_not_ltb (x c - radius c) 0)
    by (apply Binary64.nan_propagates_sub, Hx).
  unfold rightWall.
  rewrite (Binary64.nan_not_gtb (canvasWidth w / SCALE) (x c + radius c))
    by (apply Binary64.nan_propagates_add_l, Hx).
  reflexivity.
Qed.

(** Whenever the speed computed by a step is zero, the step leaves NaN in
    the velocity and in the position: the drag term is [0 * (v / 0)]. *)
Lemma zero_speed_always_yields_nan (w : World) (c : Coin) (dt : float) :
  let vy1 := vy c + GRAVITY * dt in
  let c' := update w c dt in
  isSettled c = false ->
  is_zero (sqrt (vx c * vx c + vy1 * vy1)) = true ->
  is_nan (vx c') = true /\ is_nan (vy c') = true /\
  is_nan (x c') = true /\ is_nan (y c') = true.
Proof.
  cbv zeta. intros Hs Hz. unfold update. rewrite Hs.
  set (speed := sqrt (vx c * vx c
                      + (vy c + GRAVITY * dt) * (vy c + GRAVITY * dt))) in *.
  pose proof (Binary64.zero_times_quotient_by_zero_is_nan
                (0.5 * drag c) (vx c) speed Hz) as Dx.
  pose proof (Binary64.zero_times_quotient_by_zero_is_nan
                (0.5 * drag c) (vy c + GRAVITY * dt) speed Hz) as Dy.
  assert (Vx : is_nan (vx (integrate c dt)) = true).
  { destruct c; stage_integrate. fold speed.
    case_if; cbv [vx]; apply Binary64.nan_propagates_add_l,
      Binary64.nan_propagates_add_r, Binary64.nan_propagates_mul_l, Dx. }
  assert (Vy : is_nan (vy (integrate c dt)) = true).
  { destruct c; stage_integrate. fold speed.
    case_if; cbv [vy]; apply Binary64.nan_propagates_add_r,
      Binary64.nan_propagates_mul_l, Dy. }
  assert (X : is_nan (x (integrate c dt)) = true).
  { destruct c; stage_integrate. fold speed.
    case_if; cbv [x]; apply Binary64.nan_propagates_add_r,
      Binary64.nan_propagates_mul_l, Binary64.nan_propagates_add_l,
      Binary64.nan_propagates_add_r, Binary64.nan_propagates_mul_l, Dx. }
  assert (Y : is_nan (y (integrate c dt)) = true).
  { destruct c; stage_integrate. fold speed.
    case_if; cbv [y]; apply Binary64.nan_propagates_add_r,
      Binary64.nan_propagates_mul_l, Binary64.nan_propagates_add_r,
      Binary64.nan_propagates_mul_l, Dy. }
  rewrite (nan_position_no_collision w (integrate c dt) dt X Y).
  repeat split; assumption.
Qed.

Section Runs.

Variable host : Host.

Lemma reachable_updates (w : World) (dts : list float) (c : Coin) :
  reachable host c -> reachable host (updates w c dts).
Proof.
  unfold updates. revert c.
  induction dts as [|dt dts IH]; intros c H; simpl.
  - exact H.
  - apply IH, reach_update, H.
Qed.

Lemma reachable_consistent (c : Coin) : reachable host c -> consistent c.
Proof.
  induction 1 as [x0 y0 p i|w c dt _ IH].
  - left. split; reflexivity.
  - apply update_consistent, IH.
Qed.

Lemma reachable_classified (c : Coin) : reachable host c -> classified c.
Proof.
  induction 1 as [x0 y0 p i|w c dt _ IH].
  - intros H. discriminate H.
  - apply update_classified, IH.
Qed.

Lemma reachable_radius (c : Coin) : reachable host c -> radius c = 0.12.
Proof.
  induction 1 as [x0 y0 p i|w c dt _ IH].
  - reflexivity.
  - rewrite update_radius. exact IH.
Qed.

End Runs.

(** * The claims *)

(** ** C1: division by the speed *)

(** C1 (the code departs from it). [update] divides by [speed] without
    testing it.  For [apexCoin], a coin with finite state, and [dt = 0.02]
    the speed after the gravity term is exactly 0, the drag term is
    [0 * (0 / 0)], and the step leaves NaN in the velocity and the
    position. *)
Theorem C1_zero_speed_yields_nan :
  let c := apexCoin in
  let dt := 0.02 in
  let vy1 := vy c + GRAVITY * dt in
  let c' := update world800 c dt in
  (0 <? dt) = true /\
  is_finite (x c) && is_finite (y c) && is_finite (vx c) && is_finite (vy c)
    && is_finite (angle c) && is_finite (angularVelocity c) = true /\
  sqrt (vx c * vx c + vy1 * vy1) = 0 /\
  is_nan (vx c') = true /\ is_nan (vy c') = true /\
  is_nan (x c') = true /\ is_nan (y c') = true.
Proof. vm_compute. repeat split; reflexivity. Qed.

(** The same unguarded division loses a coin launched with a finite but
    huge velocity: its squared speed overflows, and the first step divides
    infinity by infinity. *)
Lemma huge_launch_velocity_yields_nan :
  let p := Params.with_velocity default_params 1e200 in
  let c := newCoin testHost 4 3.5 p 0 in
  is_finite (vx c) && is_finite (vy c) = true /\
  is_nan (x (update world800 c 0.02)) = true.
Proof. vm_compute. split; reflexivity. Qed.

(** ** C2: the time step of a frame *)

(** C2 (as stated, refuted). When two frames fall in the same millisecond
    the time step is 0, and when the clock steps back it is negative:
    nothing raises it to a positive minimum. *)
Lemma C2_dt_not_raised_to_positive :
  ~ ((0 <? frame_dt 5000 5000) = true \/ (0 <? frame_dt 5000 5016) = true).
Proof. vm_compute. intros [H|H]; discriminate H. Qed.

(** C2 (amended). The time step of a frame is exactly
    [min(elapsed / 1000, 0.02)]: the elapsed time itself when that is
    below 0.02 s, a zero or a negative one included, as nothing raises
    it; 0.02 s when the elapsed time is 0.02 s or more; and NaN when it is
    NaN.  So it is at most 0.02 whenever it is a number, and [animate]
    steps every coin with exactly this value. *)
Theorem C2_dt_clamped_above_only (currentTime lastTime0 : float) :
  let elapsed := (currentTime - lastTime0) / 1000 in
  let dt := frame_dt currentTime lastTime0 in
  (is_nan elapsed = false -> (dt <=? 0.02) = true) /\
  ((elapsed <=? 0) = true -> dt = elapsed) /\
  ((elapsed <? 0.02) = true -> dt = elapsed) /\
  (is_nan elapsed = false -> (elapsed <? 0.02) = false -> dt = 0.02) /\
  (is_nan elapsed = true -> is_nan dt = true) /\
  (forall s, lastTime s = lastTime0 -> isSimulating s = true ->
             chaosCoins s <> [] ->
             chaosCoins (animate currentTime s)
             = map (fun c => update (world s) c dt) (chaosCoins s)).
Proof.
  cbv zeta. unfold frame_dt, JS.Math_min.
  set (e := (currentTime - lastTime0) / 1000).
  replace (is_nan 0.02) with false by reflexivity.
  rewrite orb_false_r.
  assert (P : exists m e', Prim2SF 0.02 = S754_finite false m e')
    by (eexists; eexists; vm_compute; reflexivity).
  split; [|split; [|split; [|split; [|split]]]].
  - intros Hn. rewrite Hn.
    destruct (e <? 0.02) eqn:H1; [apply Binary64.ltb_leb, H1|].
    destruct (0.02 <? e) eqn:H2; [reflexivity|].
    destruct (get_sign e); [|reflexivity].
    apply Binary64.not_lt_not_gt_leb; auto.
  - intros H0. rewrite (Binary64.leb_not_nan _ _ H0).
    rewrite (Binary64.nonpos_ltb_pos e 0.02 H0 P). reflexivity.
  - intros H1.
    rewrite (Binary64.leb_not_nan _ _ (Binary64.ltb_leb _ _ H1)), H1.
    reflexivity.
  - intros Hn H1. rewrite Hn, H1.
    destruct (0.02 <? e); [reflexivity|].
    destruct (get_sign e) eqn:G; [|reflexivity].
    rewrite (Binary64.get_sign_ltb_pos e 0.02 G P) in H1. discriminate H1.
  - intros Hn. rewrite Hn. reflexivity.
  - intros s Hl Hs Hc. unfold animate. rewrite Hl.
    destruct s as [w co sim coins st pa lt]. simpl in *. subst sim.
    destruct coins as [|c0 coins]; [congruence|].
    cbn [andb Nat.ltb Nat.leb length isSimulating chaosCoins set_lastTime
         set_chaosCoins set_isSimulating world].
    unfold frame_dt, JS.Math_min.
    replace (is_nan 0.02) with false by reflexivity.
    rewrite orb_false_r. fold e.
    match goal with |- context [if forallb ?f ?l then _ else _] =>
      destruct (forallb f l) end; [|reflexivity].
    cbn [set_isSimulating chaosCoins world coin stats params lastTime].
    match goal with |- context [match ?l with [] => _ | _ => _ end] =>
      destruct l as [|c1 [|c2 l']] end; try reflexivity.
    destruct (result c1); reflexivity.
Qed.

(** A frame 10 ms after the last one is stepped with 0.01 s, one 100 ms
    after it with the cap of 0.02 s, one exactly 20 ms after it with
    0.02 s, and one whose clock reading is 16 ms earlier with -0.016 s. *)
Lemma C2_dt_clamped_above_only_witness :
  frame_dt 5010 5000 = 0.01 /\ frame_dt 5100 5000 = 0.02 /\
  frame_dt 5020 5000 = 0.02 /\
  frame_dt 5000 5016 = (5000 - 5016) / 1000 /\
  is_nan (frame_dt nan 5000) = true.
Proof.
  pose proof (C2_dt_clamped_above_only 5010 5000) as (_ & _ & H1 & _).
  pose proof (C2_dt_clamped_above_only 5100 5000) as (_ & _ & _ & H2 & _).
  pose proof (C2_dt_clamped_above_only 5020 5000) as (_ & _ & _ & H3 & _).
  pose proof (C2_dt_clamped_above_only 5000 5016) as (_ & H4 & _).
  pose proof (C2_dt_clamped_above_only nan 5000) as (_ & _ & _ & _ & H5 & _).
  cbv zeta in *.
  split; [rewrite H1; reflexivity|].
  split; [apply H2; reflexivity|].
  split; [apply H3; reflexivity|].
  split; [apply H4; reflexivity|apply H5; reflexivity].
Defined.

(** ** C3: the settle check *)

(** C3. Take a coin that is not settled and, after the integration part of
    the step, is in ground contact ([y + radius > groundY]).  Let [vyb] and
    [vxb] be its velocity after the bounce.  If [|vyb| < 0.1] and
    [|vxb| < 0.1], the step adds [dt] to [settleTimer]; if the new
    [settleTimer] exceeds 0.5 the coin is then settled, [vx], [vy] and
    [angularVelocity] are zero and the outcome is computed from the angle,
    and otherwise it stays unsettled.  If the low-speed test fails,
    [settleTimer] is reset to 0. *)
Theorem C3_settle_check (w : World) (c : Coin) (dt : float) :
  let c1 := integrate c dt in
  let vyb := (- vy c1) * restitution c1 in
  let vxb := vx c1 * 0.95 in
  let c' := update w c dt in
  isSettled c = false ->
  (groundY w <? y c1 + radius c1) = true ->
  ((abs vyb <? 0.1) && (abs vxb <? 0.1) = true ->
     settleTimer c' = settleTimer c + dt /\
     ((0.5 <? settleTimer c + dt) = true ->
        isSettled c' = true /\ is_zero (vx c') = true /\ vy c' = 0 /\
        angularVelocity c' = 0 /\
        result c' = Some (classify (angle c + angularVelocity c * dt))) /\
     ((0.5 <? settleTimer c + dt) = false ->
        isSettled c' = false /\ result c' = result c)) /\
  ((abs vyb <? 0.1) && (abs vxb <? 0.1) = false ->
     settleTimer c' = 0 /\ isSettled c' = false /\ result c' = result c).
Proof.
  destruct c as [x0 y0 vx0 vy0 a0 av0 r0 m0 re0 d0 wi0 s0 st0 tr0 ci0 res0].
  cbv zeta. cbv [isSettled]. intros Hs; subst s0.
  step_cases; finish_cases.
Qed.

Lemma C3_settle_check_witness :
  isSettled (slowCoin 0.49) = false /\
  settleTimer (update world800 (slowCoin 0.49) 0.02) = 0.49 + 0.02 /\
  isSettled (update world800 (slowCoin 0.49) 0.02) = true /\
  settleTimer (update world800 (slowCoin 0.2) 0.02) = 0.2 + 0.02 /\
  isSettled (update world800 (slowCoin 0.2) 0.02) = false.
Proof.
  pose proof (C3_settle_check world800 (slowCoin 0.49) 0.02 eq_refl eq_refl)
    as [H _].
  pose proof (C3_settle_check world800 (slowCoin 0.2) 0.02 eq_refl eq_refl)
    as [H' _].
  destruct (H eq_refl) as (Ht & Hs & _).
  destruct (H' eq_refl) as (Ht' & _ & Hs').
  split; [reflexivity|].
  split; [exact Ht|]. split; [apply Hs; reflexivity|].
  split; [exact Ht'|]. apply Hs'; reflexivity.
Defined.

(** ** C4: a settled coin is never touched again *)

(** C4. For a coin with [isSettled = true], [update] returns it unchanged:
    position, velocity, rotation, settle timer, trajectory and outcome all
    stay as they are, for one step and for any number of steps; hence
    [isSettled], once true, is true after every later step. *)
Theorem C4_settled_step_is_noop (w : World) (c : Coin) :
  isSettled c = true ->
  (forall dt, update w c dt = c) /\
  (forall dts, updates w c dts = c) /\
  (forall dts, isSettled (updates w c dts) = true).
Proof.
  intros H. split; [|split].
  - intros dt. apply update_settled, H.
  - intros dts. apply updates_settled, H.
  - intros dts. rewrite updates_settled by exact H. exact H.
Qed.

Lemma C4_settled_step_is_noop_witness :
  isSettled restingCoin = true /\
  update world800 restingCoin 0.02 = restingCoin /\
  isSettled (updates world800 restingCoin [0.02; 0.016; 0.02]) = true.
Proof.
  pose proof (C4_settled_step_is_noop world800 restingCoin eq_refl)
    as (H1 & _ & H3).
  split; [reflexivity|]. split; [apply H1 | apply H3].
Defined.

(** ** C5: outcome and settled *)

(** The settling step.  For every coin of a run, the outcome is unresolved
    exactly when the coin is not settled.  In the step that takes a coin
    from not settled to settled, the outcome is heads if and only if the
    binary64 number [a = ((angle % 2pi) + 2pi) % 2pi] is below pi/2 or
    above 3(pi/2), and tails otherwise.  For a finite angle [a] lies in
    [[0, 2pi)]; the remainder [r = angle % 2pi] is exact (it is the angle
    itself when that is between -2pi and 2pi), but the sum [r + 2pi] is
    rounded, by up to [2 ^ -49]: the outcome is that of the rule on the
    exactly normalized angle whenever [r] is at least 1e-14 away from the
    quarter turns.  No later step changes the outcome. *)
Lemma settling_step_outcome (host : Host) (c : Coin) :
  reachable host c ->
  (result c = None <-> isSettled c = false) /\
  forall w dt,
    let c' := update w c dt in
    let r := angle c' %% (2 * JS.Math_PI) in
    let a := (r + 2 * JS.Math_PI) %% (2 * JS.Math_PI) in
    let q := JS.Math_PI / 2 in
    let tol := 1e-14 in
    isSettled c = false -> isSettled c' = true ->
    (result c' = Some Heads <-> (a <? q) = true \/ (3 * q <? a) = true) /\
    (result c' = Some Tails <-> (a <? q) = false /\ (3 * q <? a) = false) /\
    (is_finite (angle c') = true ->
       ((0 <=? a) = true /\ (a <? 2 * JS.Math_PI) = true) /\
       units r = Z.rem (units (angle c')) (units (2 * JS.Math_PI)) /\
       ((- (2 * JS.Math_PI) <? angle c') = true ->
        (angle c' <? 2 * JS.Math_PI) = true -> r = angle c') /\
       ((0 <=? r) = true -> (r <=? q - tol) = true ->
        result c' = Some Heads) /\
       ((q + tol <=? r) = true -> (r <=? 3 * q - tol) = true ->
        result c' = Some Tails) /\
       ((3 * q + tol <=? r) = true -> result c' = Some Heads) /\
       ((r <=? - (3 * q + tol)) = true -> result c' = Some Heads) /\
       ((- (3 * q - tol) <=? r) = true -> (r <=? - (q + tol)) = true ->
        result c' = Some Tails) /\
       ((- (q - tol) <=? r) = true -> (r <=? 0) = true ->
        result c' = Some Heads)) /\
    forall w' dts, result (updates w' c' dts) = result c'.
Proof.
  intros R. split.
  - destruct (reachable_consistent host c R) as [[Hs Hr]|[Hs [r Hr]]];
      rewrite Hs, Hr; split; intros H; try reflexivity; discriminate H.
  - intros w dt. cbv zeta. intros Hs Hs'.
    destruct (update_settles w c dt Hs Hs') as [Hr _].
    set (c' := update w c dt) in *.
    split; [|split; [|split]].
    + rewrite Hr. unfold classify, quarterTurn, normalizedAngle.
      destruct (((angle c' %% (2 * JS.Math_PI)) + 2 * JS.Math_PI)
                %% (2 * JS.Math_PI) <? JS.Math_PI / 2);
        destruct (3 * (JS.Math_PI / 2)
                  <? ((angle c' %% (2 * JS.Math_PI)) + 2 * JS.Math_PI)
                     %% (2 * JS.Math_PI));
        simpl; split; intros H; try reflexivity; try discriminate H; auto;
        destruct H as [H|H]; discriminate H.
    + rewrite Hr. unfold classify, quarterTurn, normalizedAngle.
      destruct (((angle c' %% (2 * JS.Math_PI)) + 2 * JS.Math_PI)
                %% (2 * JS.Math_PI) <? JS.Math_PI / 2);
        destruct (3 * (JS.Math_PI / 2)
                  <? ((angle c' %% (2 * JS.Math_PI)) + 2 * JS.Math_PI)
                     %% (2 * JS.Math_PI));
        simpl; split; intros H; try discriminate H; auto;
        destruct H as [H1 H2]; try discriminate H1; discriminate H2.
    + intros Hf.
      split; [exact (Binary64.normalizedAngle_range (angle c') Hf)|].
      split; [exact (proj2 (Units.rem_units (angle c') (2 * JS.Math_PI) _ _
                              Hf Binary64.twoPi_spec))|].
      split; [exact (Units.rem_small (angle c'))|].
      rewrite Hr.
      destruct (Units.classify_away_from_boundary (angle c') Hf)
        as (T1 & T2 & T3 & T4 & T5 & T6).
      repeat split; intros; f_equal; auto.
    + intros w' dts. rewrite updates_settled by exact Hs'. reflexivity.
Qed.

(** The default coin, 214 frames of 0.02 s after its launch: the next
    frame settles it at the angle 55.80449808500704, whose remainder
    5.53901562757035 is in the last quarter of a turn, heads up, and two
    more frames leave the outcome as it is. *)
Example settling_step_of_default_coin :
  let c := updates world800 (newCoin testHost 4 3.5 default_params 0)
             (repeat 0.02 214) in
  isSettled c = false /\ result c = None /\
  isSettled (update world800 c 0.02) = true /\
  result (update world800 c 0.02) = Some Heads /\
  result (updates world800 (update world800 c 0.02) [0.02; 0.02])
  = Some Heads.
Proof.
  cbv zeta.
  set (c := updates world800 (newCoin testHost 4 3.5 default_params 0)
              (repeat 0.02 214)).
  assert (Hs : isSettled c = false) by (vm_compute; reflexivity).
  assert (Hs' : isSettled (update world800 c 0.02) = true)
    by (vm_compute; reflexivity).
  assert (Hf : is_finite (angle (update world800 c 0.02)) = true)
    by (vm_compute; reflexivity).
  pose proof (settling_step_outcome testHost c
                (reachable_updates testHost world800 _ _
                   (reach_new testHost 4 3.5 default_params 0)))
    as [H1 H2].
  destruct (H2 world800 0.02 Hs Hs') as (_ & _ & Ha & Hk).
  destruct (Ha Hf) as (_ & _ & _ & _ & _ & T3 & _).
  assert (Hr : result (update world800 c 0.02) = Some Heads).
  { apply T3. vm_compute. reflexivity. }
  split; [exact Hs|]. split; [apply H1, Hs|].
  split; [exact Hs'|]. split; [exact Hr|].
  rewrite Hk. exact Hr.
Qed.

(** C5. The outcome is unresolved while the coin is not settled and is
    set in the step that settles it, but not always as the rule on the
    normalized angle has it.  A flip from 2 m with restitution 0.5 and a
    spin of 0.6061284633825895 rad/s is not settled, with no outcome,
    after 203 frames 20 ms apart, and settles in its 204th frame at the
    angle 1.5707963267948963: a number in [[0, 2pi)], which normalizing
    leaves as it is, and below pi/2, so that the rule gives heads.  The
    sum [angle + 2pi] rounds up, [a] is pi/2, and the coin is tails and
    counted as tails. *)
Theorem C5_angle_below_quarter_turn_is_tails :
  let s0 := flipOnce testHost (set_params edgeParams (initial 840 0)) in
  let s := frames (frameTimes 204 0) s0 in
  (exists b,
      coinObject (frames (frameTimes 203 0) s0) = Some b /\
      isSettled b = false /\ result b = None) /\
  exists c,
    coinObject s = Some c /\ reachable testHost c /\
    isSettled c = true /\ angle c = 1.5707963267948963 /\
    (0 <=? angle c) = true /\ (angle c <? 2 * JS.Math_PI) = true /\
    angle c %% (2 * JS.Math_PI) = angle c /\
    (angle c <? JS.Math_PI / 2) = true /\
    ((angle c %% (2 * JS.Math_PI)) + 2 * JS.Math_PI) %% (2 * JS.Math_PI)
    = JS.Math_PI / 2 /\
    result c = Some Tails /\
    stats s = mkStats 1 0 1.
Proof.
  cbv zeta. split.
  - exists (updates world800 (newCoin testHost 4 3 edgeParams 0)
              (repeat 0.02 203)).
    repeat match goal with |- _ /\ _ => split end; vm_compute; reflexivity.
  - exists (updates world800 (newCoin testHost 4 3 edgeParams 0)
              (repeat 0.02 204)).
    split; [vm_compute; reflexivity|].
    split; [apply reachable_updates, reach_new|].
    repeat match goal with |- _ /\ _ => split end; vm_compute; reflexivity.
Qed.

(** ** C6: the divergence run *)

(** C6 (as stated, refuted). With a base launch velocity of 0 the eight
    launch velocities are all zero and do not increase. *)
Lemma C6_zero_base_velocity_not_increasing :
  ~ (Params.velocity (modifiedParams stillParams 0)
     <? Params.velocity (modifiedParams stillParams 1)) = true.
Proof. vm_compute. discriminate. Qed.

(** C6 (amended). A divergence run constructs eight coins; coin [i] is
    constructed at the common start position from the parameters of the
    run with the launch velocity multiplied by [1 + (i - 3.5) * 0.002] and
    every other parameter unchanged, and has colour index [i].  Whenever
    the base launch velocity lies between 1e-300 and 1e300, the launch
    velocities strictly increase with [i]. *)
Theorem C6_divergence_velocities (host : Host) (s : Sim) :
  isSimulating s = false ->
  let p := params s in
  let s' := runChaosDemo host s in
  length (chaosCoins s') = 8%nat /\
  chaosCoins s'
  = map (fun i => newCoin host (startX s) (startY s) (modifiedParams p i) i)
        [0; 1; 2; 3; 4; 5; 6; 7]%Z /\
  (forall i,
      let q := modifiedParams p i in
      Params.velocity q
      = Params.velocity p * (1 + (num_of_Z i - 3.5) * 0.002) /\
      Params.height q = Params.height p /\ Params.spin q = Params.spin p /\
      Params.angle q = Params.angle p /\ Params.wind q = Params.wind p /\
      Params.restitution q = Params.restitution p /\
      Params.drag q = Params.drag p) /\
  ((1e-300 <=? Params.velocity p) = true ->
   (Params.velocity p <=? 1e300) = true ->
   forall i, (0 <= i < 7)%Z ->
     (Params.velocity (modifiedParams p i)
      <? Params.velocity (modifiedParams p (i + 1))) = true).
Proof.
  intros Hs. cbv zeta. unfold runChaosDemo. rewrite Hs.
  split; [reflexivity|]. split; [reflexivity|]. split.
  - intros i. repeat split; reflexivity.
  - intros Hlo Hhi i Hi.
    cbn [modifiedParams Params.with_velocity Params.velocity].
    apply variation_increases; assumption.
Qed.

Lemma C6_divergence_velocities_witness :
  let s := initial 840 0 in
  isSimulating s = false /\
  length (chaosCoins (runChaosDemo testHost s)) = 8%nat /\
  (Params.velocity (modifiedParams default_params 3)
   <? Params.velocity (modifiedParams default_params 4)) = true.
Proof.
  cbv zeta.
  pose proof (C6_divergence_velocities testHost (initial 840 0) eq_refl)
    as (H1 & _ & _ & H4).
  split; [reflexivity|]. split; [exact H1|].
  apply (H4 eq_refl eq_refl 3%Z). lia.
Defined.

(** ** C7: the walls *)

(** One step of a coin that is still stepping, in a canvas the script
    made. *)
Lemma wall_clamp_step (host : Host) (c : Coin) (rectWidth dt : float) :
  reachable host c -> isSettled c = false ->
  let w := canvasOf rectWidth in
  let W := canvasWidth w / SCALE in
  let c1 := integrate c dt in
  let c2 := groundCollision w c1 dt in
  let c' := update w c dt in
  ((x c1 - radius c <? 0) = true ->
     x c' = radius c /\ vx c' = (- vx c2) * 0.8) /\
  ((x c1 - radius c <? 0) = false -> (W <? x c1 + radius c) = true ->
     x c' = W - radius c /\ vx c' = (- vx c2) * 0.8) /\
  (x c' <? radius c) = false /\
  (x c' - radius c <? 0) = false.
Proof.
  intros R Hs. pose proof (reachable_radius host c R) as Hr. clear R.
  pose proof (canvas_wide rectWidth) as (H1 & H2 & H3). cbv zeta in H1, H2, H3.
  destruct c as [x0 y0 vx0 vy0 a0 av0 r0 m0 re0 d0 wi0 s0 st0 tr0 ci0 res0].
  cbv [isSettled radius] in Hs, Hr. subst s0 r0. cbv zeta.
  step_cases;
    repeat match goal with
           | H : (canvasWidth _ / SCALE <? 0.12 + 0.12) = true |- _ =>
               exfalso; apply (eq_true_false_abs _ H); exact H1
           | H : ?a = true, H' : ?a = false |- _ =>
               exfalso; apply (eq_true_false_abs _ H H')
           | |- _ /\ _ => split
           | |- _ -> _ => let H := fresh in intro H; try discriminate H
           | |- _ = _ => reflexivity
           | |- _ = false => first [exact H2 | exact H3 | assumption]
           | H : (?a - ?b <? 0) = false |- (?a <? ?b) = false =>
               apply Binary64.not_sub_neg_not_ltb, H
           end.
Qed.


(** Once a constructed coin has been stepped, it is not behind the left
    wall, and stays so. *)
Lemma stepsIn_clear_of_wall (host : Host) (x0 y0 : float) (p : Params.t)
    (i : Z) (steps : list (float * float)) :
  steps <> [] ->
  let c := stepsIn (newCoin host x0 y0 p i) steps in
  (x c <? radius c) = false /\ (x c - radius c <? 0) = false.
Proof.
  intros Hne. cbv zeta.
  destruct steps as [|[rw dt] steps]; [congruence|]. clear Hne.
  unfold stepsIn. cbn [fold_left fst snd].
  pose proof (wall_clamp_step host (newCoin host x0 y0 p i) rw dt
                (reach_new host x0 y0 p i) eq_refl) as (_ & _ & H0).
  cbv zeta in H0. rewrite <- (update_radius (canvasOf rw) _ dt) in H0.
  assert (R0 : reachable host
                 (update (canvasOf rw) (newCoin host x0 y0 p i) dt))
    by (apply reach_update, reach_new).
  revert H0 R0.
  generalize (update (canvasOf rw) (newCoin host x0 y0 p i) dt).
  induction steps as [|[rw' dt'] steps IH]; intros c H0 R0.
  - exact H0.
  - cbn [fold_left fst snd]. apply IH.
    + destruct (isSettled c) eqn:Hs.
      * rewrite update_settled by exact Hs. exact H0.
      * pose proof (wall_clamp_step host c rw' dt' R0 Hs) as (_ & _ & H1).
        cbv zeta in H1. rewrite update_radius. exact H1.
    + apply reach_update, R0.
Qed.

(** C7. Take any coin of a run that is still stepping, in any canvas the
    script makes.  If after the position integration [x - radius < 0], the
    step leaves [x = radius] and replaces [vx] by [-vx * 0.8]; if instead
    [x + radius] exceeds the world width, it leaves
    [x = worldWidth - radius] and replaces [vx] by [-vx * 0.8].  After the
    step the coin is not left with [x < radius], nor with
    [x - radius < 0]; and so it is for every coin after every step of its
    run, settled or not. *)
Theorem C7_wall_clamp (host : Host) :
  (forall (c : Coin) (rectWidth dt : float),
      reachable host c -> isSettled c = false ->
      let w := canvasOf rectWidth in
      let W := canvasWidth w / SCALE in
      let c1 := integrate c dt in
      let c2 := groundCollision w c1 dt in
      let c' := update w c dt in
      ((x c1 - radius c <? 0) = true ->
         x c' = radius c /\ vx c' = (- vx c2) * 0.8) /\
      ((x c1 - radius c <? 0) = false -> (W <? x c1 + radius c) = true ->
         x c' = W - radius c /\ vx c' = (- vx c2) * 0.8) /\
      (x c' <? radius c) = false /\
      (x c' - radius c <? 0) = false) /\
  (forall (x0 y0 : float) (p : Params.t) (i : Z) (steps : list (float * float)),
      steps <> [] ->
      let c := stepsIn (newCoin host x0 y0 p i) steps in
      (x c <? radius c) = false /\ (x c - radius c <? 0) = false).
Proof.
  split.
  - intros c rectWidth dt R Hs.
    apply (wall_clamp_step host c rectWidth dt R Hs).
  - intros x0 y0 p i steps. apply stepsIn_clear_of_wall.
Qed.

Lemma C7_wall_clamp_witness :
  let c := newCoin testHost 0.05 3.5 default_params 0 in
  isSettled c = false /\
  x (update (canvasOf 840) c 0.02) = 0.12 /\
  (x (update (canvasOf 840) c 0.02) <? 0.12) = false.
Proof.
  cbv zeta.
  pose proof (proj1 (C7_wall_clamp testHost)
                (newCoin testHost 0.05 3.5 default_params 0) 840 0.02
                (reach_new testHost 0.05 3.5 default_params 0) eq_refl)
    as (H1 & _ & H3 & _).
  split; [reflexivity|]. split; [|exact H3].
  apply H1. vm_compute. reflexivity.
Defined.

(** ** C8: the aggregate statistics *)

Lemma updateStats_total (r : Outcome) (st : Stats) :
  total (updateStats r st) = (total st + 1)%Z.
Proof. destruct r; reflexivity. Qed.

Lemma updateStats_ok (r : Outcome) (st : Stats) :
  stats_ok st -> stats_ok (updateStats r st).
Proof. unfold stats_ok. destruct r; simpl; lia. Qed.

(** A frame changes the statistics by at most one classification. *)
Lemma animate_stats (t : float) (s : Sim) :
  stats (animate t s) = stats s \/
  exists r, stats (animate t s) = updateStats r (stats s).
Proof.
  unfold animate.
  destruct s as [w co sim coins st pa lt].
  cbn [isSimulating chaosCoins set_lastTime set_chaosCoins world stats
       lastTime coin params].
  destruct (sim && (0 <? length coins)%nat); [|left; reflexivity].
  match goal with |- context [if forallb ?f ?l then _ else _] =>
    destruct (forallb f l) end; [|left; reflexivity].
  cbn [set_isSimulating chaosCoins world coin stats params lastTime].
  match goal with |- context [match ?l with [] => _ | _ => _ end] =>
    destruct l as [|c1 [|c2 l']] end; try (left; reflexivity).
  destruct (result c1) as [r|]; [right; exists r|left]; reflexivity.
Qed.

Section Orchestrator.

Variable host : Host.

Lemma apply_op_stats_ok (o : Op) (s : Sim) :
  stats_ok (stats s) -> stats_ok (stats (apply_op host o s)).
Proof.
  intros H. destruct o; simpl.
  - unfold flipOnce. destruct (isSimulating s); exact H.
  - exact H.
  - unfold runChaosDemo. destruct (isSimulating s); exact H.
  - exact H.
  - reflexivity.
  - destruct (animate_stats currentTime s) as [E|[r E]]; rewrite E.
    + exact H.
    + apply updateStats_ok, H.
  - exact H.
  - exact H.
Qed.

Lemma run_ops_stats_ok (ops : list Op) (s : Sim) :
  stats_ok (stats s) -> stats_ok (stats (run_ops host ops s)).
Proof.
  unfold run_ops. revert s.
  induction ops as [|o ops IH]; intros s H; simpl.
  - exact H.
  - apply IH, apply_op_stats_ok, H.
Qed.

Lemma runSingleFlip_flipState (s : Sim) :
  flipState (stats s) (runSingleFlip host s).
Proof.
  split; [reflexivity|].
  eexists. split; [reflexivity|]. split.
  - left. split; reflexivity.
  - left. repeat split; reflexivity.
Qed.

Lemma animate_flipState (st0 : Stats) (t : float) (s : Sim) :
  flipState st0 s -> flipState st0 (animate t s).
Proof.
  intros (Hc & c & Hl & Hcons & H).
  destruct s as [w co sim coins st pa lt]. simpl in *. subst co coins.
  destruct H as [(Hsim & Hs & Hst)|(Hsim & Hs & r & Hst)]; subst sim.
  - pose proof (update_consistent w c (frame_dt t lt) Hcons) as Hcons'.
    sim_eval.
    destruct (isSettled (update w c (frame_dt t lt))) eqn:Hs'.
    + destruct Hcons' as [[Hf _]|[_ [r Hr]]]; [congruence|].
      rewrite Hr. sim_eval. split; [reflexivity|].
      eexists. split; [reflexivity|]. split.
      * right. split; [exact Hs'|]. exists r. exact Hr.
      * right. split; [reflexivity|]. split; [exact Hs'|].
        exists r. simpl. rewrite Hst. reflexivity.
    + split; [reflexivity|].
      eexists. split; [reflexivity|]. split; [exact Hcons'|].
      left. repeat split; assumption.
  - sim_eval. split; [reflexivity|].
    exists c. split; [reflexivity|]. split; [exact Hcons|].
    right. split; [reflexivity|]. split; [exact Hs|]. exists r. exact Hst.
Qed.

Lemma frames_flipState (st0 : Stats) (times : list float) (s : Sim) :
  flipState st0 s -> flipState st0 (frames times s).
Proof.
  unfold frames. revert s.
  induction times as [|t times IH]; intros s H; simpl.
  - exact H.
  - apply IH, animate_flipState, H.
Qed.

(** A flip that has settled its coin has counted exactly one
    classification. *)
Lemma singleRun_counts_one (s : Sim) (times : list float) :
  coinSettled (singleRun host s times) = true ->
  exists r,
    stats (singleRun host s times) = updateStats r (stats s).
Proof.
  pose proof (frames_flipState (stats s) times
                (runSingleFlip host s)
                (runSingleFlip_flipState s)) as (Hc & c & Hl & _ & H).
  unfold singleRun, coinSettled, coinObject.
  rewrite Hc, Hl. simpl. intros Hs.
  destruct H as [(_ & Hf & _)|(_ & _ & r & Hr)]; [congruence|].
  exists r. exact Hr.
Qed.

Lemma batch_total (runs : list (list float)) (s : Sim) :
  allSettle host s runs = true ->
  total (stats (batch host s runs))
  = (total (stats s) + Z.of_nat (length runs))%Z.
Proof.
  unfold batch. revert s.
  induction runs as [|times runs IH]; intros s H.
  - simpl. lia.
  - simpl in H. apply andb_true_iff in H as [H1 H2].
    cbn [fold_left length]. rewrite IH by exact H2.
    destruct (singleRun_counts_one s times H1) as [r Hr].
    rewrite Hr, updateStats_total. lia.
Qed.

Lemma batch_stats_ok (runs : list (list float)) (s : Sim) :
  allSettle host s runs = true ->
  stats_ok (stats s) -> stats_ok (stats (batch host s runs)).
Proof.
  unfold batch. revert s.
  induction runs as [|times runs IH]; intros s Hs Hok.
  - exact Hok.
  - simpl in Hs. apply andb_true_iff in Hs as [H1 H2].
    cbn [fold_left]. apply IH; [exact H2|].
    destruct (singleRun_counts_one s times H1) as [r Hr].
    rewrite Hr. apply updateStats_ok, Hok.
Qed.

(** C8. In every state the page can reach, [heads + tails = total].  A
    classification adds one to [total] and one to exactly one of [heads]
    and [tails]; a batch of 100 flips, each settled before the next starts,
    adds exactly 100 to [total]; and [clearStats] sets the three counters
    to 0 and leaves the coins of a run in flight, and whether it is
    running, as they are. *)
Theorem C8_stats_invariant
    (rectWidth now : float) (ops : list Op) (framesOf : nat -> list float) :
  let s := run_ops host ops (initial rectWidth now) in
  stats_ok (stats s) /\
  (forall r st,
      total (updateStats r st) = (total st + 1)%Z /\
      ((heads (updateStats r st) = (heads st + 1)%Z /\
        tails (updateStats r st) = tails st) \/
       (heads (updateStats r st) = heads st /\
        tails (updateStats r st) = (tails st + 1)%Z))) /\
  (isSimulating s = false ->
   allSettle host s (map framesOf (seq 0 100)) = true ->
   total (stats (run100Times host framesOf s)) = (total (stats s) + 100)%Z /\
   stats_ok (stats (run100Times host framesOf s))) /\
  stats (clearStats s) = mkStats 0 0 0 /\
  chaosCoins (clearStats s) = chaosCoins s /\
  coin (clearStats s) = coin s /\
  isSimulating (clearStats s) = isSimulating s.
Proof.
  cbv zeta.
  assert (Hok : stats_ok (stats (run_ops host ops (initial rectWidth now)))).
  { apply run_ops_stats_ok. reflexivity. }
  split; [exact Hok|]. split.
  { intros r st. destruct r; simpl; auto. }
  split.
  { intros Hsim Hruns. unfold run100Times. rewrite Hsim. split.
    - rewrite batch_total by exact Hruns.
      rewrite length_map, length_seq. reflexivity.
    - apply batch_stats_ok; assumption. }
  repeat split; reflexivity.
Qed.

End Orchestrator.

(** A hundred flips of the default coin, five seconds of frames each. *)
Lemma C8_stats_invariant_witness :
  let s := initial 840 0 in
  isSimulating s = false /\
  allSettle testHost s (map testFrames (seq 0 100)) = true /\
  total (stats (run100Times testHost testFrames s)) = 100%Z /\
  stats_ok (stats (run100Times testHost testFrames s)).
Proof.
  cbv zeta.
  assert (Hruns : allSettle testHost (initial 840 0)
                    (map testFrames (seq 0 100)) = true)
    by (vm_compute; reflexivity).
  pose proof (C8_stats_invariant testHost 840 0 [] testFrames)
    as (_ & _ & H & _).
  destruct (H eq_refl Hruns) as [Ht Hok].
  split; [reflexivity|]. split; [exact Hruns|]. split; [exact Ht|exact Hok].
Defined.

Section Constructed.

Variable host : Host.

(** ** C9: the constructor *)

(** C9. A coin is constructed with angle exactly 0, angular velocity equal
    to the spin parameter, not settled, settle timer 0, no outcome and an
    empty trajectory; so whenever one of its runs has settled it, the
    outcome is the classification of the angle accumulated since 0. *)
Theorem C9_constructor_initial_state
    (x0 y0 : float) (p : Params.t) (i : Z) :
  let c := newCoin host x0 y0 p i in
  angle c = 0 /\ angularVelocity c = Params.spin p /\
  isSettled c = false /\ settleTimer c = 0 /\ result c = None /\
  trajectory c = [] /\
  forall w dts,
    isSettled (updates w c dts) = true ->
    result (updates w c dts) = Some (classify (angle (updates w c dts))).
Proof.
  cbv zeta. repeat (split; [reflexivity|]).
  intros w dts.
  apply (reachable_classified host (updates w (newCoin host x0 y0 p i) dts)).
  apply reachable_updates, reach_new.
Qed.

(** ** C10: determinism

    [update] and [determineResult] read the coin, the time step and the
    two canvas bounds, and nothing else: no clock and no random source.
    They are embedded as the functions [update] and [classify] of exactly
    these arguments, so that two runs from equal coins over equal steps
    agree whatever the two functions compute: the embedding has no place
    where a random source would show, and a statement of this kind could
    not fail.  None is made. *)

End Constructed.

(** * Further properties of the script *)

(** ** More binary64 arithmetic *)

Module Rounding.

Local Open Scope Z_scope.

Lemma shr_fexp_nonneg (m e : Z) (l : location) :
  0 <= m -> 0 <= shr_m (fst (shr_fexp prec emax m e l)).
Proof.
  intros Hm. unfold shr_fexp, shr.
  destruct (SpecFloat.fexp prec emax (Zdigits2 m + e) - e) as [|n|n];
    cbn [fst]; rewrite ?Binary64.shr_record_of_loc_m; try exact Hm.
  rewrite Binary64.shr_iter_m
    by (rewrite Binary64.shr_record_of_loc_m; exact Hm).
  rewrite Binary64.shr_record_of_loc_m. apply Z.div_pos; [exact Hm|].
  apply Z.pow_pos_nonneg; lia.
Qed.

(** Rounding a mantissa that is not negative gives a zero, a finite number
    or an infinity of the requested sign, whatever the exponent. *)
Lemma binary_round_aux_signed (s : bool) (m e : Z) (l : location) :
  0 <= m ->
  binary_round_aux prec emax s m e l = S754_zero s \/
  (exists m' e', binary_round_aux prec emax s m e l = S754_finite s m' e') \/
  binary_round_aux prec emax s m e l = S754_infinity s.
Proof.
  intros Hm. unfold binary_round_aux.
  pose proof (shr_fexp_nonneg m e l Hm) as H1.
  destruct (shr_fexp prec emax m e l) as [mrs1 e1]. cbn [fst] in H1.
  pose proof (Binary64.round_nearest_even_bounds (shr_m mrs1)
                (loc_of_shr_record mrs1)) as [H2 _].
  pose proof (shr_fexp_nonneg
                (round_nearest_even (shr_m mrs1) (loc_of_shr_record mrs1))
                e1 loc_Exact ltac:(lia)) as H3.
  destruct (shr_fexp prec emax
              (round_nearest_even (shr_m mrs1) (loc_of_shr_record mrs1))
              e1 loc_Exact) as [mrs2 e2].
  cbn [fst] in H3.
  destruct (shr_m mrs2) as [|m3|m3]; [left; reflexivity| |lia].
  right. destruct (e2 <=? emax - prec); [left; eauto|right; reflexivity].
Qed.

(** The sum of a positive finite number and 0.7 is above one half. *)
Lemma SFadd_above_half (mr : positive) (er : Z) :
  valid_binary (S754_finite false mr er) = true ->
  SFltb (S754_finite false 4503599627370496 (-53))
        (SFadd prec emax (S754_finite false mr er)
               (S754_finite false 6305039478318694 (-53))) = true.
Proof.
  intros V.
  pose proof (Binary64.valid_finite_bounds false mr er V) as (Er & _).
  rewrite Binary64.emin_value in Er. unfold prec, emax in *.
  cbn [SFadd cond_Zopp].
  remember (Z.min er (-53)) as ez eqn:Hez.
  destruct (Binary64.shl_align_value mr er ez ltac:(lia)) as [Za _].
  destruct (Binary64.shl_align_value 6305039478318694 (-53) ez ltac:(lia))
    as [Zb _].
  rewrite Za, Zb.
  assert (P0 : 0 < 2 ^ (er - ez)) by (apply Z.pow_pos_nonneg; lia).
  assert (P1 : 0 < 2 ^ (-53 - ez)) by (apply Z.pow_pos_nonneg; lia).
  remember (2 ^ (-53 - ez)) as t eqn:Ht.
  assert (Hp : 6305039478318694 * t
               <= Zpos mr * 2 ^ (er - ez) + 6305039478318694 * t) by nia.
  destruct (Zpos mr * 2 ^ (er - ez) + 6305039478318694 * t)
    as [|p|p] eqn:Ep; try lia.
  assert (Dp : 52 + (-53 - ez) < Zpos (digits2_pos p)).
  { apply Binary64.digits2_pos_gt; [lia|].
    rewrite Z.pow_add_r by lia. rewrite <- Ht.
    change (2 ^ 52) with 4503599627370496. nia. }
  unfold binary_normalize, binary_round, shl_align, SpecFloat.fexp.
  change (SpecFloat.emin 53 1024) with (-1074).
  destruct (Z.max (Zpos (digits2_pos p) + ez - 53) (-1074) - ez)
    as [|u|u] eqn:Eu; try lia;
    (destruct (Binary64.binary_round_aux_normal false p ez loc_Exact)
       as (m' & e' & R & N & Ee & B);
     [unfold prec; lia|rewrite Binary64.emin_value; unfold prec; lia|]);
    unfold prec, emax in *; rewrite R;
    (destruct (e' <=? 1024 - 53); [|reflexivity]);
    unfold SFltb, SFcompare;
    (destruct (Z.compare_spec (-53) e') as [E|L|G]; [|reflexivity|lia]);
    subst e';
    assert (Hn : Zpos (digits2_pos p) - 53 = -53 - ez) by lia;
    rewrite Hn in B; rewrite <- Ht in B;
    rewrite Pos.compare_cont_spec; cbn [Pos.switch_Eq];
    (rewrite (proj2 (Pos.compare_lt_iff 4503599627370496 m'));
     [reflexivity|]);
    assert (6305039478318693 * t <= Zpos m' * t) by lia;
    nia.
Qed.

(** In the normal range the shift to the format's exponent does not depend
    on the exponent. *)
Lemma shr_fexp_succ (m : positive) (e : Z) (l : location) :
  emin <= Zpos (digits2_pos m) + e - prec ->
  shr_fexp prec emax (Zpos m) (e + 1) l
  = (fst (shr_fexp prec emax (Zpos m) e l),
     snd (shr_fexp prec emax (Zpos m) e l) + 1).
Proof.
  intros H. unfold shr_fexp, shr, SpecFloat.fexp. cbn [Zdigits2].
  rewrite Binary64.emin_value in *. unfold prec in *.
  replace (Z.max (Zpos (digits2_pos m) + (e + 1) - 53) (-1074) - (e + 1))
    with (Zpos (digits2_pos m) - 53) by lia.
  replace (Z.max (Zpos (digits2_pos m) + e - 53) (-1074) - e)
    with (Zpos (digits2_pos m) - 53) by lia.
  destruct (Zpos (digits2_pos m) - 53) as [|n|n]; cbn [fst snd];
    f_equal; lia.
Qed.

(** So a mantissa rounded one binade higher gives the same mantissa, one
    binade higher. *)
Lemma binary_round_aux_succ (s : bool) (p : positive) (E : Z) (l : location) :
  let n := Zpos (digits2_pos p) - prec in
  0 <= n -> emin <= E + n ->
  binary_round_aux prec emax s (Zpos p) (E + 1) l
  = match binary_round_aux prec emax s (Zpos p) E l with
    | S754_finite s' m e =>
        if e + 1 <=? emax - prec then S754_finite s' m (e + 1)
        else S754_infinity s'
    | r => r
    end.
Proof.
  cbv zeta. intros Hn He.
  unfold binary_round_aux.
  rewrite shr_fexp_succ by lia.
  destruct (Binary64.shr_fexp_normal p E l Hn He) as [S1 S1e].
  destruct (shr_fexp prec emax (Zpos p) E l) as [mrs1 e1].
  cbn [fst snd] in *.
  pose proof (Binary64.round_nearest_even_bounds (shr_m mrs1)
                (loc_of_shr_record mrs1)) as R.
  assert (M1 : 2 ^ 52 <= shr_m mrs1).
  { rewrite S1.
    pose proof (Binary64.digits2_pos_bounds p) as [Plo _].
    apply Z.div_le_lower_bound; [apply Z.pow_pos_nonneg; lia|].
    rewrite <- Z.pow_add_r by (unfold prec in *; lia).
    replace (Zpos (digits2_pos p) - prec + 52)
      with (Zpos (digits2_pos p) - 1) by (unfold prec; lia).
    exact Plo. }
  change (2 ^ 52) with 4503599627370496 in M1.
  destruct (round_nearest_even (shr_m mrs1) (loc_of_shr_record mrs1))
    as [|m2|m2]; try lia.
  assert (D2 : 52 < Zpos (digits2_pos m2)).
  { apply Binary64.digits2_pos_gt; [lia|].
    change (2 ^ 52) with 4503599627370496. lia. }
  rewrite shr_fexp_succ
    by (rewrite Binary64.emin_value in *; unfold prec in *; lia).
  destruct (shr_fexp prec emax (Zpos m2) e1 loc_Exact) as [mrs2 e2].
  cbn [fst snd].
  destruct (shr_m mrs2) as [|m3|m3]; try reflexivity.
  destruct (e2 <=? emax - prec) eqn:L2.
  - reflexivity.
  - replace (e2 + 1 <=? emax - prec) with false; [reflexivity|].
    symmetry. apply Z.leb_gt. apply Z.leb_gt in L2. lia.
Qed.

(** The quotients of a normal positive number by [d] and by [2 * d]: the
    first is twice the second. *)
Lemma SFdiv_half (mx md : positive) (ex ed : Z) :
  2 ^ 52 <= Zpos mx < 2 ^ 53 -> 2 ^ 52 <= Zpos md < 2 ^ 53 ->
  emin <= ex - ed - 53 ->
  SFdiv prec emax (S754_finite false mx ex) (S754_finite false md (ed - 1))
  = match SFdiv prec emax (S754_finite false mx ex)
            (S754_finite false md ed) with
    | S754_finite s' m e =>
        if e + 1 <=? emax - prec then S754_finite s' m (e + 1)
        else S754_infinity s'
    | r => r
    end.
Proof.
  intros Mx Md Hk.
  cbn [SFdiv xorb]. unfold SFdiv_core_binary. cbn [Zdigits2].
  rewrite (Binary64.digits2_pos_unique mx 53) by (change (53 - 1) with 52; lia).
  rewrite (Binary64.digits2_pos_unique md 53) by (change (53 - 1) with 52; lia).
  unfold SpecFloat.fexp. rewrite Binary64.emin_value in *. unfold prec.
  replace (Z.min (Z.max (53 + ex - (53 + ed) - 53) (-1074)) (ex - ed))
    with (ex - ed - 53) by lia.
  replace (Z.min (Z.max (53 + ex - (53 + (ed - 1)) - 53) (-1074))
             (ex - (ed - 1)))
    with (ex - ed - 53 + 1) by lia.
  replace (ex - ed - (ex - ed - 53)) with 53 by lia.
  replace (ex - (ed - 1) - (ex - ed - 53 + 1)) with 53 by lia.
  rewrite Z.shiftl_mul_pow2 by lia.
  change (2 ^ 52) with 4503599627370496 in *.
  change (2 ^ 53) with 9007199254740992 in *.
  pose proof (Z.div_mod (Zpos mx * 9007199254740992) (Zpos md)
                ltac:(lia)) as Dm.
  pose proof (Z.mod_pos_bound (Zpos mx * 9007199254740992) (Zpos md)
                ltac:(lia)) as Mb.
  unfold Z.div, Z.modulo in Dm, Mb.
  destruct (Z.div_eucl (Zpos mx * 9007199254740992) (Zpos md)) as [q r].
  assert (Hq : 4503599627370496 <= q) by nia.
  destruct q as [|q|q]; try lia.
  pose proof (Binary64.digits2_pos_gt q 52 ltac:(lia)
                ltac:(change (2 ^ 52) with 4503599627370496; lia)) as Dq.
  apply (binary_round_aux_succ false q (ex - ed - 53));
    [unfold prec; lia|rewrite Binary64.emin_value; unfold prec; lia].
Qed.

(** Adding the radius to a number of at least 2.56 does not take it above
    its double. *)
Lemma SFadd_radius_below_double (m : positive) (e : Z) :
  2 ^ 52 <= Zpos m < 2 ^ 53 -> -51 <= e -> e + 1 <= emax - prec ->
  SFltb (S754_finite false m (e + 1))
        (SFadd prec emax (S754_finite false m e)
               (S754_finite false 8646911284551352 (-56))) = false.
Proof.
  intros Mm He Hmax. unfold prec, emax in *.
  change (2 ^ 52) with 4503599627370496 in *.
  change (2 ^ 53) with 9007199254740992 in *.
  cbn [SFadd cond_Zopp].
  replace (Z.min e (-56)) with (-56) by lia.
  destruct (Binary64.shl_align_value m e (-56) ltac:(lia)) as [Za _].
  destruct (Binary64.shl_align_value 8646911284551352 (-56) (-56) ltac:(lia))
    as [Zb _].
  rewrite Za, Zb. change (-56 - -56) with 0. rewrite Z.pow_0_r, Z.mul_1_r.
  replace (e - -56) with (e + 56) by lia.
  assert (T : 2 ^ 5 <= 2 ^ (e + 56)) by (apply Z.pow_le_mono_r; lia).
  change (2 ^ 5) with 32 in T.
  remember (2 ^ (e + 56)) as t eqn:Ht.
  assert (L1 : 4503599627370496 * t <= Zpos m * t)
    by (apply Z.mul_le_mono_nonneg_r; lia).
  assert (L2 : Zpos m * t <= 9007199254740991 * t)
    by (apply Z.mul_le_mono_nonneg_r; lia).
  destruct (Zpos m * t + 8646911284551352) as [|p|p] eqn:Ep; try lia.
  assert (Dp : 52 + (e + 56) < Zpos (digits2_pos p) <= 54 + (e + 56)).
  { apply Binary64.digits2_pos_range; [lia|].
    rewrite (Z.pow_add_r 2 52), (Z.pow_add_r 2 54) by lia. rewrite <- Ht.
    change (2 ^ 52) with 4503599627370496.
    change (2 ^ 54) with 18014398509481984. lia. }
  unfold binary_normalize, binary_round, shl_align, SpecFloat.fexp.
  change (SpecFloat.emin 53 1024) with (-1074).
  destruct (Z.max (Zpos (digits2_pos p) + -56 - 53) (-1074) - -56)
    as [|u|u] eqn:Eu; try lia.
  destruct (Binary64.binary_round_aux_normal false p (-56) loc_Exact)
    as (m' & e' & R & N & Ee & B);
    [unfold prec; lia|rewrite Binary64.emin_value; unfold prec; lia|].
  unfold prec, emax in *. rewrite R.
  change (2 ^ (53 - 1)) with 4503599627370496 in N.
  change (2 ^ 53) with 9007199254740992 in N.
  assert (P2 : 2 ^ (e + 57) = 2 * t).
  { replace (e + 57) with (1 + (e + 56)) by lia.
    rewrite Z.pow_add_r by lia. rewrite <- Ht. reflexivity. }
  assert (P3 : 2 ^ (e + 58) = 4 * t).
  { replace (e + 58) with (2 + (e + 56)) by lia.
    rewrite Z.pow_add_r by lia. rewrite <- Ht. reflexivity. }
  assert (Hn : Zpos (digits2_pos p) - 53 = e + 56 \/
               Zpos (digits2_pos p) - 53 = e + 57) by lia.
  assert (Up : Zpos m' * 2 ^ (e' - -56) <= Zpos p + 2 * t).
  { destruct Hn as [Hn|Hn]; rewrite Hn in B; rewrite <- ?Ht, ?P2 in B; lia. }
  assert (Hc : e' = e \/ e' = e + 1 \/ e' = e + 2) by lia.
  assert (Le : e' <= e + 1).
  { destruct Hc as [Hc|[Hc|Hc]]; [lia|lia|]. exfalso. subst e'.
    replace (e + 2 - -56) with (e + 58) in Up by lia.
    rewrite P3 in Up.
    assert (4503599627370496 * t <= Zpos m' * t)
      by (apply Z.mul_le_mono_nonneg_r; lia).
    lia. }
  replace (e' <=? 1024 - 53) with true by (symmetry; apply Z.leb_le; lia).
  unfold SFltb, SFcompare.
  destruct (Z.compare_spec (e + 1) e') as [E|L|G]; [|lia|reflexivity].
  subst e'. replace (e + 1 - -56) with (e + 57) in Up by lia.
  rewrite P2 in Up.
  rewrite Pos.compare_cont_spec. cbn [Pos.switch_Eq].
  destruct (Pos.compare_spec m m') as [E|L|G]; try reflexivity.
  exfalso.
  assert ((Zpos m + 1) * t <= Zpos m' * t)
    by (apply Z.mul_le_mono_nonneg_r; lia).
  lia.
Qed.

End Rounding.

(** A number that is not finite is NaN or an infinity. *)
Lemma not_finite_spec (a : float) :
  is_finite a = false ->
  Prim2SF a = S754_nan \/ exists s, Prim2SF a = S754_infinity s.
Proof.
  unfold is_finite. intros H.
  apply negb_false_iff, orb_true_iff in H as [Hn|Hi].
  - left. apply Binary64.is_nan_spec, Hn.
  - right. unfold is_infinity in Hi. rewrite eqb_spec, abs_spec in Hi.
    destruct (Prim2SF a) as [s|s| |s m e]; try discriminate Hi.
    exists s. reflexivity.
Qed.

Lemma zero_mul_finite (a b : float) :
  signedZero a -> is_finite b = true -> signedZero (a * b).
Proof.
  intros [s Ha] Hb. unfold signedZero. rewrite mul_spec, Ha.
  destruct (Binary64.is_finite_spec b Hb) as [[sb E]|(sb & mb & eb & E)];
    rewrite E; eexists; reflexivity.
Qed.

Lemma zero_plus_zero (z : float) : signedZero z -> 0 + z = 0.
Proof.
  intros [s Hz]. apply Prim2SF_inj. rewrite add_spec, Hz.
  destruct s; reflexivity.
Qed.

Lemma zero_0 : signedZero 0.
Proof. exists false. reflexivity. Qed.

(** The difference of two numbers, the second finite, is NaN only if the
    first is. *)
Lemma sub_finite_not_nan (a b : float) :
  is_nan a = false -> is_finite b = true -> is_nan (a - b) = false.
Proof.
  intros Ha Hb.
  destruct (is_nan (a - b)) eqn:E; [|reflexivity]. exfalso.
  apply Binary64.is_nan_spec in E. rewrite sub_spec in E.
  assert (Na : Prim2SF a <> S754_nan)
    by (intros N; apply Binary64.is_nan_spec in N; congruence).
  pose proof (Prim2SF_valid a) as Va. pose proof (Prim2SF_valid b) as Vb.
  destruct (Binary64.is_finite_spec b Hb) as [[sb Eb]|(sb & mb & eb & Eb)];
    rewrite Eb in *;
    destruct (Prim2SF a) as [sa|sa| |sa ma ea]; try congruence;
    unfold SF64sub in E; cbn [SFsub] in E; try discriminate E;
    try (destruct sa, sb; discriminate E).
  pose proof (Binary64.valid_finite_bounds sa ma ea Va) as [Ea _].
  pose proof (Binary64.valid_finite_bounds sb mb eb Vb) as [Eb' _].
  unfold binary_normalize in E.
  match type of E with
  | match ?z with _ => _ end = _ => destruct z as [|q|q]
  end; try discriminate E.
  - destruct (Binary64.binary_round_sign false q (Z.min ea eb)
                ltac:(lia)) as [(m' & e' & R)|R];
      rewrite R in E; discriminate E.
  - destruct (Binary64.binary_round_sign true q (Z.min ea eb)
                ltac:(lia)) as [(m' & e' & R)|R];
      rewrite R in E; discriminate E.
Qed.

(** At most excludes above. *)
Lemma leb_not_gtb (a b : float) : (a <=? b) = true -> (b <? a) = false.
Proof.
  rewrite leb_spec, ltb_spec. unfold SFleb, SFltb.
  destruct (Prim2SF a) as [sa| sa| |sa ma ea];
    destruct (Prim2SF b) as [sb| sb| |sb mb eb];
    simpl; try (destruct sa); try (destruct sb); simpl;
    try discriminate; try reflexivity;
    rewrite ?Pos.compare_cont_spec; simpl;
    destruct (Z.compare_spec ea eb); destruct (Z.compare_spec eb ea);
    try lia; simpl; try discriminate; try reflexivity;
    destruct (Pos.compare_spec ma mb); destruct (Pos.compare_spec mb ma);
    try lia; simpl; try discriminate; reflexivity.
Qed.

(** The remainder of a dividend that is not finite is NaN. *)
Lemma rem_not_finite (a b : float) :
  is_finite a = false -> a %% b = nan.
Proof.
  intros H. unfold JS.rem.
  destruct (not_finite_spec a H) as [E|[s E]]; rewrite E.
  - reflexivity.
  - destruct (Prim2SF b); reflexivity.
Qed.

(** The vertical scale of a drawn coin is above one half, whatever number
    the cosine is. *)
Lemma scale_above_half (v : float) :
  is_nan v = false -> (0.5 <? abs v * 0.3 + 0.7) = true.
Proof.
  intros Hn.
  assert (Nv : Prim2SF v <> S754_nan)
    by (intros N; apply Binary64.is_nan_spec in N; congruence).
  pose proof (Prim2SF_valid (abs v * 0.3)) as V.
  rewrite ltb_spec, add_spec.
  change (Prim2SF 0.5) with (S754_finite false 4503599627370496 (-53)).
  change (Prim2SF 0.7) with (S754_finite false 6305039478318694 (-53)).
  assert (S : Prim2SF (abs v * 0.3) = S754_zero false \/
              (exists m e, Prim2SF (abs v * 0.3) = S754_finite false m e) \/
              Prim2SF (abs v * 0.3) = S754_infinity false).
  { rewrite mul_spec, abs_spec.
    change (Prim2SF 0.3) with (S754_finite false 5404319552844595 (-54)).
    destruct (Prim2SF v) as [s|s| |s m e]; try congruence.
    - left. reflexivity.
    - right. right. reflexivity.
    - cbn [SFabs]. unfold SF64mul. cbn [SFmul xorb].
      apply Rounding.binary_round_aux_signed. lia. }
  destruct S as [S|[(m & e & S)|S]]; rewrite S in *.
  - reflexivity.
  - apply Rounding.SFadd_above_half, V.
  - reflexivity.
Qed.

(** The horizontal start position [canvasWidth / (2 * SCALE)] is clear of
    both walls, in every canvas the script makes. *)
Lemma start_clear (rectWidth : float) :
  let w := canvasOf rectWidth in
  let x0 := canvasWidth w / (2 * SCALE) in
  (x0 - 0.12 <? 0) = false /\
  (canvasWidth w / SCALE <? x0 + 0.12) = false.
Proof.
  cbv zeta. unfold canvasOf, SCALE. cbn [canvasWidth].
  change (2 * 100) with 200.
  set (cw := JS.Math_max 600 (rectWidth - 40)).
  destruct (Binary64.Math_max_600 (rectWidth - 40)) as [Hn|H6];
    fold cw in Hn || fold cw in H6.
  - pose proof (Binary64.nan_propagates_div cw 200 Hn) as H1.
    split.
    + apply Binary64.nan_not_ltb, Binary64.nan_propagates_sub, H1.
    + apply Binary64.nan_not_ltb, Binary64.nan_propagates_div, Hn.
  - assert (A0 : at_least (-43) (Prim2SF cw)).
    { apply (Binary64.leb_at_least 600 cw 5277655813324800 (-43));
        [reflexivity|reflexivity|exact H6]. }
    assert (A1 : at_least (-51) (Prim2SF (cw / 200))).
    { rewrite div_spec.
      replace (Prim2SF 200) with (S754_finite false 7036874417766400 (-45))
        by reflexivity.
      apply (Binary64.SFdiv_at_least _ _ (-45) (-43) A0);
        [vm_compute; split; [discriminate|reflexivity]
        |vm_compute; discriminate]. }
    assert (V12 : valid_binary (Prim2SF 0.12) = true) by apply Prim2SF_valid.
    assert (E12 : Prim2SF 0.12 = S754_finite false 8646911284551352 (-56))
      by reflexivity.
    rewrite E12 in V12.
    split.
    + assert (A2 : at_least (-52) (Prim2SF (cw / 200 - 0.12))).
      { rewrite sub_spec, E12.
        apply (Binary64.SFsub_at_least _ _ (-56) (-51) A1 V12). lia. }
      rewrite ltb_spec. apply (Binary64.at_least_not_neg _ _ _ A2).
    + pose proof (Prim2SF_valid (cw / 100)) as V1.
      rewrite ltb_spec, add_spec, E12.
      rewrite div_spec in A1, V1 |- *. rewrite div_spec.
      replace (Prim2SF 200) with (S754_finite false 7036874417766400 (-45))
        in * by reflexivity.
      replace (Prim2SF 100)
        with (S754_finite false 7036874417766400 (-45 - 1))
        in * by reflexivity.
      destruct A0 as [A0|(mx & ex & A0 & Mx & Kx)]; rewrite A0 in *.
      * reflexivity.
      * unfold SF64div in *.
        assert (Md : (2 ^ 52 <= 7036874417766400 < 2 ^ 53)%Z)
          by (vm_compute; split; [discriminate|reflexivity]).
        assert (Hk : (emin <= ex - -45 - 53)%Z)
          by (rewrite Binary64.emin_value; lia).
        rewrite (Rounding.SFdiv_half mx 7036874417766400 ex (-45) Mx Md Hk)
          in V1 |- *.
        destruct A1 as [A1|(m & e & A1 & Mm & Ke)]; rewrite A1 in *.
        -- reflexivity.
        -- destruct (e + 1 <=? emax - prec)%Z eqn:L;
             [|destruct (SF64add _ _) as [s|s| |s m0 e0];
               try destruct s; reflexivity].
           apply Z.leb_le in L.
           apply Rounding.SFadd_radius_below_double; assumption.
Qed.

(** ** More of the step *)

(** A step of a coin that is still stepping samples the position it has
    after the integration, unless 1000 samples are stored. *)
Lemma update_trajectory (w : World) (c : Coin) (dt : float) :
  isSettled c = false ->
  trajectory (update w c dt)
  = if (length (trajectory c) <? 1000)%nat
    then trajectory c ++ [(x (integrate c dt), y (integrate c dt))]
    else trajectory c.
Proof.
  destruct c as [x0 y0 vx0 vy0 a0 av0 r0 m0 re0 d0 wi0 s0 st0 tr0 ci0 res0].
  cbv [isSettled]. intros Hs; subst s0.
  stage_integrate.
  destruct (length tr0 <? 1000)%nat eqn:E;
    stage_ground; repeat case_if;
    stage_left; repeat case_if;
    stage_right; repeat case_if; reflexivity.
Qed.

Lemma update_trajectory_length (w : World) (c : Coin) (dt : float) :
  (length (trajectory c) <= 1000)%nat ->
  (length (trajectory (update w c dt)) <= 1000)%nat.
Proof.
  intros H. destruct (isSettled c) eqn:Hs.
  - rewrite update_settled by exact Hs. exact H.
  - rewrite update_trajectory by exact Hs.
    destruct (length (trajectory c) <? 1000)%nat eqn:E; [|exact H].
    apply Nat.ltb_lt in E. rewrite length_app. simpl. lia.
Qed.

Lemma update_trajectory_grows (w : World) (c : Coin) (dt : float) :
  exists l, trajectory (update w c dt) = trajectory c ++ l /\
            (length l <= 1)%nat.
Proof.
  destruct (isSettled c) eqn:Hs.
  - rewrite update_settled by exact Hs. exists [].
    rewrite app_nil_r. split; [reflexivity|simpl; lia].
  - rewrite update_trajectory by exact Hs.
    destruct (length (trajectory c) <? 1000)%nat.
    + eexists. split; [reflexivity|simpl; lia].
    + exists []. rewrite app_nil_r. split; [reflexivity|simpl; lia].
Qed.

Lemma reachable_trajectory_length (host : Host) (c : Coin) :
  reachable host c -> (length (trajectory c) <= 1000)%nat.
Proof.
  induction 1 as [x0 y0 p i|w c dt _ IH].
  - simpl. lia.
  - apply update_trajectory_length, IH.
Qed.

Lemma stepsIn_trajectory_grows (steps : list (float * float)) (c : Coin) :
  exists l, trajectory (stepsIn c steps) = trajectory c ++ l /\
            (length l <= length steps)%nat.
Proof.
  unfold stepsIn. revert c.
  induction steps as [|[rw dt] steps IH]; intros c; cbn [fold_left fst snd].
  - exists []. rewrite app_nil_r. split; [reflexivity|simpl; lia].
  - destruct (update_trajectory_grows (canvasOf rw) c dt) as (l1 & E1 & L1).
    destruct (IH (update (canvasOf rw) c dt)) as (l2 & E2 & L2).
    exists (l1 ++ l2). rewrite E2, E1, app_assoc.
    split; [reflexivity|]. rewrite length_app. simpl. lia.
Qed.

Lemma reachable_stepsIn (host : Host) (steps : list (float * float))
    (c : Coin) :
  reachable host c -> reachable host (stepsIn c steps).
Proof.
  unfold stepsIn. revert c.
  induction steps as [|[rw dt] steps IH]; intros c H; cbn [fold_left fst snd].
  - exact H.
  - apply IH, reach_update, H.
Qed.

(** What every step of a coin that is still stepping establishes holds
    after every run of at least one step. *)
Lemma stepsIn_established (host : Host) (P : Coin -> Prop) :
  (forall c rw dt, reachable host c -> isSettled c = false ->
                   P (update (canvasOf rw) c dt)) ->
  forall x0 y0 p i steps, steps <> [] ->
    P (stepsIn (newCoin host x0 y0 p i) steps).
Proof.
  intros Step x0 y0 p i steps Hne.
  destruct steps as [|[rw dt] steps]; [congruence|]. clear Hne.
  unfold stepsIn. cbn [fold_left fst snd].
  pose proof (Step (newCoin host x0 y0 p i) rw dt
                (reach_new host x0 y0 p i) eq_refl) as H0.
  assert (R0 : reachable host
                 (update (canvasOf rw) (newCoin host x0 y0 p i) dt))
    by (apply reach_update, reach_new).
  revert H0 R0.
  generalize (update (canvasOf rw) (newCoin host x0 y0 p i) dt).
  induction steps as [|[rw' dt'] steps IH]; intros c H0 R0.
  - exact H0.
  - cbn [fold_left fst snd]. apply IH.
    + destruct (isSettled c) eqn:Hs.
      * rewrite update_settled by exact Hs. exact H0.
      * apply Step; assumption.
    + apply reach_update, R0.
Qed.

(** X1. The trajectory of a coin of a run never holds more than 1000
    samples, and stepping only ever appends to it, at most one sample a
    step.  A step of a coin that is still stepping and holds fewer than
    1000 samples appends the position the coin has after the integration,
    before the ground and the walls correct it; a step of a coin that
    holds 1000 samples or more leaves the trajectory as it is. *)
Theorem X1_trajectory_capped_and_append_only
    (host : Host) (c : Coin) (w : World) (dt : float)
    (steps : list (float * float)) :
  reachable host c ->
  (length (trajectory (stepsIn c steps)) <= 1000)%nat /\
  (exists l, trajectory (stepsIn c steps) = trajectory c ++ l /\
             (length l <= length steps)%nat) /\
  (isSettled c = false -> (length (trajectory c) < 1000)%nat ->
   trajectory (update w c dt)
   = trajectory c ++ [(x (integrate c dt), y (integrate c dt))]) /\
  ((1000 <= length (trajectory c))%nat ->
   trajectory (update w c dt) = trajectory c).
Proof.
  intros R. split; [|split; [|split]].
  - apply (reachable_trajectory_length host), reachable_stepsIn, R.
  - apply stepsIn_trajectory_grows.
  - intros Hs Hl. rewrite update_trajectory by exact Hs.
    apply Nat.ltb_lt in Hl. rewrite Hl. reflexivity.
  - intros Hl. destruct (isSettled c) eqn:Hs.
    + rewrite update_settled by exact Hs. reflexivity.
    + rewrite update_trajectory by exact Hs.
      apply Nat.ltb_ge in Hl. rewrite Hl. reflexivity.
Qed.

Lemma X1_trajectory_capped_and_append_only_witness :
  let c := newCoin testHost 4 3.5 default_params 0 in
  (length (trajectory (stepsIn c [(840, 0.02); (840, 0.02)]%float))
   <= 1000)%nat /\
  trajectory (update world800 c 0.02)
  = [(x (integrate c 0.02), y (integrate c 0.02))].
Proof.
  cbv zeta.
  pose proof (X1_trajectory_capped_and_append_only testHost
                (newCoin testHost 4 3.5 default_params 0) world800 0.02
                [(840, 0.02); (840, 0.02)]
                (reach_new testHost 4 3.5 default_params 0))
    as (H1 & _ & H3 & _).
  split; [exact H1|]. apply H3; [reflexivity|simpl; lia].
Defined.

Lemma update_parameters (w : World) (c : Coin) (dt : float) :
  let c' := update w c dt in
  radius c' = radius c /\ mass c' = mass c /\
  restitution c' = restitution c /\ drag c' = drag c /\
  wind c' = wind c /\ colorIndex c' = colorIndex c.
Proof.
  destruct c. cbv zeta. step_cases; repeat split; reflexivity.
Qed.

Lemma stepsIn_parameters (steps : list (float * float)) (c : Coin) :
  let c' := stepsIn c steps in
  radius c' = radius c /\ mass c' = mass c /\
  restitution c' = restitution c /\ drag c' = drag c /\
  wind c' = wind c /\ colorIndex c' = colorIndex c.
Proof.
  cbv zeta. unfold stepsIn. revert c.
  induction steps as [|[rw dt] steps IH]; intros c; cbn [fold_left fst snd].
  - repeat split; reflexivity.
  - destruct (IH (update (canvasOf rw) c dt)) as (A & B & C & D & E & F).
    destruct (update_parameters (canvasOf rw) c dt)
      as (A' & B' & C' & D' & E' & F').
    cbv zeta in *.
    rewrite A, B, C, D, E, F. repeat split; assumption.
Qed.

(** X2. No run of steps changes a coin's radius, mass, restitution, drag,
    wind or colour index: after any steps in any canvases, a constructed
    coin still has radius 0.12, mass 0.01, the restitution, drag and wind
    of the parameters it was constructed from, and the colour index it was
    given. *)
Theorem X2_steps_keep_parameters
    (host : Host) (x0 y0 : float) (p : Params.t) (i : Z)
    (steps : list (float * float)) :
  let c := stepsIn (newCoin host x0 y0 p i) steps in
  radius c = 0.12 /\ mass c = 0.01 /\
  restitution c = Params.restitution p /\ drag c = Params.drag p /\
  wind c = Params.wind p /\ colorIndex c = i.
Proof.
  apply (stepsIn_parameters steps (newCoin host x0 y0 p i)).
Qed.

(** The level of the ground, in metres, in every canvas the script
    makes. *)
Lemma groundY_canvas (rectWidth : float) :
  groundY (canvasOf rectWidth) = 4.95.
Proof. reflexivity. Qed.

Lemma ground_step (c : Coin) (rectWidth dt : float) :
  radius c = 0.12 -> isSettled c = false ->
  let w := canvasOf rectWidth in
  let c1 := integrate c dt in
  let c' := update w c dt in
  ((groundY w <? y c1 + radius c) = true -> y c' = 4.83) /\
  ((groundY w <? y c1 + radius c) = false -> y c' = y c1) /\
  (groundY w <? y c' + radius c') = false.
Proof.
  intros Hr Hs. cbv zeta. rewrite groundY_canvas.
  destruct c as [x0 y0 vx0 vy0 a0 av0 r0 m0 re0 d0 wi0 s0 st0 tr0 ci0 res0].
  cbv [isSettled radius] in Hs, Hr. subst s0 r0.
  stage_integrate; repeat case_if;
    stage_ground; rewrite ?groundY_canvas; repeat case_if;
    stage_left; repeat case_if;
    stage_right; repeat case_if;
    repeat match goal with
           | H : ?a = true, H' : ?a = false |- _ =>
               exfalso; apply (eq_true_false_abs _ H H')
           | |- _ /\ _ => split
           | |- _ -> _ => let H := fresh in intro H; try discriminate H
           | |- _ = _ => reflexivity
           | |- _ = false => assumption
           end.
Qed.

(** X3. In every canvas the script makes the ground is at 4.95 m.  A step
    of a coin of a run that is still stepping, if after the integration
    [y + radius] exceeds the ground level, leaves the coin at
    [y = 4.95 - 0.12 = 4.83]; otherwise it leaves [y] as integrated.
    Either way the coin is not left with [y + radius] above the ground
    level, and so it is after every run of at least one step. *)
Theorem X3_ground_clamp (host : Host) :
  (forall (c : Coin) (rectWidth dt : float),
      reachable host c -> isSettled c = false ->
      let w := canvasOf rectWidth in
      let c1 := integrate c dt in
      let c' := update w c dt in
      groundY w = 4.95 /\
      ((groundY w <? y c1 + radius c) = true -> y c' = 4.83) /\
      ((groundY w <? y c1 + radius c) = false -> y c' = y c1) /\
      (groundY w <? y c' + radius c') = false) /\
  (forall (x0 y0 : float) (p : Params.t) (i : Z) (steps : list (float * float)),
      steps <> [] ->
      let c := stepsIn (newCoin host x0 y0 p i) steps in
      (4.95 <? y c + radius c) = false).
Proof.
  split.
  - intros c rectWidth dt R Hs. cbv zeta. split; [reflexivity|].
    apply ground_step; [apply (reachable_radius host), R|exact Hs].
  - intros x0 y0 p i steps Hne. cbv zeta.
    apply (stepsIn_established host
             (fun c => (4.95 <? y c + radius c) = false)); [|exact Hne].
    intros c rw dt R Hs.
    apply (ground_step c rw dt (reachable_radius host c R) Hs).
Qed.

Lemma X3_ground_clamp_witness :
  let c := newCoin testHost 4 5 default_params 0 in
  isSettled c = false /\
  y (update (canvasOf 840) c 0.02) = 4.83 /\
  (4.95 <? y (stepsIn c [(840, 0.02)]) + radius (stepsIn c [(840, 0.02)]))
  = false.
Proof.
  cbv zeta.
  pose proof (proj1 (X3_ground_clamp testHost)
                (newCoin testHost 4 5 default_params 0) 840 0.02
                (reach_new testHost 4 5 default_params 0) eq_refl)
    as (_ & H1 & _).
  pose proof (proj2 (X3_ground_clamp testHost) 4 5 default_params 0%Z
                [(840, 0.02)]) as H2.
  split; [reflexivity|]. split.
  - apply H1. vm_compute. reflexivity.
  - apply H2. discriminate.
Defined.

Lemma settles_on_ground (c : Coin) (rectWidth dt : float) :
  radius c = 0.12 -> isSettled c = false ->
  let c' := update (canvasOf rectWidth) c dt in
  isSettled c' = true ->
  y c' = 4.83 /\ vy c' = 0 /\ signedZero (vx c') /\
  angularVelocity c' = 0 /\
  (0.5 <? settleTimer c') = true /\ settleTimer c' = settleTimer c + dt.
Proof.
  intros Hr Hs. cbv zeta.
  destruct c as [x0 y0 vx0 vy0 a0 av0 r0 m0 re0 d0 wi0 s0 st0 tr0 ci0 res0].
  cbv [isSettled radius] in Hs, Hr. subst s0 r0.
  stage_integrate; repeat case_if;
    stage_ground; rewrite ?groundY_canvas; repeat case_if;
    stage_left; repeat case_if;
    stage_right; repeat case_if;
    intros H; try discriminate H;
    (split; [reflexivity|]); (split; [reflexivity|]);
    (split; [eexists; vm_compute; reflexivity|]);
    (split; [reflexivity|]); (split; [assumption|reflexivity]).
Qed.

(** A settled coin of a run is on the ground, at rest. *)
Lemma settled_at_rest (host : Host) (x0 y0 : float) (p : Params.t) (i : Z)
    (steps : list (float * float)) :
  let c := stepsIn (newCoin host x0 y0 p i) steps in
  isSettled c = true ->
  y c = 4.83 /\ vy c = 0 /\ signedZero (vx c) /\ angularVelocity c = 0 /\
  (0.5 <? settleTimer c) = true.
Proof.
  cbv zeta. destruct steps as [|st steps]; [discriminate|].
  apply (stepsIn_established host
           (fun c => isSettled c = true ->
                     y c = 4.83 /\ vy c = 0 /\ signedZero (vx c) /\
                     angularVelocity c = 0 /\
                     (0.5 <? settleTimer c) = true)); [|discriminate].
  intros c rw dt R Hs H.
  destruct (settles_on_ground c rw dt (reachable_radius host c R) Hs H)
    as (A & B & C & D & E & _).
  auto.
Qed.

(** X4. A coin only ever settles on the ground, at rest: whatever the
    steps and the canvases of its run, a settled coin has [y = 4.83]
    (the ground level less the radius), vertical velocity 0, horizontal
    velocity +0 or -0, angular velocity 0 and a settle timer above
    0.5 s. *)
Theorem X4_settled_coin_rests_on_ground
    (host : Host) (x0 y0 : float) (p : Params.t) (i : Z)
    (steps : list (float * float)) :
  let c := stepsIn (newCoin host x0 y0 p i) steps in
  isSettled c = true ->
  y c = 4.83 /\ vy c = 0 /\ signedZero (vx c) /\ angularVelocity c = 0 /\
  (0.5 <? settleTimer c) = true.
Proof. apply settled_at_rest. Qed.

(** The default coin after 215 frames of 0.02 s. *)
Lemma X4_settled_coin_rests_on_ground_witness :
  let c := stepsIn (newCoin testHost 4 3.5 default_params 0)
             (repeat (840, 0.02) 215) in
  isSettled c = true /\ y c = 4.83 /\ vy c = 0 /\ angularVelocity c = 0.
Proof.
  cbv zeta.
  set (c := stepsIn (newCoin testHost 4 3.5 default_params 0)
              (repeat (840, 0.02) 215)).
  assert (Hs : isSettled c = true) by (vm_compute; reflexivity).
  pose proof (X4_settled_coin_rests_on_ground testHost 4 3.5 default_params
                0%Z (repeat (840, 0.02) 215) Hs) as (A & B & _ & D & _).
  split; [exact Hs|]. split; [exact A|]. split; [exact B|exact D].
Defined.

(** The walls leave the height, the settled flag and the outcome alone. *)
Lemma walls_keep_height (w : World) (c : Coin) :
  y (wallCollisions w c) = y c /\
  isSettled (wallCollisions w c) = isSettled c /\
  result (wallCollisions w c) = result c.
Proof.
  destruct c. stage_left. case_if; stage_right; case_if;
    repeat split; reflexivity.
Qed.

Lemma integrate_height (c : Coin) (dt : float) :
  exists v, y (integrate c dt) = y c + v.
Proof.
  destruct c as [x0 y0 vx0 vy0 a0 av0 r0 m0 re0 d0 wi0 s0 st0 tr0 ci0 res0].
  stage_integrate. case_if; cbv [y]; eexists; reflexivity.
Qed.

Lemma lost_update (w : World) (c : Coin) (dt : float) :
  lost c = true -> lost (update w c dt) = true /\
                   result (update w c dt) = result c.
Proof.
  unfold lost. intros H. apply andb_true_iff in H as [Hy Hs].
  apply negb_true_iff in Hs. unfold update. rewrite Hs.
  destruct (integrate_height c dt) as [v Ev].
  destruct (integrate_frame c dt) as (Is & _ & Ir & _). cbv zeta in Is, Ir.
  assert (Hy1 : is_nan (y (integrate c dt)) = true)
    by (rewrite Ev; apply Binary64.nan_propagates_add_l, Hy).
  destruct (walls_keep_height w (groundCollision w (integrate c dt) dt))
    as (Wy & Ws & Wr).
  rewrite Wy, Ws, Wr. unfold groundCollision.
  rewrite (Binary64.nan_not_gtb (groundY w) _)
    by (apply Binary64.nan_propagates_add_l, Hy1).
  rewrite Hy1, Is, Hs, Ir. split; reflexivity.
Qed.

Lemma lost_stepsIn (steps : list (float * float)) (c : Coin) :
  lost c = true -> lost (stepsIn c steps) = true /\
                   result (stepsIn c steps) = result c.
Proof.
  unfold stepsIn. revert c.
  induction steps as [|[rw dt] steps IH]; intros c H; cbn [fold_left fst snd].
  - split; [exact H|reflexivity].
  - destruct (lost_update (canvasOf rw) c dt H) as [H1 R1].
    destruct (IH _ H1) as [H2 R2]. split; [exact H2|congruence].
Qed.

(** X5. A coin that has not settled and whose height [y] is NaN never
    settles: after any steps, with whatever time steps and canvases, its
    height is still NaN, it is still not settled and its outcome is
    unchanged. *)
Theorem X5_nan_height_never_settles
    (c : Coin) (steps : list (float * float)) :
  is_nan (y c) = true -> isSettled c = false ->
  let c' := stepsIn c steps in
  is_nan (y c') = true /\ isSettled c' = false /\ result c' = result c.
Proof.
  intros Hy Hs. cbv zeta.
  destruct (lost_stepsIn steps c) as [L R].
  { unfold lost. rewrite Hy, Hs. reflexivity. }
  unfold lost in L. apply andb_true_iff in L as [L1 L2].
  apply negb_true_iff in L2. repeat split; assumption.
Qed.

Lemma X5_nan_height_never_settles_witness :
  is_nan (y lostCoin) = true /\ isSettled lostCoin = false /\
  isSettled (stepsIn lostCoin (repeat (840, 0.02) 300)) = false /\
  result (stepsIn lostCoin (repeat (840, 0.02) 300)) = result lostCoin.
Proof.
  assert (Hy : is_nan (y lostCoin) = true) by (vm_compute; reflexivity).
  assert (Hs : isSettled lostCoin = false) by (vm_compute; reflexivity).
  destruct (X5_nan_height_never_settles lostCoin (repeat (840, 0.02) 300)
              Hy Hs) as (_ & H2 & H3).
  split; [exact Hy|]. split; [exact Hs|]. split; [exact H2|exact H3].
Defined.

Lemma update_spinless (w : World) (c : Coin) (dt : float) :
  angle c = 0 -> signedZero (angularVelocity c) -> is_finite dt = true ->
  angle (update w c dt) = 0 /\
  signedZero (angularVelocity (update w c dt)).
Proof.
  intros Ha Hz Hdt.
  destruct (isSettled c) eqn:Hs.
  - rewrite update_settled by exact Hs. split; assumption.
  - destruct c as [x0 y0 vx0 vy0 a0 av0 r0 m0 re0 d0 wi0 s0 st0 tr0 ci0 res0].
    cbv [isSettled angle angularVelocity] in Hs, Ha, Hz. subst s0 a0.
    pose proof (zero_plus_zero _ (zero_mul_finite av0 dt Hz Hdt)) as A.
    pose proof (zero_mul_finite av0 0.9 Hz eq_refl) as B.
    step_cases; (split; [exact A|first [exact B|exact Hz|exact zero_0]]).
Qed.

Lemma stepsIn_spinless (steps : list (float * float)) (c : Coin) :
  angle c = 0 -> signedZero (angularVelocity c) ->
  Forall (fun st => is_finite (snd st) = true) steps ->
  angle (stepsIn c steps) = 0.
Proof.
  unfold stepsIn. revert c.
  induction steps as [|[rw dt] steps IH]; intros c Ha Hz Hf;
    cbn [fold_left fst snd].
  - exact Ha.
  - inversion Hf as [|st sts Hdt Hf']; subst. cbn [snd] in Hdt.
    destruct (update_spinless (canvasOf rw) c dt Ha Hz Hdt) as [A B].
    apply IH; assumption.
Qed.

(** X6. A coin launched with a spin of zero (+0 or -0) never turns: after
    any steps whose time steps are finite, in whatever canvases, its angle
    is still exactly 0, so if it has settled its outcome is Heads. *)
Theorem X6_spinless_coin_lands_heads
    (host : Host) (x0 y0 : float) (p : Params.t) (i : Z)
    (steps : list (float * float)) :
  signedZero (Params.spin p) ->
  Forall (fun st => is_finite (snd st) = true) steps ->
  let c := stepsIn (newCoin host x0 y0 p i) steps in
  angle c = 0 /\ (isSettled c = true -> result c = Some Heads).
Proof.
  intros Hz Hf. cbv zeta.
  assert (A : angle (stepsIn (newCoin host x0 y0 p i) steps) = 0)
    by (apply stepsIn_spinless; [reflexivity|exact Hz|exact Hf]).
  split; [exact A|]. intros Hs.
  rewrite (reachable_classified host _
             (reachable_stepsIn host steps _ (reach_new host x0 y0 p i)) Hs).
  rewrite A. vm_compute. reflexivity.
Qed.

Lemma X6_spinless_coin_lands_heads_witness :
  signedZero (Params.spin spinlessParams) /\
  angle (stepsIn (newCoin testHost 4 3.5 spinlessParams 0)
           [(840, 0.02); (840, 0.016)]) = 0.
Proof.
  assert (Hz : signedZero (Params.spin spinlessParams))
    by (exists false; reflexivity).
  split; [exact Hz|].
  apply (X6_spinless_coin_lands_heads testHost 4 3.5 spinlessParams 0%Z
           [(840, 0.02); (840, 0.016)] Hz).
  repeat constructor.
Defined.

(** ** More of the classification *)

(** X7. An angle that is not finite (NaN or an infinity) normalizes to
    NaN, and [determineResult] makes Tails of it: both of its comparisons
    fail. *)
Theorem X7_angle_not_finite_is_tails (a : float) :
  is_finite a = false ->
  is_nan (normalizedAngle a) = true /\ classify a = Tails.
Proof.
  intros H. unfold classify, normalizedAngle.
  rewrite (rem_not_finite a _ H). split; vm_compute; reflexivity.
Qed.

Lemma X7_angle_not_finite_is_tails_witness :
  is_finite infinity = false /\ classify infinity = Tails /\
  classify nan = Tails.
Proof.
  split; [reflexivity|]. split.
  - apply (X7_angle_not_finite_is_tails infinity). reflexivity.
  - apply (X7_angle_not_finite_is_tails nan). reflexivity.
Defined.

(** ** The run state *)

(** What a frame does to the coin list and to the flag. *)
Lemma animate_coins (t : float) (s : Sim) :
  chaosCoins (animate t s)
  = (if isSimulating s
     then map (fun c => update (world s) c (frame_dt t (lastTime s)))
              (chaosCoins s)
     else chaosCoins s) /\
  isSimulating (animate t s)
  = (if isSimulating s && (0 <? length (chaosCoins s))%nat
     then negb (forallb isSettled
                  (map (fun c => update (world s) c (frame_dt t (lastTime s)))
                       (chaosCoins s)))
     else isSimulating s) /\
  coin (animate t s) = coin s /\ world (animate t s) = world s /\
  params (animate t s) = params s /\ lastTime (animate t s) = t.
Proof.
  destruct s as [w co sim coins st pa lt].
  destruct sim; [|repeat split; reflexivity].
  destruct coins as [|c0 coins]; [repeat split; reflexivity|].
  unfold animate.
  cbn [isSimulating chaosCoins set_lastTime set_chaosCoins world stats
       lastTime coin params andb length Nat.ltb Nat.leb].
  destruct (forallb isSettled
              (map (fun c => update w c (frame_dt t lt)) (c0 :: coins)));
    [|repeat split; reflexivity].
  cbn [set_isSimulating set_chaosCoins set_lastTime isSimulating chaosCoins
       world coin stats params lastTime map].
  destruct (map (fun c => update w c (frame_dt t lt)) coins);
    [|repeat split; reflexivity].
  destruct (result (update w c0 (frame_dt t lt)));
    repeat split; reflexivity.
Qed.

Lemma animate_length (t : float) (s : Sim) :
  length (chaosCoins (animate t s)) = length (chaosCoins s).
Proof.
  destruct (animate_coins t s) as (E & _). rewrite E.
  destruct (isSimulating s); [apply length_map|reflexivity].
Qed.

(** Only a frame that finds one coin counts a result. *)
Lemma animate_stats_many (t : float) (s : Sim) :
  length (chaosCoins s) <> 1%nat -> stats (animate t s) = stats s.
Proof.
  destruct s as [w co sim coins st pa lt]. cbn [chaosCoins]. intros Hn.
  unfold animate.
  cbn [isSimulating chaosCoins set_lastTime set_chaosCoins world stats
       lastTime coin params].
  destruct (sim && (0 <? length coins)%nat); [|reflexivity].
  match goal with |- context [if forallb ?f ?l then _ else _] =>
    destruct (forallb f l) end; [|reflexivity].
  cbn [set_isSimulating chaosCoins world coin stats params lastTime].
  destruct coins as [|c1 [|c2 l']]; cbn [map]; try reflexivity.
  exfalso. apply Hn. reflexivity.
Qed.

Lemma frames_stats_many (times : list float) (s : Sim) :
  length (chaosCoins s) <> 1%nat ->
  stats (frames times s) = stats s /\
  length (chaosCoins (frames times s)) = length (chaosCoins s).
Proof.
  unfold frames. revert s.
  induction times as [|t times IH]; intros s Hn; cbn [fold_left].
  - split; reflexivity.
  - destruct (IH (animate t s)) as [A B].
    + rewrite animate_length. exact Hn.
    + rewrite A, B, animate_length, animate_stats_many by exact Hn.
      split; reflexivity.
Qed.

Lemma animate_set_params (t : float) (p : Params.t) (s : Sim) :
  animate t (set_params p s) = set_params p (animate t s).
Proof.
  destruct s as [w co sim coins st pa lt].
  destruct sim; [|reflexivity].
  destruct coins as [|c0 coins]; [reflexivity|].
  unfold animate.
  cbn [isSimulating chaosCoins set_lastTime set_chaosCoins set_params world
       stats lastTime coin params andb length Nat.ltb Nat.leb].
  destruct (forallb isSettled
              (map (fun c => update w c (frame_dt t lt)) (c0 :: coins)));
    [|reflexivity].
  cbn [set_isSimulating set_chaosCoins set_lastTime isSimulating chaosCoins
       world coin stats params lastTime map].
  destruct (map (fun c => update w c (frame_dt t lt)) coins);
    [|reflexivity].
  destruct (result (update w c0 (frame_dt t lt))); reflexivity.
Qed.

Lemma animate_lost (t : float) (s : Sim) :
  isSimulating s = true -> existsb lost (chaosCoins s) = true ->
  isSimulating (animate t s) = true /\
  existsb lost (chaosCoins (animate t s)) = true /\
  stats (animate t s) = stats s.
Proof.
  destruct s as [w co sim coins st pa lt].
  cbn [isSimulating chaosCoins]. intros Hs Hl. subst sim.
  unfold animate.
  cbn [isSimulating chaosCoins set_lastTime set_chaosCoins world stats
       lastTime coin params].
  assert (Hn : (0 <? length coins)%nat = true)
    by (destruct coins; [discriminate Hl|reflexivity]).
  rewrite Hn. cbn [andb].
  set (dt := frame_dt t lt).
  assert (Hl' : existsb lost (map (fun c => update w c dt) coins) = true).
  { apply existsb_exists in Hl as (c & Hin & Hc).
    apply existsb_exists. exists (update w c dt). split.
    - apply in_map_iff. exists c. split; [reflexivity|exact Hin].
    - apply (lost_update w c dt Hc). }
  assert (Hf : forallb isSettled (map (fun c => update w c dt) coins) = false).
  { apply existsb_exists in Hl' as (c & Hin & Hc).
    destruct (forallb isSettled _) eqn:F; [|reflexivity].
    rewrite forallb_forall in F. specialize (F c Hin).
    unfold lost in Hc. rewrite F in Hc. rewrite andb_false_r in Hc.
    discriminate Hc. }
  rewrite Hf. cbn [isSimulating chaosCoins stats].
  split; [reflexivity|]. split; [exact Hl'|reflexivity].
Qed.

Lemma frames_lost (times : list float) (s : Sim) :
  isSimulating s = true -> existsb lost (chaosCoins s) = true ->
  isSimulating (frames times s) = true /\
  existsb lost (chaosCoins (frames times s)) = true /\
  stats (frames times s) = stats s.
Proof.
  unfold frames. revert s.
  induction times as [|t times IH]; intros s Hs Hl; cbn [fold_left].
  - repeat split; assumption.
  - destruct (animate_lost t s Hs Hl) as (A & B & C).
    destruct (IH _ A B) as (A' & B' & C').
    repeat split; try assumption. congruence.
Qed.

Lemma initial_flagged (rectWidth now : float) : flagged (initial rectWidth now).
Proof. reflexivity. Qed.

Section Page.

Variable host : Host.

Lemma launchSingle_wellFormed (s : Sim) : wellFormed host (launchSingle host s).
Proof.
  destruct s as [w co sim coins st pa lt]. unfold wellFormed.
  cbv [launchSingle reset set_coin set_chaosCoins set_isSimulating
       chaosCoins coin world isSimulating stats params lastTime].
  cbn [length].
  split; [auto|]. split; [right; split; reflexivity|].
  intros k c. destruct k as [|k]; cbn [nth_error].
  - intros E; inversion E; subst. split; [apply reach_new|reflexivity].
  - destruct k; discriminate.
Qed.

Lemma runChaosDemo_wellFormed (s : Sim) :
  wellFormed host s -> wellFormed host (runChaosDemo host s).
Proof.
  intros H. unfold runChaosDemo.
  destruct (isSimulating s) eqn:Hs; [exact H|].
  destruct s as [w co sim coins st pa lt]. unfold wellFormed.
  cbv [reset set_coin set_chaosCoins set_isSimulating
       chaosCoins coin world isSimulating stats params lastTime
       chaosIndices map].
  cbn [length].
  split; [auto|]. split; [left; reflexivity|].
  intros k c.
  do 8 (destruct k as [|k]; cbn [nth_error];
        [intros E; inversion E; subst; split; [apply reach_new|reflexivity]|]).
  destruct k; discriminate.
Qed.

Lemma animate_wellFormed (t : float) (s : Sim) :
  wellFormed host s -> wellFormed host (animate t s).
Proof.
  intros (L & C & N). unfold wellFormed.
  destruct (animate_coins t s) as (Ec & _ & Eco & _).
  rewrite animate_length, Eco. split; [exact L|]. split; [exact C|].
  intros k c. rewrite Ec.
  destruct (isSimulating s); [|apply N].
  rewrite nth_error_map.
  destruct (nth_error (chaosCoins s) k) as [c0|] eqn:E; [|discriminate].
  cbn [option_map]. intros E'; inversion E'; subst.
  destruct (N k c0 E) as [R I]. split; [apply reach_update, R|].
  destruct (update_parameters (world s) c0 (frame_dt t (lastTime s)))
    as (_ & _ & _ & _ & _ & F).
  cbv zeta in F. rewrite F. exact I.
Qed.

Lemma apply_op_wellFormed (o : Op) (s : Sim) :
  wellFormed host s -> wellFormed host (apply_op host o s).
Proof.
  intros H. destruct o; cbn [apply_op].
  - unfold flipOnce. destruct (isSimulating s); [exact H|].
    apply launchSingle_wellFormed.
  - apply launchSingle_wellFormed.
  - apply runChaosDemo_wellFormed, H.
  - unfold wellFormed. destruct s; cbn. split; [auto|]. split; [auto|].
    intros [|k] c; discriminate.
  - destruct s; exact H.
  - apply animate_wellFormed, H.
  - destruct s; exact H.
  - destruct s; exact H.
Qed.

Lemma initial_wellFormed (rectWidth now : float) :
  wellFormed host (initial rectWidth now).
Proof.
  unfold wellFormed. cbn. split; [auto|]. split; [auto|].
  intros [|k] c; discriminate.
Qed.

Lemma run_ops_wellFormed (ops : list Op) (s : Sim) :
  wellFormed host s -> wellFormed host (run_ops host ops s).
Proof.
  unfold run_ops. revert s.
  induction ops as [|o ops IH]; intros s H; cbn [fold_left].
  - exact H.
  - apply IH, apply_op_wellFormed, H.
Qed.

Lemma apply_op_flagged (o : Op) (s : Sim) :
  flagged s -> flagged (apply_op host o s).
Proof.
  unfold flagged. intros H. destruct o; cbn [apply_op].
  - unfold flipOnce. destruct (isSimulating s) eqn:Hs; [congruence|].
    destruct s; reflexivity.
  - destruct s; reflexivity.
  - unfold runChaosDemo. destruct (isSimulating s) eqn:Hs; [congruence|].
    destruct s; reflexivity.
  - destruct s; reflexivity.
  - destruct s; exact H.
  - destruct (animate_coins currentTime s) as (Ec & Es & _).
    rewrite Es, Ec.
    destruct (isSimulating s) eqn:Hs; cbn [andb].
    + destruct (chaosCoins s) as [|c0 l] eqn:El; [discriminate H|].
      reflexivity.
    + exact H.
  - destruct s; exact H.
  - destruct s; exact H.
Qed.

Lemma run_ops_flagged (ops : list Op) (s : Sim) :
  flagged s -> flagged (run_ops host ops s).
Proof.
  unfold run_ops. revert s.
  induction ops as [|o ops IH]; intros s H; cbn [fold_left].
  - exact H.
  - apply IH, apply_op_flagged, H.
Qed.

Lemma apply_op_world (o : Op) (s : Sim) :
  (exists rw, world s = canvasOf rw) ->
  exists rw, world (apply_op host o s) = canvasOf rw.
Proof.
  intros H. destruct o; cbn [apply_op].
  - unfold flipOnce. destruct (isSimulating s); [exact H|].
    destruct s; exact H.
  - destruct s; exact H.
  - unfold runChaosDemo. destruct (isSimulating s); [exact H|].
    destruct s; exact H.
  - destruct s; exact H.
  - destruct s; exact H.
  - destruct (animate_coins currentTime s) as (_ & _ & _ & W & _).
    rewrite W. exact H.
  - exists rectWidth. destruct s; reflexivity.
  - destruct s; exact H.
Qed.

Lemma run_ops_world (ops : list Op) (s : Sim) :
  (exists rw, world s = canvasOf rw) ->
  exists rw, world (run_ops host ops s) = canvasOf rw.
Proof.
  unfold run_ops. revert s.
  induction ops as [|o ops IH]; intros s H; cbn [fold_left].
  - exact H.
  - apply IH, apply_op_world, H.
Qed.

Lemma launched_coin (s : Sim) (c : Coin) :
  isSimulating s = false ->
  In c (chaosCoins (flipOnce host s)) \/
  In c (chaosCoins (runChaosDemo host s)) ->
  x c = startX s /\ y c = startY s /\ radius c = 0.12.
Proof.
  intros Hs. unfold flipOnce, runChaosDemo. rewrite Hs.
  destruct s as [w co sim coins st pa lt].
  cbv [launchSingle reset set_coin set_chaosCoins set_isSimulating
       chaosCoins coin world isSimulating stats params lastTime
       chaosIndices map startX startY].
  cbn [In].
  intros [H|H];
    repeat (destruct H as [H|H]; [subst c; repeat split; reflexivity|]);
    contradiction.
Qed.

End Page.

(** ** What is drawn *)

(** [draw] and [determineResult] test the same angle in the same way. *)
Lemma isHeadsUp_classify (c : Coin) :
  isHeadsUp c
  = match classify (angle c) with Heads => true | Tails => false end.
Proof.
  unfold isHeadsUp, currentAngle, classify, normalizedAngle, quarterTurn.
  change (3 * JS.Math_PI / 2) with (3 * (JS.Math_PI / 2)).
  match goal with |- ?b = _ => destruct b end; reflexivity.
Qed.

(** The only text [draw] writes is the letter of the face. *)
Lemma draw_fillText (host : Host) (opts : Options) (n : nat) (c : Coin)
    (t : String.string) (tx ty : float) :
  In (fillText t tx ty) (draw host opts n c) ->
  t = (if isHeadsUp c then "H" else "T").
Proof.
  unfold draw. rewrite !in_app_iff.
  intros [H|[H|[H|H]]].
  - cbn [In] in H.
    repeat match goal with
           | H : _ \/ _ |- _ => destruct H as [H|H]; [discriminate H|]
           end.
    contradiction.
  - destruct (0.5 <? scaleY host c); cbn [In] in H;
      [destruct H as [H|H]; [inversion H; reflexivity|contradiction]
      |contradiction].
  - cbn [In] in H. destruct H as [H|H]; [discriminate H|contradiction].
  - destruct (showTrajectory opts && (1 <? length (trajectory c))%nat);
      [|contradiction].
    unfold trajectoryPath in H. destruct (trajectory c) as [|p0 rest];
      [contradiction|].
    rewrite !in_app_iff in H. destruct H as [H|[H|H]].
    + cbn [In] in H.
      repeat match goal with
             | H : _ \/ _ |- _ => destruct H as [H|H]; [discriminate H|]
             end.
      contradiction.
    + apply in_map_iff in H as (q & E & _). discriminate E.
    + cbn [In] in H. destruct H as [H|H]; [discriminate H|contradiction].
Qed.

Lemma draw_fillStyle (host : Host) (opts : Options) (n : nat) (c : Coin) :
  In (fillStyle
        (if (1 <? n)%nat then colorAt (colorIndex c)
         else Some (if isHeadsUp c then "#3b82f6" else "#ec4899")))
     (draw host opts n c).
Proof.
  unfold draw. apply in_or_app. left. cbn [In]. do 5 right. left. reflexivity.
Qed.

Lemma draw_not_empty (host : Host) (opts : Options) (n : nat) (c : Coin) :
  draw host opts n c <> [].
Proof. unfold draw. discriminate. Qed.

(** X8. The face [draw] shows of a settled coin of a run is its outcome:
    the test [draw] makes on the angle gives heads-up exactly when the
    outcome is Heads; drawn as the only coin, the coin is filled with
    #3b82f6 for Heads and #ec4899 for Tails; and whatever letter [draw]
    writes, for any number of coins, is H for Heads and T for Tails. *)
Theorem X8_drawn_face_is_outcome
    (host : Host) (opts : Options) (c : Coin) :
  reachable host c -> isSettled c = true ->
  exists r,
    result c = Some r /\
    isHeadsUp c = match r with Heads => true | Tails => false end /\
    (forall n, (n <= 1)%nat ->
       In (fillStyle (Some match r with
                           | Heads => "#3b82f6"
                           | Tails => "#ec4899"
                           end))
          (draw host opts n c)) /\
    (forall n t tx ty,
       In (fillText t tx ty) (draw host opts n c) ->
       t = match r with Heads => "H" | Tails => "T" end).
Proof.
  intros R Hs. pose proof (reachable_classified host c R Hs) as Hr.
  exists (classify (angle c)). split; [exact Hr|].
  pose proof (isHeadsUp_classify c) as Hh.
  split; [exact Hh|]. split.
  - intros n Hn. pose proof (draw_fillStyle host opts n c) as D.
    replace (1 <? n)%nat with false in D
      by (symmetry; apply Nat.ltb_ge; exact Hn).
    rewrite Hh in D. destruct (classify (angle c)); exact D.
  - intros n t tx ty D. apply draw_fillText in D. rewrite Hh in D.
    destruct (classify (angle c)); exact D.
Qed.

Lemma X8_drawn_face_is_outcome_witness :
  let c := stepsIn (newCoin testHost 4 3.5 default_params 0)
             (repeat (840, 0.02) 215) in
  isSettled c = true /\ result c = Some Heads /\ isHeadsUp c = true /\
  In (fillStyle (Some "#3b82f6")) (draw testHost defaultOptions 1 c).
Proof.
  cbv zeta.
  set (c := stepsIn (newCoin testHost 4 3.5 default_params 0)
              (repeat (840, 0.02) 215)).
  assert (Hs : isSettled c = true) by (vm_compute; reflexivity).
  assert (Hr : result c = Some Heads) by (vm_compute; reflexivity).
  destruct (X8_drawn_face_is_outcome testHost defaultOptions c
              (reachable_stepsIn testHost (repeat (840, 0.02) 215) _
                 (reach_new testHost 4 3.5 default_params 0)) Hs)
    as (r & Er & Eh & Ef & _).
  rewrite Hr in Er. inversion Er; subst r.
  split; [exact Hs|]. split; [exact Hr|]. split; [exact Eh|].
  apply Ef. apply le_n.
Defined.

(** X9. Whenever the cosine the host returns for the coin's angle is not
    NaN, the vertical scale [abs(cos) * 0.3 + 0.7] is above 0.5, so the
    test that guards the letter holds and [draw] writes the letter of the
    face at the centre of the coin. *)
Theorem X9_face_letter_always_drawn
    (host : Host) (opts : Options) (n : nat) (c : Coin) :
  is_nan (Math_cos host (angle c)) = false ->
  (0.5 <? scaleY host c) = true /\
  In (fillText (if isHeadsUp c then "H" else "T") 0 0) (draw host opts n c).
Proof.
  intros Hn. pose proof (scale_above_half _ Hn) as S.
  fold (scaleY host c) in S. split; [exact S|].
  unfold draw. apply in_or_app. right. apply in_or_app. left.
  rewrite S. left. reflexivity.
Qed.

Lemma X9_face_letter_always_drawn_witness :
  let c := newCoin testHost 4 3.5 default_params 0 in
  is_nan (Math_cos testHost (angle c)) = false /\
  In (fillText "H" 0 0) (draw testHost defaultOptions 1 c).
Proof.
  cbv zeta.
  destruct (X9_face_letter_always_drawn testHost defaultOptions 1
              (newCoin testHost 4 3.5 default_params 0) eq_refl) as [_ H].
  split; [reflexivity|].
  replace (isHeadsUp (newCoin testHost 4 3.5 default_params 0)) with true
    in H by (vm_compute; reflexivity).
  exact H.
Defined.

(** The colours of the coins of a state the page reaches. *)
Lemma wellFormed_colors (host : Host) (s : Sim) (k : nat) (c : Coin) :
  wellFormed host s -> nth_error (chaosCoins s) k = Some c ->
  (k < 8)%nat /\ colorAt (colorIndex c) = nth_error colors k.
Proof.
  intros (L & _ & N) E. destruct (N k c E) as [_ I].
  assert (Hk : (k < length (chaosCoins s))%nat)
    by (apply nth_error_Some; congruence).
  assert (K : (k < 8)%nat) by lia.
  split; [exact K|]. rewrite I.
  do 8 (destruct k as [|k]; [reflexivity|]). lia.
Qed.

Lemma colors_distinct (k1 k2 : nat) :
  (k1 < 8)%nat -> (k2 < 8)%nat -> k1 <> k2 ->
  nth_error colors k1 <> nth_error colors k2 /\
  nth_error colors k1 <> None.
Proof.
  intros H1 H2 Hne.
  do 8 (destruct k1 as [|k1]; [
    do 8 (destruct k2 as [|k2];
          [first [congruence|split; discriminate]|]); lia|]).
  lia.
Qed.

(** X10. In every state the page reaches, the palette lookup
    [colors[colorIndex % colors.length]] of a coin of the list finds a
    colour (it is never [undefined]), and two coins at different
    positions of the list get different colours. *)
Theorem X10_coin_colours_defined_and_distinct
    (host : Host) (ops : list Op) (rectWidth now : float)
    (k1 k2 : nat) (c1 c2 : Coin) :
  let s := run_ops host ops (initial rectWidth now) in
  nth_error (chaosCoins s) k1 = Some c1 ->
  nth_error (chaosCoins s) k2 = Some c2 ->
  k1 <> k2 ->
  (exists col, colorAt (colorIndex c1) = Some col) /\
  colorAt (colorIndex c1) <> colorAt (colorIndex c2).
Proof.
  cbv zeta. intros E1 E2 Hne.
  pose proof (run_ops_wellFormed host ops _
                (initial_wellFormed host rectWidth now)) as W.
  destruct (wellFormed_colors host _ k1 c1 W E1) as [K1 C1].
  destruct (wellFormed_colors host _ k2 c2 W E2) as [K2 C2].
  destruct (colors_distinct k1 k2 K1 K2 Hne) as [D S].
  rewrite C1, C2. split; [|exact D].
  destruct (nth_error colors k1) as [col|]; [eauto|congruence].
Qed.

Lemma X10_coin_colours_defined_and_distinct_witness :
  let s := run_ops testHost [OpRunChaosDemo] (initial 840 0) in
  let c1 := newCoin testHost 4 3.5 (modifiedParams default_params 0) 0 in
  let c2 := newCoin testHost 4 3.5 (modifiedParams default_params 7) 7 in
  nth_error (chaosCoins s) 0 = Some c1 /\
  nth_error (chaosCoins s) 7 = Some c2 /\
  colorAt (colorIndex c1) <> colorAt (colorIndex c2).
Proof.
  cbv zeta.
  assert (E1 : nth_error
                 (chaosCoins
                    (run_ops testHost [OpRunChaosDemo] (initial 840 0))) 0
               = Some (newCoin testHost 4 3.5
                         (modifiedParams default_params 0) 0))
    by (vm_compute; reflexivity).
  assert (E2 : nth_error
                 (chaosCoins
                    (run_ops testHost [OpRunChaosDemo] (initial 840 0))) 7
               = Some (newCoin testHost 4 3.5
                         (modifiedParams default_params 7) 7))
    by (vm_compute; reflexivity).
  split; [exact E1|]. split; [exact E2|].
  apply (X10_coin_colours_defined_and_distinct testHost [OpRunChaosDemo]
           840 0 0%nat 7%nat _ _ E1 E2).
  discriminate.
Defined.

(** X11. A settled coin is drawn resting on the drawn ground: whatever
    its run, [draw] puts its centre at 483 pixels down the canvas and gives
    its ellipse a radius of 12 pixels, and in every canvas the script makes
    [drawGround] draws the top of the ground at 495 = 483 + 12 pixels. *)
Theorem X11_settled_coin_drawn_on_ground_line
    (host : Host) (opts : Options) (n : nat) (x0 y0 rectWidth : float)
    (p : Params.t) (i : Z) (steps : list (float * float)) :
  let c := stepsIn (newCoin host x0 y0 p i) steps in
  let w := canvasOf rectWidth in
  isSettled c = true ->
  In (translate (x c * SCALE) 483) (draw host opts n c) /\
  In (ellipse 0 0 12 (12 * scaleY host c) 0 0 (2 * JS.Math_PI))
     (draw host opts n c) /\
  In (fillRect 0 495 (canvasWidth w) 5) (drawGround w) /\
  In (lineTo (canvasWidth w) 495) (drawGround w) /\
  483 + 12 = 495.
Proof.
  cbv zeta. intros Hs.
  destruct (settled_at_rest host x0 y0 p i steps Hs) as (Ey & _).
  destruct (stepsIn_parameters steps (newCoin host x0 y0 p i)) as (Er & _).
  cbv zeta in Er. cbn [radius newCoin] in Er.
  split; [|split; [|split; [|split]]].
  - unfold draw. apply in_or_app. left. right. left.
    rewrite Ey. reflexivity.
  - unfold draw. apply in_or_app. left. do 4 right. left.
    rewrite Er. reflexivity.
  - right. left. reflexivity.
  - do 6 right. left. reflexivity.
  - reflexivity.
Qed.

Lemma X11_settled_coin_drawn_on_ground_line_witness :
  let c := stepsIn (newCoin testHost 4 3.5 default_params 0)
             (repeat (840, 0.02) 215) in
  isSettled c = true /\
  In (translate (x c * SCALE) 483) (draw testHost defaultOptions 1 c) /\
  In (fillRect 0 495 800 5) (drawGround (canvasOf 840)).
Proof.
  cbv zeta.
  set (c := stepsIn (newCoin testHost 4 3.5 default_params 0)
              (repeat (840, 0.02) 215)).
  assert (Hs : isSettled c = true) by (vm_compute; reflexivity).
  destruct (X11_settled_coin_drawn_on_ground_line testHost defaultOptions 1
              4 3.5 840 default_params 0%Z (repeat (840, 0.02) 215) Hs)
    as (A & _ & B & _).
  split; [exact Hs|]. split; [exact A|exact B].
Defined.

(** ** The canvas and the launch *)

(** X12. The canvas [resizeCanvas] makes is 500 pixels high and never
    narrower than 600 pixels: its width is at least 600 whenever the
    measured width of the container is a number, and NaN when that is
    NaN. *)
Theorem X12_canvas_never_narrow (rectWidth : float) :
  let w := canvasOf rectWidth in
  canvasHeight w = 500 /\
  (canvasWidth w <? 600) = false /\
  (is_nan rectWidth = false -> (600 <=? canvasWidth w) = true) /\
  (is_nan rectWidth = true -> is_nan (canvasWidth w) = true).
Proof.
  cbv zeta. unfold canvasOf. cbn [canvasWidth canvasHeight].
  split; [reflexivity|].
  assert (N : is_nan rectWidth = false ->
              (600 <=? JS.Math_max 600 (rectWidth - 40)) = true).
  { intros Hn.
    pose proof (sub_finite_not_nan rectWidth 40 Hn eq_refl) as Hn'.
    unfold JS.Math_max.
    replace (is_nan 600) with false by reflexivity. rewrite Hn'.
    cbn [orb].
    destruct (600 <? rectWidth - 40) eqn:H1; [apply Binary64.ltb_leb, H1|].
    destruct (rectWidth - 40 <? 600) eqn:H2; reflexivity. }
  split; [|split; [exact N|]].
  - destruct (is_nan rectWidth) eqn:Hn.
    + apply Binary64.nan_not_ltb. unfold JS.Math_max.
      rewrite (Binary64.nan_propagates_sub rectWidth 40 Hn).
      rewrite orb_true_r. reflexivity.
    + apply leb_not_gtb, N, eq_refl.
  - intros Hn. unfold JS.Math_max.
    rewrite (Binary64.nan_propagates_sub rectWidth 40 Hn).
    rewrite orb_true_r. reflexivity.
Qed.

Lemma X12_canvas_never_narrow_witness :
  is_nan 300 = false /\ canvasWidth (canvasOf 300) = 600 /\
  (600 <=? canvasWidth (canvasOf 1240)) = true.
Proof.
  destruct (X12_canvas_never_narrow 1240) as (_ & _ & H & _).
  split; [reflexivity|]. split; [reflexivity|]. apply H. reflexivity.
Defined.

(** X13. In every state the page reaches in which no simulation runs,
    every coin that [flipOnce] or [runChaosDemo] constructs starts at
    [x = canvasWidth / (2 * SCALE)] and clear of both walls: neither
    [x - radius < 0] nor [x + radius > canvasWidth / SCALE] holds for
    it. *)
Theorem X13_launched_coins_start_clear_of_walls
    (host : Host) (ops : list Op) (rectWidth now : float) (c : Coin) :
  let s := run_ops host ops (initial rectWidth now) in
  isSimulating s = false ->
  In c (chaosCoins (flipOnce host s)) \/
  In c (chaosCoins (runChaosDemo host s)) ->
  x c = canvasWidth (world s) / (2 * SCALE) /\
  (x c - radius c <? 0) = false /\
  (canvasWidth (world s) / SCALE <? x c + radius c) = false.
Proof.
  cbv zeta. intros Hs Hin.
  destruct (launched_coin host _ c Hs Hin) as (Ex & _ & Er).
  destruct (run_ops_world host ops (initial rectWidth now)) as [rw W];
    [exists rectWidth; reflexivity|].
  rewrite Ex, Er. unfold startX. rewrite W.
  split; [reflexivity|]. apply (start_clear rw).
Qed.

Lemma X13_launched_coins_start_clear_of_walls_witness :
  let s := run_ops testHost [OpResizeCanvas 1240] (initial 840 0) in
  let c := newCoin testHost 6 3.5 default_params 0 in
  isSimulating s = false /\
  In c (chaosCoins (flipOnce testHost s)) /\
  x c = 6 /\ (12 <? x c + radius c) = false.
Proof.
  cbv zeta.
  assert (Hin : In (newCoin testHost 6 3.5 default_params 0)
                  (chaosCoins
                     (flipOnce testHost
                        (run_ops testHost [OpResizeCanvas 1240]
                           (initial 840 0)))))
    by (left; vm_compute; reflexivity).
  destruct (X13_launched_coins_start_clear_of_walls testHost
              [OpResizeCanvas 1240] 840 0
              (newCoin testHost 6 3.5 default_params 0) eq_refl
              (or_introl Hin)) as (_ & _ & H).
  split; [reflexivity|]. split; [exact Hin|]. split; [reflexivity|exact H].
Defined.

(** ** The run loop *)

Section Loop.

Variable host : Host.

(** X14. In every state the page reaches, the flag [isSimulating] is true
    exactly when some coin of the list has not settled; so while some coin
    has not settled [flipOnce] and [runChaosDemo] change nothing, and once
    all coins have settled [flipOnce] launches a coin. *)
Theorem X14_simulating_iff_some_coin_unsettled
    (ops : list Op) (rectWidth now : float) :
  let s := run_ops host ops (initial rectWidth now) in
  isSimulating s = negb (forallb isSettled (chaosCoins s)) /\
  (forallb isSettled (chaosCoins s) = false ->
   flipOnce host s = s /\ runChaosDemo host s = s) /\
  (forallb isSettled (chaosCoins s) = true ->
   flipOnce host s = launchSingle host s).
Proof.
  cbv zeta.
  pose proof (run_ops_flagged host ops _ (initial_flagged rectWidth now))
    as F.
  unfold flagged in F. split; [exact F|].
  unfold flipOnce, runChaosDemo.
  split; intros H; rewrite H in F; rewrite F; [split|]; reflexivity.
Qed.

(** X15. In every state the page reaches, the coin list holds no coin, one
    coin or eight coins; the global [coin] is null or refers to the one
    coin of a one-coin list; and the coin at position [k] of the list is a
    constructed coin stepped some number of times whose colour index is
    [k]. *)
Theorem X15_coin_list_shape (ops : list Op) (rectWidth now : float) :
  let s := run_ops host ops (initial rectWidth now) in
  (length (chaosCoins s) = 0%nat \/ length (chaosCoins s) = 1%nat \/
   length (chaosCoins s) = 8%nat) /\
  (coin s = None \/ (coin s = Some 0%nat /\ length (chaosCoins s) = 1%nat)) /\
  (forall k c, nth_error (chaosCoins s) k = Some c ->
               reachable host c /\ colorIndex c = Z.of_nat k).
Proof.
  apply (run_ops_wellFormed host ops _ (initial_wellFormed host rectWidth now)).
Qed.

(** X16. The coins of a divergence run are never counted: from a state in
    which no simulation runs, [runChaosDemo] followed by any frames leaves
    the statistics as they were, all eight coins still in the list. *)
Theorem X16_divergence_run_not_counted (s : Sim) (times : list float) :
  isSimulating s = false ->
  let s' := frames times (runChaosDemo host s) in
  stats s' = stats s /\ length (chaosCoins s') = 8%nat.
Proof.
  intros Hs. cbv zeta.
  assert (L : length (chaosCoins (runChaosDemo host s)) = 8%nat).
  { unfold runChaosDemo. rewrite Hs. reflexivity. }
  destruct (frames_stats_many times (runChaosDemo host s)) as [A B];
    [rewrite L; discriminate|].
  rewrite A, B, L. split; [|reflexivity].
  unfold runChaosDemo. rewrite Hs. destruct s; reflexivity.
Qed.

(** X17. [reset] discards a flight for good: after [reset], whatever
    frames follow, the statistics are those of before, the coin list is
    empty, [coin] is null and no simulation runs; the flight that was
    under way is never counted. *)
Theorem X17_reset_discards_flight (s : Sim) (times : list float) :
  let s' := frames times (reset s) in
  stats s' = stats s /\ chaosCoins s' = [] /\ isSimulating s' = false /\
  coin s' = None.
Proof.
  cbv zeta.
  assert (G : forall s0, chaosCoins s0 = [] -> isSimulating s0 = false ->
                         coin s0 = None ->
                         stats (frames times s0) = stats s0 /\
                         chaosCoins (frames times s0) = [] /\
                         isSimulating (frames times s0) = false /\
                         coin (frames times s0) = None).
  { unfold frames. induction times as [|t times IH]; intros s0 C S N;
      cbn [fold_left]; [auto|].
    destruct (animate_coins t s0) as (Ec & Es & Eco & _).
    rewrite S in Ec, Es. cbn [andb] in Es.
    destruct (IH (animate t s0)) as (A & B & C' & D); try congruence.
    rewrite A, B, C', D. repeat split.
    apply animate_stats_many. rewrite C. discriminate. }
  destruct (G (reset s)) as (A & B & C & D);
    try (destruct s; reflexivity).
  rewrite A, B, C, D. repeat split.
Qed.

(** X18. The frames never read the parameters: changing [params] before
    any sequence of frames gives the state that changing them after the
    frames gives, so the coins in flight and the statistics are the same
    as without the change. *)
Theorem X18_parameters_not_read_in_flight
    (p : Params.t) (times : list float) (s : Sim) :
  frames times (set_params p s) = set_params p (frames times s).
Proof.
  unfold frames. revert s.
  induction times as [|t times IH]; intros s; cbn [fold_left].
  - reflexivity.
  - rewrite animate_set_params. apply IH.
Qed.

(** X19. A simulation that holds a coin which has not settled and whose
    height is NaN never ends: after any frames [isSimulating] is still
    true, not all coins are settled, and the statistics are unchanged. *)
Theorem X19_flight_of_lost_coin_never_ends (s : Sim) (times : list float) :
  isSimulating s = true ->
  existsb lost (chaosCoins s) = true ->
  let s' := frames times s in
  isSimulating s' = true /\ stats s' = stats s /\
  forallb isSettled (chaosCoins s') = false.
Proof.
  intros Hs Hl. cbv zeta.
  destruct (frames_lost times s Hs Hl) as (A & B & C).
  split; [exact A|]. split; [exact C|].
  apply existsb_exists in B as (c & Hin & Hc).
  destruct (forallb isSettled (chaosCoins (frames times s))) eqn:F;
    [|reflexivity].
  rewrite forallb_forall in F. specialize (F c Hin).
  unfold lost in Hc. rewrite F, andb_false_r in Hc. discriminate Hc.
Qed.

(** X20. In every state the page reaches, a frame draws the coins exactly
    when some coin had not settled before the frame: if all coins have
    settled (or there is none) the frame makes no drawing call for any
    coin, and otherwise it draws every coin of the list. *)
Theorem X20_coins_drawn_only_while_unsettled
    (opts : Options) (ops : list Op) (rectWidth now t : float) :
  let s := run_ops host ops (initial rectWidth now) in
  (forallb isSettled (chaosCoins s) = true -> drawCoins host opts t s = []) /\
  (forallb isSettled (chaosCoins s) = false ->
   drawCoins host opts t s
   = concat
       (map (fun c =>
               draw host opts (length (chaosCoins s))
                 (update (world s) c (frame_dt t (lastTime s))))
            (chaosCoins s)) /\
   drawCoins host opts t s <> []).
Proof.
  cbv zeta.
  pose proof (run_ops_flagged host ops _ (initial_flagged rectWidth now))
    as F.
  unfold flagged in F.
  set (s := run_ops host ops (initial rectWidth now)) in *.
  unfold drawCoins. split; intros H; rewrite H in F; rewrite F.
  - reflexivity.
  - cbn [negb andb].
    destruct (chaosCoins s) as [|c0 l]; [discriminate H|].
    cbn [length Nat.ltb Nat.leb map concat].
    split; [reflexivity|].
    intros E. apply app_eq_nil in E as [E _].
    exact (draw_not_empty _ _ _ _ E).
Qed.

End Loop.

Lemma X14_simulating_iff_some_coin_unsettled_witness :
  let s := run_ops testHost [OpFlipOnce; OpAnimate 20] (initial 840 0) in
  forallb isSettled (chaosCoins s) = false /\ flipOnce testHost s = s.
Proof.
  cbv zeta.
  destruct (X14_simulating_iff_some_coin_unsettled testHost
              [OpFlipOnce; OpAnimate 20] 840 0) as (_ & H & _).
  set (s := run_ops testHost [OpFlipOnce; OpAnimate 20] (initial 840 0))
    in *.
  assert (Hf : forallb isSettled (chaosCoins s) = false)
    by (vm_compute; reflexivity).
  split; [exact Hf|exact (proj1 (H Hf))].
Defined.

Lemma X15_coin_list_shape_witness :
  let s := run_ops testHost [OpFlipOnce; OpAnimate 20] (initial 840 0) in
  let c := update world800 (newCoin testHost 4 3.5 default_params 0) 0.02 in
  nth_error (chaosCoins s) 0 = Some c /\
  reachable testHost c /\ colorIndex c = 0%Z /\
  (coin s = None \/ (coin s = Some 0%nat /\ length (chaosCoins s) = 1%nat)).
Proof.
  cbv zeta.
  destruct (X15_coin_list_shape testHost [OpFlipOnce; OpAnimate 20] 840 0)
    as (_ & C & H).
  set (s := run_ops testHost [OpFlipOnce; OpAnimate 20] (initial 840 0)) in *.
  set (c := update world800 (newCoin testHost 4 3.5 default_params 0) 0.02).
  assert (E : nth_error (chaosCoins s) 0 = Some c)
    by (vm_compute; reflexivity).
  destruct (H 0%nat c E) as [R I].
  split; [exact E|]. split; [exact R|]. split; [exact I|exact C].
Defined.

Lemma X16_divergence_run_not_counted_witness :
  isSimulating (initial 840 0) = false /\
  stats (frames (frameTimes 3 0) (runChaosDemo testHost (initial 840 0)))
  = mkStats 0 0 0.
Proof.
  split; [reflexivity|].
  apply (X16_divergence_run_not_counted testHost (initial 840 0)
           (frameTimes 3 0) eq_refl).
Defined.

Lemma X19_flight_of_lost_coin_never_ends_witness :
  isSimulating hugeSim = true /\ existsb lost (chaosCoins hugeSim) = true /\
  isSimulating (frames (frameTimes 250 20) hugeSim) = true /\
  stats (frames (frameTimes 250 20) hugeSim) = mkStats 0 0 0.
Proof.
  assert (Hs : isSimulating hugeSim = true) by (vm_compute; reflexivity).
  assert (Hl : existsb lost (chaosCoins hugeSim) = true)
    by (vm_compute; reflexivity).
  destruct (X19_flight_of_lost_coin_never_ends hugeSim (frameTimes 250 20)
              Hs Hl) as (A & B & _).
  split; [exact Hs|]. split; [exact Hl|]. split; [exact A|exact B].
Defined.

Lemma X20_coins_drawn_only_while_unsettled_witness :
  let s := run_ops testHost [OpFlipOnce] (initial 840 0) in
  forallb isSettled (chaosCoins s) = false /\
  drawCoins testHost defaultOptions 20 s <> [] /\
  drawCoins testHost defaultOptions 20 (run_ops testHost [] (initial 840 0))
  = [].
Proof.
  cbv zeta.
  destruct (X20_coins_drawn_only_while_unsettled testHost defaultOptions
              [OpFlipOnce] 840 0 20) as [_ H].
  destruct (X20_coins_drawn_only_while_unsettled testHost defaultOptions
              [] 840 0 20) as [H' _].
  set (s := run_ops testHost [OpFlipOnce] (initial 840 0)) in *.
  assert (Hf : forallb isSettled (chaosCoins s) = false)
    by (vm_compute; reflexivity).
  split; [exact Hf|]. split; [exact (proj2 (H Hf))|].
  apply H'. reflexivity.
Defined.

(** ** The grid *)

Lemma gridSteps_more_fuel (fuel extra : nat) (v limit : float)
    (vs : list float) :
  gridSteps fuel v limit = Some vs ->
  gridSteps (fuel + extra) v limit = Some vs.
Proof.
  revert v vs. induction fuel as [|fuel IH]; intros v vs H;
    [discriminate H|].
  cbn [gridSteps Nat.add] in *.
  destruct (v <=? limit); [|exact H].
  destruct (gridSteps fuel (v + SCALE) limit) as [l|] eqn:E;
    [|discriminate H].
  rewrite (IH _ _ E). exact H.
Qed.

(** A grid loop ends at the first value it reaches that is not at most the
    limit. *)
Lemma gridSteps_search (n : nat) (v limit : float) :
  existsb (fun m => negb (m <=? limit)) (marks n v) = true ->
  exists N, (N < n)%nat /\
    gridSteps (S N) v limit = Some (firstn N (marks n v)) /\
    forallb (fun m => m <=? limit) (firstn N (marks n v)) = true /\
    (nth N (marks n v) 0 <=? limit) = false.
Proof.
  revert v. induction n as [|n IH]; intros v H; [discriminate H|].
  cbn [marks existsb] in H.
  destruct (v <=? limit) eqn:L.
  - cbn [negb orb] in H. destruct (IH _ H) as (N & Hn & G & F & T).
    exists (S N). split; [lia|].
    cbn [marks firstn nth forallb]. split; [|split; [|exact T]].
    + change (gridSteps (S (S N)) v limit)
        with (if v <=? limit
              then match gridSteps (S N) (v + SCALE) limit with
                   | Some vs => Some (v :: vs)
                   | None => None
                   end
              else Some []).
      rewrite L, G. reflexivity.
    + rewrite L, F. reflexivity.
  - exists 0%nat. split; [lia|].
    cbn [marks firstn nth forallb gridSteps]. rewrite L.
    repeat split.
Qed.

(** The values the loops reach are the whole numbers of metres, exactly. *)
Lemma marks_values : marks 1001 0 = map mark (seq 0 1001).
Proof. vm_compute. reflexivity. Qed.

Lemma ltb_not_geb (a b : float) : (a <? b) = true -> (b <=? a) = false.
Proof.
  rewrite leb_spec, ltb_spec. unfold SFleb, SFltb.
  destruct (Prim2SF a) as [sa| sa| |sa ma ea];
    destruct (Prim2SF b) as [sb| sb| |sb mb eb];
    simpl; try (destruct sa); try (destruct sb); simpl;
    try discriminate; try reflexivity;
    rewrite ?Pos.compare_cont_spec; simpl;
    destruct (Z.compare_spec ea eb); destruct (Z.compare_spec eb ea);
    try lia; simpl; try discriminate; try reflexivity;
    destruct (Pos.compare_spec ma mb); destruct (Pos.compare_spec mb ma);
    try lia; simpl; try discriminate; reflexivity.
Qed.

Lemma firstn_seq_le (N start len : nat) :
  (N <= len)%nat -> firstn N (seq start len) = seq start N.
Proof.
  revert start len. induction N as [|N IH]; intros start len H.
  - reflexivity.
  - destruct len as [|len]; [lia|].
    cbn [seq firstn]. rewrite IH by lia. reflexivity.
Qed.

Lemma vertical_marks (limit : float) :
  (limit <? 1e5) = true ->
  exists N, (N <= 1000)%nat /\
    gridSteps (S N) 0 limit = Some (map mark (seq 0 N)) /\
    (forall k, (k < N)%nat -> (mark k <=? limit) = true) /\
    (mark N <=? limit) = false.
Proof.
  intros H.
  destruct (gridSteps_search 1001 0 limit) as (N & Hn & G & F & T).
  { apply existsb_exists. exists 1e5. split.
    - rewrite marks_values. apply in_map_iff. exists 1000%nat.
      split; [vm_compute; reflexivity|]. apply in_seq. lia.
    - rewrite (ltb_not_geb _ _ H). reflexivity. }
  rewrite marks_values in G, F, T.
  rewrite firstn_map, firstn_seq_le in G, F by lia.
  exists N. split; [lia|]. split; [exact G|]. split.
  - intros k Hk. rewrite forallb_forall in F. apply F.
    apply in_map_iff. exists k. split; [reflexivity|]. apply in_seq. lia.
  - rewrite <- T. f_equal.
    rewrite (nth_indep _ 0 (mark 0)) by (rewrite length_map, length_seq; lia).
    rewrite map_nth, seq_nth by lia. reflexivity.
Qed.

Lemma horizontal_marks (fuel : nat) :
  (7 <= fuel)%nat ->
  gridSteps fuel 0 500 = Some [0; 100; 200; 300; 400; 500].
Proof.
  intros H. replace fuel with (7 + (fuel - 7))%nat by lia.
  apply gridSteps_more_fuel. vm_compute. reflexivity.
Qed.

(** X21. In every canvas the script makes that is narrower than 100 000
    pixels both loops of [drawGrid] end: it draws vertical lines at 0, 100,
    ..., 100 (N - 1) pixels, each at most the canvas width, where 100 N is
    the first multiple of 100 that is not at most the width, then
    horizontal lines at 0, 100, ..., 500 pixels.  If the canvas width is
    NaN it draws only the horizontal lines. *)
Theorem X21_drawGrid_ends (rectWidth : float) :
  let w := canvasOf rectWidth in
  ((canvasWidth w <? 1e5) = true ->
   exists N, (N <= 1000)%nat /\
     (forall k, (k < N)%nat -> (mark k <=? canvasWidth w) = true) /\
     (mark N <=? canvasWidth w) = false /\
     forall fuel, (7 <= fuel)%nat -> (N < fuel)%nat ->
       drawGrid fuel w
       = Some ([strokeStyle "#1e293b"; lineWidth 1]
               ++ concat (map (verticalLine w) (map mark (seq 0 N)))
               ++ concat (map (horizontalLine w)
                            [0; 100; 200; 300; 400; 500]))) /\
  (is_nan (canvasWidth w) = true ->
   forall fuel, (7 <= fuel)%nat ->
     drawGrid fuel w
     = Some ([strokeStyle "#1e293b"; lineWidth 1]
             ++ concat (map (horizontalLine w)
                          [0; 100; 200; 300; 400; 500]))).
Proof.
  cbv zeta. split.
  - intros H.
    destruct (vertical_marks _ H) as (N & Hn & G & F & T).
    exists N. split; [exact Hn|]. split; [exact F|]. split; [exact T|].
    intros fuel H7 Hf. unfold drawGrid.
    replace fuel with (S N + (fuel - S N))%nat at 1 by lia.
    rewrite (gridSteps_more_fuel _ _ _ _ _ G).
    change (canvasHeight (canvasOf rectWidth)) with 500.
    rewrite (horizontal_marks fuel H7). reflexivity.
  - intros Hn fuel H7. unfold drawGrid.
    assert (G : gridSteps fuel 0 (canvasWidth (canvasOf rectWidth))
                = Some []).
    { destruct fuel as [|fuel]; [lia|]. cbn [gridSteps].
      replace (0 <=? canvasWidth (canvasOf rectWidth)) with false;
        [reflexivity|].
      symmetry. rewrite leb_spec.
      apply Binary64.is_nan_spec in Hn. rewrite Hn. reflexivity. }
    rewrite G.
    change (canvasHeight (canvasOf rectWidth)) with 500.
    rewrite (horizontal_marks fuel H7). reflexivity.
Qed.

Lemma X21_drawGrid_ends_witness :
  (canvasWidth (canvasOf 840) <? 1e5) = true /\
  exists N cmds, drawGrid (N + 7) (canvasOf 840) = Some cmds.
Proof.
  split; [reflexivity|].
  destruct (proj1 (X21_drawGrid_ends 840) eq_refl) as (N & _ & _ & _ & H).
  exists N. eexists. apply (H (N + 7)%nat); lia.
Defined.
